(** * ST7735 TFT driver (st7735.h): framebuffer, rasterizer and wire protocol

    A shallow embedding of [ST7735_4WireSpiTransport] and of
    [ST7735Driver<width, height, Transport>].

    - Bytes, colours and coordinates are integers of [Z]; every conversion
      to a fixed-width C++ type is written out as a reduction modulo the
      width of that type.
    - [buffer_] is a [list Z] of bytes, read with stdpp's lookup and
      written with stdpp's insert behind an explicit range check: a write
      outside the array is the result [Fault].
    - Loops carry a fuel argument; running out of it is the result
      [OutOfFuel].  Termination is proved by exhibiting enough fuel.
    - The transport is observed through the ordered list of events it
      causes on the pins, the SPI peripheral and the system timer. *)

From stdpp Require Import base numbers list.
From Stdlib Require Import ZArith Lia.

Local Open Scope Z_scope.

(** ** Machine integers *)

(** [uint_fast8_t] is the fastest unsigned type of at least 8 bits; which
    standard type it names is fixed by the C library, not by st7735.h.
    glibc on x86 takes [unsigned char]; newlib on the Cortex-M7 of the
    Daisy Seed takes [unsigned int].  The embedding keeps the choice as a
    parameter of every function that computes with such a value. *)
Inductive fast8_rank : Set := UChar | UShort | UInt | ULong.

Definition fast_bits (r : fast8_rank) : Z :=
  match r with UChar => 8 | UShort => 16 | UInt => 32 | ULong => 64 end.

(** Types narrower than [int] are promoted to [int] before arithmetic. *)
Definition promotes (r : fast8_rank) : bool := fast_bits r <? 32.

(** Conversions to [uint8_t], [uint16_t] and [uint_fast8_t]. *)
Definition u8 (z : Z) : Z := z mod 256.
Definition u16 (z : Z) : Z := z mod 65536.
Definition fast (r : fast8_rank) (z : Z) : Z := z mod 2 ^ fast_bits r.

(** Conversion to the 32-bit two's complement [int].  It is also used for
    the result of every [int] operation: signed overflow is undefined in
    C++, it is written here as the wrap-around the hardware performs, and
    the theorems on [DrawLineColor] state the range of inputs in which no
    [int] operation leaves the type. *)
Definition to_int (z : Z) : Z := (z + 2 ^ 31) mod 2 ^ 32 - 2 ^ 31.

(** The value of an arithmetic expression over [uint_fast8_t] operands
    and [int] literals, [z] being its mathematical value: computed in
    [int] after promotion, or in the unsigned type itself. *)
Definition arith (r : fast8_rank) (z : Z) : Z :=
  if promotes r then to_int z else fast r z.

(** ** Results of fallible, fuel-bounded code *)

Inductive outcome (A : Type) : Type :=
| Done (a : A)
| Fault
| OutOfFuel.

Arguments Done {A} a.
Arguments Fault {A}.
Arguments OutOfFuel {A}.

(** The error monad of [outcome], with stdpp's notation [x ← m; k]. *)
#[global] Instance outcome_ret : MRet outcome := fun A a => Done a.
#[global] Instance outcome_bind : MBind outcome := fun A B k m =>
  match m with
  | Done a => k a
  | Fault => Fault
  | OutOfFuel => OutOfFuel
  end.

(** ** Colours *)

(** The RGB565 constants of the driver's palette. *)
Definition COLOR_BLACK : Z := 0x0000.
Definition COLOR_WHITE : Z := 0xFFFF.
Definition COLOR_RED : Z := 0xF800.
Definition COLOR_GREEN : Z := 0x07E0.
Definition COLOR_BLUE : Z := 0x001F.
Definition COLOR_CYAN : Z := 0x07FF.
Definition COLOR_MAGENTA : Z := 0xF81F.
Definition COLOR_YELLOW : Z := 0xFFE0.

(** [static uint16_t RGB565(uint8_t r, uint8_t g, uint8_t b)] *)
Definition RGB565 (r g b : Z) : Z :=
  u16 (Z.lor (Z.lor (Z.shiftl (Z.land r 0xF8) 8) (Z.shiftl (Z.land g 0xFC) 3))
             (Z.shiftr b 3)).

(** The packing formula as the specification writes it,
    [((r&0xF8)<<8) | ((g&0xFC)<<3) | (b>>3)], over unbounded integers. *)
Definition R5G6B5_formula (r g b : Z) : Z :=
  Z.lor (Z.lor (Z.shiftl (Z.land r 248) 8) (Z.shiftl (Z.land g 252) 3))
        (Z.shiftr b 3).

(** Manual extraction of the three fields of a packed colour. *)
Definition red5 (c : Z) : Z := Z.shiftr c 11.
Definition green6 (c : Z) : Z := Z.land (Z.shiftr c 5) 0x3F.
Definition blue5 (c : Z) : Z := Z.land c 0x1F.

(** Packing three fields of 5, 6 and 5 bits: the fields do not overlap,
    so the bitwise or is the sum. *)
Definition pack_ok (r5 g6 b5 : Z) : bool :=
  let c := Z.lor (Z.lor (Z.shiftl (8 * r5) 8) (Z.shiftl (4 * g6) 3)) b5 in
  (c =? r5 * 2048 + g6 * 32 + b5)
  && (red5 c =? r5) && (green6 c =? g6) && (blue5 c =? b5).

(** ** The 4-wire SPI transport *)

Inductive line : Set := DC | RESET | CS.

(** What the transport does to the outside world, in order. *)
Inductive bus_event : Type :=
| GpioInit (l : line) (pin : Z)        (* GPIO::Init(pin, OUTPUT) *)
| GpioWrite (l : line) (level : bool)  (* GPIO::Write *)
| SpiInit                              (* SpiHandle::Init, fixed settings *)
| SpiTransmit (bytes : list Z)         (* SpiHandle::BlockingTransmit *)
| Delay (ms : Z).                      (* System::Delay *)

(** [ST7735_4WireSpiTransport::Config::pin_config] *)
Record pin_config : Type := { dc : Z; reset : Z; cs : Z }.

(** The transport object is represented by the history of its bus. *)
Definition transport : Type := list bus_event.

(** [void Init(const Config& config)] *)
Definition transport_Init (config : pin_config) (t : transport) : transport :=
  t ++ [ GpioInit DC (dc config); GpioInit CS (cs config);
         GpioInit RESET (reset config);
         GpioWrite DC true; GpioWrite CS true; GpioWrite RESET true;
         SpiInit;
         Delay 10;
         GpioWrite RESET true; Delay 10;
         GpioWrite RESET false; Delay 10;
         GpioWrite RESET true; Delay 120 ].

(** [void SendCommand(uint8_t cmd)] *)
Definition SendCommand (cmd : Z) (t : transport) : transport :=
  t ++ [ GpioWrite DC false; GpioWrite CS false;
         SpiTransmit [u8 cmd]; GpioWrite CS true ].

(** [void SendData(uint8_t* buff, size_t size)] *)
Definition SendData (buff : list Z) (size : Z) (t : transport) : transport :=
  t ++ [ GpioWrite DC true; GpioWrite CS false;
         SpiTransmit (take (Z.to_nat size) buff); GpioWrite CS true ].

(** [System::Delay] is a free function; its effect is recorded with the
    bus events so that the order of delays and writes is kept. *)
Definition System_Delay (ms : Z) (t : transport) : transport := t ++ [Delay ms].

(** *** The panel's view of the bus

    The wire protocol as the panel reads it: the controller latches a
    transmitted byte while chip-select is low, as a command when the
    data/command line is low, as parameter or pixel data when it is
    high.  Properties of what the driver sends are stated on the decoded
    transactions. *)
Inductive transaction : Type :=
| Command (opcode : Z)
| Parameters (bytes : list Z).

Fixpoint decode_from (dc_level cs_level : bool) (es : list bus_event)
  : list transaction :=
  match es with
  | [] => []
  | GpioWrite DC v :: es' => decode_from v cs_level es'
  | GpioWrite CS v :: es' => decode_from dc_level v es'
  | SpiTransmit bytes :: es' =>
      (if cs_level then []
       else if dc_level then [Parameters bytes]
       else map Command bytes) ++ decode_from dc_level cs_level es'
  | _ :: es' => decode_from dc_level cs_level es'
  end.

(** Both lines idle high after [transport_Init]. *)
Definition decode (es : list bus_event) : list transaction :=
  decode_from true true es.

Definition commands_of (ts : list transaction) : list Z :=
  flat_map (fun t => match t with Command c => [c] | Parameters _ => [] end) ts.

(** Opcodes, named as the comments of [Init] name them (and the data
    sheet names the rest). *)
Definition SWRESET : Z := 0x01.
Definition SLPOUT : Z := 0x11.
Definition FRMCTR1 : Z := 0xB1.
Definition FRMCTR2 : Z := 0xB2.
Definition FRMCTR3 : Z := 0xB3.
Definition INVCTR : Z := 0xB4.
Definition PWCTR1 : Z := 0xC0.
Definition PWCTR2 : Z := 0xC1.
Definition PWCTR3 : Z := 0xC2.
Definition PWCTR4 : Z := 0xC3.
Definition PWCTR5 : Z := 0xC4.
Definition VMCTR1 : Z := 0xC5.
Definition INVOFF : Z := 0x20.
Definition MADCTL : Z := 0x36.
Definition COLMOD : Z := 0x3A.
Definition GMCTRP1 : Z := 0xE0.
Definition GMCTRN1 : Z := 0xE1.
Definition NORON : Z := 0x13.
Definition DISPON : Z := 0x29.
Definition CASET : Z := 0x2A.
Definition RASET : Z := 0x2B.
Definition RAMWR : Z := 0x2C.

(** ** The driver *)

(** The data members of [ST7735Driver]. *)
Record driver : Type := {
  transport_ : transport;
  buffer_ : list Z;
  foreground_color_ : Z;
  background_color_ : Z;
  accent_color_ : Z
}.

Definition with_transport (t : transport) (d : driver) : driver :=
  {| transport_ := t; buffer_ := buffer_ d;
     foreground_color_ := foreground_color_ d;
     background_color_ := background_color_ d;
     accent_color_ := accent_color_ d |}.

Definition with_buffer (b : list Z) (d : driver) : driver :=
  {| transport_ := transport_ d; buffer_ := b;
     foreground_color_ := foreground_color_ d;
     background_color_ := background_color_ d;
     accent_color_ := accent_color_ d |}.

(** [void SetTheme(uint16_t fg, uint16_t bg, uint16_t accent)] *)
Definition SetTheme (fg bg accent : Z) (d : driver) : driver :=
  {| transport_ := transport_ d; buffer_ := buffer_ d;
     foreground_color_ := u16 fg;
     background_color_ := u16 bg;
     accent_color_ := u16 accent |}.

(** [on ? foreground_color_ : background_color_] *)
Definition theme_color (on : bool) (d : driver) : Z :=
  if on then foreground_color_ d else background_color_ d.

(** [buffer_[idx] = v]: a store outside the array is a fault. *)
Definition store (idx v : Z) (buf : list Z) : outcome (list Z) :=
  if (0 <=? idx) && (idx <? Z.of_nat (length buf))
  then Done (<[Z.to_nat idx := v]> buf)
  else Fault.

(** What a call has added to the bus history: the events of [after]
    beyond those of [before]. *)
Definition emitted (before after : driver) : list bus_event :=
  drop (length (transport_ before)) (transport_ after).

(** The bytes a sequence of bus events shifts out on the serial line. *)
Definition wire_bytes (es : list bus_event) : list Z :=
  flat_map (fun e => match e with SpiTransmit bytes => bytes | _ => [] end) es.

Section Driver.

(** The template parameters [size_t width, size_t height]. *)
Variables width height : Z.

(** [sizeof(buffer_)] for [uint8_t buffer_[width * height * 2]]. *)
Definition sizeof_buffer : Z := width * height * 2.

(** Offset of the pixel [(x, y)].  The arithmetic is that of [size_t];
    on the panel the value is below [sizeof(buffer_)], which the type
    holds, so no reduction is written. *)
Definition pixel_index (x y : Z) : Z := (y * width + x) * 2.

(** [void DrawPixelColor(uint_fast8_t x, uint_fast8_t y, uint16_t color)] *)
Definition DrawPixelColor (x y color : Z) (buf : list Z) : outcome (list Z) :=
  if (width <=? x) || (height <=? y) then Done buf
  else
    let idx := pixel_index x y in
    buf1 ← store idx (u8 (Z.shiftr color 8)) buf;
    store (idx + 1) (u8 (Z.land color 0xFF)) buf1.

(** [void DrawPixelRGB(x, y, r, g, b)] *)
Definition DrawPixelRGB (x y r g b : Z) (buf : list Z) : outcome (list Z) :=
  DrawPixelColor x y (RGB565 r g b) buf.

(** The loop of [FillColor]: [for(size_t i = 0; i < sizeof(buffer_); i += 2)] *)
Fixpoint FillColor_loop (fuel : nat) (hi lo i : Z) (buf : list Z)
  : outcome (list Z) :=
  match fuel with
  | O => OutOfFuel
  | S fuel' =>
      if i <? sizeof_buffer then
        buf1 ← store i hi buf;
        buf2 ← store (i + 1) lo buf1;
        FillColor_loop fuel' hi lo (i + 2) buf2
      else Done buf
  end.

(** [void FillColor(uint16_t color)] *)
Definition FillColor (fuel : nat) (color : Z) (buf : list Z) : outcome (list Z) :=
  let hi := u8 (Z.shiftr color 8) in
  let lo := u8 (Z.land color 0xFF) in
  FillColor_loop fuel hi lo 0 buf.

(** The loop of [DrawHLineColor]:
    [for(uint_fast8_t i = x; i < x + w && i < width; i++)] *)
Fixpoint DrawHLineColor_loop (r : fast8_rank) (fuel : nat)
    (x y w color i : Z) (buf : list Z) : outcome (list Z) :=
  match fuel with
  | O => OutOfFuel
  | S fuel' =>
      if (i <? arith r (x + w)) && (i <? width) then
        buf1 ← DrawPixelColor i y color buf;
        DrawHLineColor_loop r fuel' x y w color (fast r (i + 1)) buf1
      else Done buf
  end.

(** [void DrawHLineColor(uint_fast8_t x, uint_fast8_t y, uint_fast8_t w, uint16_t color)] *)
Definition DrawHLineColor (r : fast8_rank) (fuel : nat)
    (x y w color : Z) (buf : list Z) : outcome (list Z) :=
  DrawHLineColor_loop r fuel x y w color x buf.

(** The loop of [DrawVLineColor]:
    [for(uint_fast8_t j = y; j < y + h && j < height; j++)] *)
Fixpoint DrawVLineColor_loop (r : fast8_rank) (fuel : nat)
    (x y h color j : Z) (buf : list Z) : outcome (list Z) :=
  match fuel with
  | O => OutOfFuel
  | S fuel' =>
      if (j <? arith r (y + h)) && (j <? height) then
        buf1 ← DrawPixelColor x j color buf;
        DrawVLineColor_loop r fuel' x y h color (fast r (j + 1)) buf1
      else Done buf
  end.

(** [void DrawVLineColor(uint_fast8_t x, uint_fast8_t y, uint_fast8_t h, uint16_t color)] *)
Definition DrawVLineColor (r : fast8_rank) (fuel : nat)
    (x y h color : Z) (buf : list Z) : outcome (list Z) :=
  DrawVLineColor_loop r fuel x y h color y buf.

(** [void DrawRectColor(x1, y1, x2, y2, color)]: the third argument of
    each call is [x2 - x1 + 1] (or [y2 - y1 + 1]) converted to the
    parameter type [uint_fast8_t]. *)
Definition DrawRectColor (r : fast8_rank) (fuel : nat)
    (x1 y1 x2 y2 color : Z) (buf : list Z) : outcome (list Z) :=
  let w := fast r (arith r (arith r (x2 - x1) + 1)) in
  let h := fast r (arith r (arith r (y2 - y1) + 1)) in
  buf1 ← DrawHLineColor r fuel x1 y1 w color buf;
  buf2 ← DrawHLineColor r fuel x1 y2 w color buf1;
  buf3 ← DrawVLineColor r fuel x1 y1 h color buf2;
  DrawVLineColor r fuel x2 y1 h color buf3.

(** The [while(true)] loop of [DrawLineColor].  [x1], [y1] and [err] are
    the variables the loop updates; the others are fixed before it. *)
Fixpoint DrawLineColor_loop (r : fast8_rank) (fuel : nat)
    (x2 y2 dx dy sx sy color : Z) (x1 y1 err : Z) (buf : list Z)
  : outcome (list Z) :=
  match fuel with
  | O => OutOfFuel
  | S fuel' =>
      buf1 ← DrawPixelColor x1 y1 color buf;
      if (x1 =? x2) && (y1 =? y2) then Done buf1
      else
        let e2 := to_int (2 * err) in
        let '(err, x1) :=
          if e2 >? to_int (- dy)
          then (to_int (err - dy), fast r (x1 + sx)) else (err, x1) in
        let '(err, y1) :=
          if e2 <? dx
          then (to_int (err + dx), fast r (y1 + sy)) else (err, y1) in
        DrawLineColor_loop r fuel' x2 y2 dx dy sx sy color x1 y1 err buf1
  end.

(** [void DrawLineColor(x1, y1, x2, y2, color)] *)
Definition DrawLineColor (r : fast8_rank) (fuel : nat)
    (x1 y1 x2 y2 color : Z) (buf : list Z) : outcome (list Z) :=
  let dx := to_int (Z.abs (to_int (to_int x2 - to_int x1))) in
  let dy := to_int (Z.abs (to_int (to_int y2 - to_int y1))) in
  let sx := if x1 <? x2 then 1 else -1 in
  let sy := if y1 <? y2 then 1 else -1 in
  let err := to_int (dx - dy) in
  DrawLineColor_loop r fuel x2 y2 dx dy sx sy color x1 y1 err buf.

(** [void Update()] *)
Definition Update (d : driver) : driver :=
  let t := transport_ d in
  let t := SendCommand 0x2A t in
  let caset := [0x00; 0x00; 0x00; u8 (width - 1)] in
  let t := SendData caset 4 t in
  let t := SendCommand 0x2B t in
  let raset := [0x00; 0x00; 0x00; u8 (height - 1)] in
  let t := SendData raset 4 t in
  let t := SendCommand 0x2C t in
  let t := SendData (buffer_ d) sizeof_buffer t in
  with_transport t d.

(** [void Fill(bool on)] *)
Definition Fill (fuel : nat) (on : bool) (d : driver) : outcome driver :=
  buf ← FillColor fuel (theme_color on d) (buffer_ d);
  Done (with_buffer buf d).

(** [void Init(Config config)] *)
Definition Init (fuel : nat) (config : pin_config) (d : driver) : outcome driver :=
  let t := transport_Init config (transport_ d) in
  let d := {| transport_ := t; buffer_ := buffer_ d;
              foreground_color_ := COLOR_WHITE;
              background_color_ := COLOR_BLACK;
              accent_color_ := COLOR_CYAN |} in
  let t := SendCommand 0x01 t in
  let t := System_Delay 150 t in
  let t := SendCommand 0x11 t in
  let t := System_Delay 120 t in
  let t := SendCommand 0xB1 t in
  let frmctr1 := [0x01; 0x2C; 0x2D] in
  let t := SendData frmctr1 3 t in
  let t := SendCommand 0xB2 t in
  let t := SendData frmctr1 3 t in
  let t := SendCommand 0xB3 t in
  let frmctr3 := [0x01; 0x2C; 0x2D; 0x01; 0x2C; 0x2D] in
  let t := SendData frmctr3 6 t in
  let t := SendCommand 0xB4 t in
  let invctr := 0x07 in
  let t := SendData [invctr] 1 t in
  let t := SendCommand 0xC0 t in
  let pwctr1 := [0xA2; 0x02; 0x84] in
  let t := SendData pwctr1 3 t in
  let t := SendCommand 0xC1 t in
  let pwctr2 := 0xC5 in
  let t := SendData [pwctr2] 1 t in
  let t := SendCommand 0xC2 t in
  let pwctr3 := [0x0A; 0x00] in
  let t := SendData pwctr3 2 t in
  let t := SendCommand 0xC3 t in
  let pwctr4 := [0x8A; 0x2A] in
  let t := SendData pwctr4 2 t in
  let t := SendCommand 0xC4 t in
  let pwctr5 := [0x8A; 0xEE] in
  let t := SendData pwctr5 2 t in
  let t := SendCommand 0xC5 t in
  let vmctr1 := 0x0E in
  let t := SendData [vmctr1] 1 t in
  let t := SendCommand 0x20 t in
  let t := SendCommand 0x36 t in
  let madctl := 0xC8 in
  let t := SendData [madctl] 1 t in
  let t := SendCommand 0x3A t in
  let colmod := 0x05 in
  let t := SendData [colmod] 1 t in
  let t := System_Delay 10 t in
  let t := SendCommand 0xE0 t in
  let gmctrp1 := [0x02; 0x1c; 0x07; 0x12; 0x37; 0x32; 0x29; 0x2d;
                  0x29; 0x25; 0x2B; 0x39; 0x00; 0x01; 0x03; 0x10] in
  let t := SendData gmctrp1 16 t in
  let t := SendCommand 0xE1 t in
  let gmctrn1 := [0x03; 0x1d; 0x07; 0x06; 0x2E; 0x2C; 0x29; 0x2D;
                  0x2E; 0x2E; 0x37; 0x3F; 0x00; 0x00; 0x02; 0x10] in
  let t := SendData gmctrn1 16 t in
  let t := SendCommand 0x13 t in
  let t := System_Delay 10 t in
  let t := SendCommand 0x29 t in
  let t := System_Delay 100 t in
  d ← Fill fuel false (with_transport t d);
  Done (Update d).

End Driver.

(** [Config::Defaults()]: the pins D9, D30 and D7 of the Daisy Seed. *)
Definition Defaults : pin_config := {| dc := 9; reset := 30; cs := 7 |}.

(** A framebuffer of the given size with every byte zero. *)
Definition blank (width height : Z) : list Z :=
  replicate (Z.to_nat (sizeof_buffer width height)) 0.

(** A driver object before [Init]: nothing on the bus yet, the members
    zero-initialized. *)
Definition fresh_driver (width height : Z) : driver :=
  {| transport_ := [];
     buffer_ := blank width height;
     foreground_color_ := 0;
     background_color_ := 0;
     accent_color_ := 0 |}.

(** ** Observations used to state the properties *)

(** Exhaustive check of a boolean property on [0 .. n-1]. *)
Fixpoint all_below (n : nat) (P : Z -> bool) : bool :=
  match n with
  | O => true
  | S k => P (Z.of_nat k) && all_below k P
  end.

Section Observations.

Variables width height : Z.

(** Reading back the colour of a pixel: high byte first. *)
Definition read16 (buf : list Z) (idx : Z) : option Z :=
  hi ← buf !! Z.to_nat idx;
  lo ← buf !! Z.to_nat (idx + 1);
  Some (hi * 256 + lo).

Definition read_pixel (buf : list Z) (x y : Z) : option Z :=
  read16 buf (pixel_index width x y).

(** The state invariant of the data model: the buffer has
    [width * height * 2] bytes. *)
Definition well_sized (buf : list Z) : Prop :=
  Z.of_nat (length buf) = sizeof_buffer width height.

Definition on_panel (x y : Z) : Prop :=
  0 <= x < width /\ 0 <= y < height.

(** The effect of one successful [DrawPixelColor]. *)
Definition set_pixel (color : Z) (buf : list Z) (p : Z * Z) : list Z :=
  let '(x, y) := p in
  if (width <=? x) || (height <=? y) then buf
  else
    <[Z.to_nat (pixel_index width x y + 1) := u8 (Z.land color 0xFF)]>
      (<[Z.to_nat (pixel_index width x y) := u8 (Z.shiftr color 8)]> buf).

Definition plot_all (color : Z) (pts : list (Z * Z)) (buf : list Z) : list Z :=
  fold_left (set_pixel color) pts buf.

End Observations.

(** The caller's sequence [FillColor(color); Update();]. *)
Definition fill_then_update (width height : Z) (fuel : nat) (color : Z)
    (d : driver) : outcome driver :=
  buf ← FillColor width height fuel color (buffer_ d);
  Done (Update width height (with_buffer buf d)).

(** The initialization script as the panel is to receive it: software
    reset, sleep-out, three frame-rate controls, display-inversion
    control, five power controls, VCOM control, inversion off,
    memory-access control, pixel format, the two gamma tables,
    normal-display-mode on, display on. *)
Definition init_script : list transaction :=
  [ Command SWRESET; Command SLPOUT;
    Command FRMCTR1; Parameters [0x01; 0x2C; 0x2D];
    Command FRMCTR2; Parameters [0x01; 0x2C; 0x2D];
    Command FRMCTR3; Parameters [0x01; 0x2C; 0x2D; 0x01; 0x2C; 0x2D];
    Command INVCTR; Parameters [0x07];
    Command PWCTR1; Parameters [0xA2; 0x02; 0x84];
    Command PWCTR2; Parameters [0xC5];
    Command PWCTR3; Parameters [0x0A; 0x00];
    Command PWCTR4; Parameters [0x8A; 0x2A];
    Command PWCTR5; Parameters [0x8A; 0xEE];
    Command VMCTR1; Parameters [0x0E];
    Command INVOFF;
    Command MADCTL; Parameters [0xC8];
    Command COLMOD; Parameters [0x05];
    Command GMCTRP1;
    Parameters [0x02; 0x1c; 0x07; 0x12; 0x37; 0x32; 0x29; 0x2d;
                0x29; 0x25; 0x2B; 0x39; 0x00; 0x01; 0x03; 0x10];
    Command GMCTRN1;
    Parameters [0x03; 0x1d; 0x07; 0x06; 0x2E; 0x2C; 0x29; 0x2D;
                0x2E; 0x2E; 0x37; 0x3F; 0x00; 0x00; 0x02; 0x10];
    Command NORON; Command DISPON ].

(** A full-frame windowed write: column window, row window, memory
    write, one burst of pixel data. *)
Definition frame_write (last_column last_row : Z) (pixels : list Z)
  : list transaction :=
  [ Command CASET; Parameters [0; 0; 0; last_column];
    Command RASET; Parameters [0; 0; 0; last_row];
    Command RAMWR; Parameters pixels ].

(** The coordinates at which the loop of [DrawLineColor] calls
    [DrawPixelColor], in order: the same loop with the framebuffer left
    out. *)
Fixpoint line_points_loop (r : fast8_rank) (fuel : nat)
    (x2 y2 dx dy sx sy : Z) (x1 y1 err : Z) : outcome (list (Z * Z)) :=
  match fuel with
  | O => OutOfFuel
  | S fuel' =>
      if (x1 =? x2) && (y1 =? y2) then Done [(x1, y1)]
      else
        let e2 := to_int (2 * err) in
        let '(err', x1') :=
          if e2 >? to_int (- dy)
          then (to_int (err - dy), fast r (x1 + sx)) else (err, x1) in
        let '(err', y1') :=
          if e2 <? dx
          then (to_int (err' + dx), fast r (y1 + sy)) else (err', y1) in
        pts ← line_points_loop r fuel' x2 y2 dx dy sx sy x1' y1' err';
        Done ((x1, y1) :: pts)
  end.

Definition line_points (r : fast8_rank) (fuel : nat) (x1 y1 x2 y2 : Z)
  : outcome (list (Z * Z)) :=
  let dx := to_int (Z.abs (to_int (to_int x2 - to_int x1))) in
  let dy := to_int (Z.abs (to_int (to_int y2 - to_int y1))) in
  let sx := if x1 <? x2 then 1 else -1 in
  let sy := if y1 <? y2 then 1 else -1 in
  line_points_loop r fuel x2 y2 dx dy sx sy x1 y1 (to_int (dx - dy)).

(** The same walk counted in steps: [i] steps along x and [j] along y
    have been taken, over unbounded integers. *)
Fixpoint bresenham (fuel : nat) (dx dy : Z) (i j err : Z) : outcome (list (Z * Z)) :=
  match fuel with
  | O => OutOfFuel
  | S fuel' =>
      if (i =? dx) && (j =? dy) then Done [(i, j)]
      else
        let e2 := 2 * err in
        let '(err', i') := if e2 >? - dy then (err - dy, i + 1) else (err, i) in
        let '(err', j') := if e2 <? dx then (err' + dx, j + 1) else (err', j) in
        pts ← bresenham fuel' dx dy i' j' err';
        Done ((i, j) :: pts)
  end.

(** The invariant of the walk: the position stays in the box spanned by
    the two endpoints, and the error term is the closed form of the steps
    taken, within a band around zero. *)
Definition on_walk (dx dy i j err : Z) : Prop :=
  0 <= i <= dx /\ 0 <= j <= dy
  /\ err = (j + 1) * dx - (i + 1) * dy
  /\ - 2 * dy <= err <= 2 * dx.

(** From step counts back to coordinates. *)
Definition place (x1 y1 sx sy : Z) (p : Z * Z) : Z * Z :=
  (x1 + sx * fst p, y1 + sy * snd p).

(** A coordinate that the parameter type holds and whose differences,
    doubled twice, stay inside [int]. *)
Definition plain_coord (r : fast8_rank) (z : Z) : Prop :=
  0 <= z < 2 ^ fast_bits r /\ z < 2 ^ 29.

(** Point reflection through the midpoint of the segment. *)
Definition reflect (x1 y1 x2 y2 : Z) (p : Z * Z) : Z * Z :=
  (x1 + x2 - fst p, y1 + y2 - snd p).


(** ** The rest of the driver's interface *)

(** [void SetForegroundColor(uint16_t color)] *)
Definition SetForegroundColor (color : Z) (d : driver) : driver :=
  {| transport_ := transport_ d; buffer_ := buffer_ d;
     foreground_color_ := u16 color;
     background_color_ := background_color_ d;
     accent_color_ := accent_color_ d |}.

(** [void SetBackgroundColor(uint16_t color)] *)
Definition SetBackgroundColor (color : Z) (d : driver) : driver :=
  {| transport_ := transport_ d; buffer_ := buffer_ d;
     foreground_color_ := foreground_color_ d;
     background_color_ := u16 color;
     accent_color_ := accent_color_ d |}.

(** [void SetAccentColor(uint16_t color)] *)
Definition SetAccentColor (color : Z) (d : driver) : driver :=
  {| transport_ := transport_ d; buffer_ := buffer_ d;
     foreground_color_ := foreground_color_ d;
     background_color_ := background_color_ d;
     accent_color_ := u16 color |}.

(** [uint16_t GetForegroundColor() const] and its two siblings. *)
Definition GetForegroundColor (d : driver) : Z := foreground_color_ d.
Definition GetBackgroundColor (d : driver) : Z := background_color_ d.
Definition GetAccentColor (d : driver) : Z := accent_color_ d.

(** [void SetThemeDefault()] *)
Definition SetThemeDefault (d : driver) : driver :=
  SetTheme COLOR_WHITE COLOR_BLACK COLOR_CYAN d.

Section Legacy.

Variables width height : Z.

(** [size_t Width() const], [size_t Height() const] *)
Definition Width (d : driver) : Z := width.
Definition Height (d : driver) : Z := height.

(** [void DrawPixel(uint_fast8_t x, uint_fast8_t y, bool on)] *)
Definition DrawPixel (x y : Z) (on : bool) (d : driver) : outcome driver :=
  buf ← DrawPixelColor width height x y (theme_color on d) (buffer_ d);
  Done (with_buffer buf d).

(** The outer loop of [DrawRectFilled]:
    [for(uint_fast8_t j = y; j < y + h && j < height; j++)], whose body
    is the loop [for(uint_fast8_t i = x; i < x + w && i < width; i++)
    DrawPixelColor(i, j, color);], the loop of [DrawHLineColor] on row
    [j].  The inner loop gets the fuel [inner] afresh on every row. *)
Fixpoint DrawRectFilled_loop (r : fast8_rank) (inner fuel : nat)
    (x y w h color j : Z) (buf : list Z) : outcome (list Z) :=
  match fuel with
  | O => OutOfFuel
  | S fuel' =>
      if (j <? arith r (y + h)) && (j <? height) then
        buf1 ← DrawHLineColor_loop width height r inner x j w color x buf;
        DrawRectFilled_loop r inner fuel' x y w h color (fast r (j + 1)) buf1
      else Done buf
  end.

(** [void DrawRectFilled(uint_fast8_t x, uint_fast8_t y, uint_fast8_t w,
    uint_fast8_t h, uint16_t color)] *)
Definition DrawRectFilled (r : fast8_rank) (fuel : nat)
    (x y w h color : Z) (buf : list Z) : outcome (list Z) :=
  DrawRectFilled_loop r fuel fuel x y w h color y buf.

(** [void DrawRect(x1, y1, x2, y2, bool on)] *)
Definition DrawRect (r : fast8_rank) (fuel : nat)
    (x1 y1 x2 y2 : Z) (on : bool) (d : driver) : outcome driver :=
  buf ← DrawRectColor width height r fuel x1 y1 x2 y2 (theme_color on d) (buffer_ d);
  Done (with_buffer buf d).

(** [void DrawHLine(x, y, w, bool on)] *)
Definition DrawHLine (r : fast8_rank) (fuel : nat)
    (x y w : Z) (on : bool) (d : driver) : outcome driver :=
  buf ← DrawHLineColor width height r fuel x y w (theme_color on d) (buffer_ d);
  Done (with_buffer buf d).

(** [void DrawVLine(x, y, h, bool on)] *)
Definition DrawVLine (r : fast8_rank) (fuel : nat)
    (x y h : Z) (on : bool) (d : driver) : outcome driver :=
  buf ← DrawVLineColor width height r fuel x y h (theme_color on d) (buffer_ d);
  Done (with_buffer buf d).

(** [void DrawLine(x1, y1, x2, y2, bool on)] *)
Definition DrawLine (r : fast8_rank) (fuel : nat)
    (x1 y1 x2 y2 : Z) (on : bool) (d : driver) : outcome driver :=
  buf ← DrawLineColor width height r fuel x1 y1 x2 y2 (theme_color on d) (buffer_ d);
  Done (with_buffer buf d).

End Legacy.

(** ** Further observations *)

(** The pixels [(a, y)] with [lo <= a < hi], left to right, and the
    pixels [(x, b)] with [lo <= b < hi], top to bottom. *)
Definition hspan (y lo hi : Z) : list (Z * Z) :=
  map (fun a => (a, y)) (seqZ lo (hi - lo)).
Definition vspan (x lo hi : Z) : list (Z * Z) :=
  map (fun b => (x, b)) (seqZ lo (hi - lo)).

(** The rows [lo .. hi-1] of a rectangle, each from [x] to [xhi - 1]. *)
Definition rows (x xhi lo hi : Z) : list (Z * Z) :=
  flat_map (fun b => hspan b x xhi) (seqZ lo (hi - lo)).

(** Where a span of [uint_fast8_t] arithmetic ends: the value the loop
    condition [i < x + w] compares with. *)
Definition span_end (r : fast8_rank) (x w : Z) : Z := arith r (x + w).

(** The third argument [DrawRectColor] passes on: [b - a + 1] converted
    to [uint_fast8_t]. *)
Definition extent (r : fast8_rank) (a b : Z) : Z :=
  fast r (arith r (arith r (b - a) + 1)).

(** The three 16-bit theme slots hold packed colours. *)
Definition theme_valid (d : driver) : Prop :=
  0 <= foreground_color_ d < 65536
  /\ 0 <= background_color_ d < 65536
  /\ 0 <= accent_color_ d < 65536.

(** Chip-select discipline of a bus history that starts with chip-select
    at [cs_level]: the level chip-select ends at, provided every byte was
    transmitted while it was low. *)
Fixpoint cs_discipline (cs_level : bool) (es : list bus_event) : option bool :=
  match es with
  | [] => Some cs_level
  | GpioWrite CS v :: es' => cs_discipline v es'
  | SpiTransmit _ :: es' => if cs_level then None else cs_discipline cs_level es'
  | _ :: es' => cs_discipline cs_level es'
  end.

(** Two plotted points are neighbours: distinct, and at most one apart
    along each axis. *)
Definition neighbours (p q : Z * Z) : Prop :=
  p <> q /\ Z.abs (fst q - fst p) <= 1 /\ Z.abs (snd q - snd p) <= 1.

(** Every point of a list is a neighbour of the next one. *)
Fixpoint chained (pts : list (Z * Z)) : Prop :=
  match pts with
  | p :: ((q :: _) as rest) => neighbours p q /\ chained rest
  | _ => True
  end.

(** * Properties *)

(** ** Machine integers *)

Lemma fast_bits_range (r : fast8_rank) : 8 <= fast_bits r <= 64.
Proof. destruct r; simpl; lia. Qed.

Lemma fast_modulus_ge (r : fast8_rank) : 256 <= 2 ^ fast_bits r.
Proof. destruct r; simpl; lia. Qed.

Lemma fast_small (r : fast8_rank) (z : Z) :
  0 <= z < 2 ^ fast_bits r -> fast r z = z.
Proof. intros H. unfold fast. now apply Z.mod_small. Qed.

Lemma fast_range (r : fast8_rank) (z : Z) : 0 <= fast r z < 2 ^ fast_bits r.
Proof.
  unfold fast. apply Z.mod_pos_bound.
  pose proof (fast_modulus_ge r). lia.
Qed.

Lemma to_int_small (z : Z) : - 2 ^ 31 <= z < 2 ^ 31 -> to_int z = z.
Proof.
  intros H. unfold to_int.
  rewrite Z.mod_small; lia.
Qed.

Lemma all_below_spec (n : nat) (P : Z -> bool) :
  all_below n P = true -> forall z, 0 <= z < Z.of_nat n -> P z = true.
Proof.
  induction n as [|k IH]; intros Hall z Hz.
  - simpl in Hz. lia.
  - simpl in Hall. apply andb_prop in Hall as [Hk Hrest].
    destruct (Z.eq_dec z (Z.of_nat k)) as [->|Hne]; [exact Hk|].
    apply IH; [exact Hrest|lia].
Qed.

(** The two bytes of a 16-bit colour. *)
Lemma color_hi (c : Z) : 0 <= c < 65536 -> u8 (Z.shiftr c 8) = c / 256.
Proof.
  intros H. unfold u8. rewrite Z.shiftr_div_pow2 by lia.
  change (2 ^ 8) with 256. apply Z.mod_small.
  split; [apply Z.div_pos; lia | apply Z.div_lt_upper_bound; lia].
Qed.

Lemma color_lo (c : Z) : 0 <= c < 65536 -> u8 (Z.land c 0xFF) = c mod 256.
Proof.
  intros H. unfold u8. change 0xFF with (Z.ones 8).
  rewrite Z.land_ones by lia. change (2 ^ 8) with 256.
  apply Z.mod_small. apply Z.mod_pos_bound. lia.
Qed.

(** ** RGB565 *)

Lemma mask_red (r : Z) : 0 <= r < 256 -> Z.land r 0xF8 = 8 * (r / 8).
Proof.
  intros H.
  apply Z.eqb_eq.
  apply (all_below_spec 256 (fun z => Z.land z 0xF8 =? 8 * (z / 8)));
    [vm_compute; reflexivity | exact H].
Qed.

Lemma mask_green (g : Z) : 0 <= g < 256 -> Z.land g 0xFC = 4 * (g / 4).
Proof.
  intros H.
  apply Z.eqb_eq.
  apply (all_below_spec 256 (fun z => Z.land z 0xFC =? 4 * (z / 4)));
    [vm_compute; reflexivity | exact H].
Qed.

Lemma pack_fields (r5 g6 b5 : Z) :
  0 <= r5 < 32 -> 0 <= g6 < 64 -> 0 <= b5 < 32 -> pack_ok r5 g6 b5 = true.
Proof.
  intros Hr Hg Hb.
  assert (Hall : all_below 32 (fun a => all_below 64 (fun b =>
                   all_below 32 (fun c => pack_ok a b c))) = true)
    by (vm_compute; reflexivity).
  pose proof (all_below_spec _ _ Hall r5 Hr) as H1. cbv beta in H1.
  pose proof (all_below_spec _ _ H1 g6 Hg) as H2. cbv beta in H2.
  exact (all_below_spec _ _ H2 b5 Hb).
Qed.

(** C4.  For every 8-bit triple, [RGB565] returns exactly the value of the
    packing formula [((r&0xF8)<<8) | ((g&0xFC)<<3) | (b>>3)]: the
    conversion to [uint16_t] loses nothing, red occupies bits 15..11,
    green bits 10..5 and blue bits 4..0, each holding the top bits of its
    channel. *)
Theorem RGB565_bit_exact (r g b : Z) :
  0 <= r < 256 -> 0 <= g < 256 -> 0 <= b < 256 ->
  RGB565 r g b = R5G6B5_formula r g b
  /\ RGB565 r g b = (r / 8) * 2048 + (g / 4) * 32 + b / 8
  /\ red5 (RGB565 r g b) = Z.shiftr r 3
  /\ green6 (RGB565 r g b) = Z.shiftr g 2
  /\ blue5 (RGB565 r g b) = Z.shiftr b 3
  /\ 0 <= RGB565 r g b < 65536.
Proof.
  intros Hr Hg Hb.
  assert (Hr5 : 0 <= r / 8 < 32)
    by (split; [apply Z.div_pos; lia | apply Z.div_lt_upper_bound; lia]).
  assert (Hg6 : 0 <= g / 4 < 64)
    by (split; [apply Z.div_pos; lia | apply Z.div_lt_upper_bound; lia]).
  assert (Hb5 : 0 <= b / 8 < 32)
    by (split; [apply Z.div_pos; lia | apply Z.div_lt_upper_bound; lia]).
  pose proof (pack_fields _ _ _ Hr5 Hg6 Hb5) as Hp.
  unfold pack_ok in Hp.
  repeat (apply andb_prop in Hp as [Hp ?]).
  apply Z.eqb_eq in Hp.
  repeat match goal with H : (_ =? _) = true |- _ => apply Z.eqb_eq in H end.
  assert (Hf : R5G6B5_formula r g b = (r / 8) * 2048 + (g / 4) * 32 + b / 8).
  { unfold R5G6B5_formula.
    change 248 with 0xF8. change 252 with 0xFC.
    rewrite (mask_red r Hr), (mask_green g Hg).
    rewrite (Z.shiftr_div_pow2 b 3) by lia. exact Hp. }
  assert (Hu : RGB565 r g b = R5G6B5_formula r g b).
  { unfold RGB565. fold (R5G6B5_formula r g b). unfold u16.
    rewrite Hf. apply Z.mod_small. lia. }
  rewrite Hu, Hf.
  rewrite !(Z.shiftr_div_pow2 _ 3), (Z.shiftr_div_pow2 _ 2) by lia.
  change (2 ^ 3) with 8. change (2 ^ 2) with 4.
  rewrite <- Hp.
  repeat split; try assumption; try lia.
Qed.

(** ** The framebuffer *)

Section Framebuffer.

Variables width height : Z.

Lemma pixel_index_bounds (x y : Z) :
  on_panel width height x y ->
  0 <= pixel_index width x y
  /\ pixel_index width x y + 1 < sizeof_buffer width height.
Proof.
  intros [Hx Hy]. unfold pixel_index, sizeof_buffer. split; [nia|].
  assert (y * width + x + 1 <= width * height) by nia.
  lia.
Qed.

Lemma pixel_index_inj (x y x' y' : Z) :
  on_panel width height x y -> on_panel width height x' y' ->
  pixel_index width x y = pixel_index width x' y' -> x = x' /\ y = y'.
Proof.
  intros [Hx Hy] [Hx' Hy']. unfold pixel_index. intros Heq.
  assert (Hyy : y = y') by nia.
  subst y'. split; [lia | reflexivity].
Qed.

Lemma store_Done (idx v : Z) (buf : list Z) :
  0 <= idx < Z.of_nat (length buf) ->
  store idx v buf = Done (<[Z.to_nat idx := v]> buf).
Proof.
  intros H. unfold store.
  destruct (0 <=? idx) eqn:E1; [|lia].
  destruct (idx <? Z.of_nat (length buf)) eqn:E2; [reflexivity|lia].
Qed.

Lemma store_Fault (idx v : Z) (buf : list Z) :
  Z.of_nat (length buf) <= idx -> store idx v buf = Fault.
Proof.
  intros H. unfold store.
  destruct (idx <? Z.of_nat (length buf)) eqn:E2; [lia|].
  now rewrite andb_false_r.
Qed.

Lemma set_pixel_length (color : Z) (buf : list Z) (p : Z * Z) :
  length (set_pixel width height color buf p) = length buf.
Proof.
  destruct p as [x y]. unfold set_pixel.
  destruct (_ || _); [reflexivity|].
  now rewrite !length_insert.
Qed.

Lemma set_pixel_well_sized (color : Z) (buf : list Z) (p : Z * Z) :
  well_sized width height buf -> well_sized width height (set_pixel width height color buf p).
Proof. unfold well_sized. now rewrite set_pixel_length. Qed.

Lemma plot_all_well_sized (color : Z) (pts : list (Z * Z)) (buf : list Z) :
  well_sized width height buf -> well_sized width height (plot_all width height color pts buf).
Proof.
  revert buf. induction pts as [|p pts IH]; intros buf Hb; [exact Hb|].
  simpl. apply IH. now apply set_pixel_well_sized.
Qed.

Lemma set_pixel_clipped (color : Z) (buf : list Z) (x y : Z) :
  width <= x \/ height <= y ->
  set_pixel width height color buf (x, y) = buf.
Proof.
  intros H. unfold set_pixel.
  destruct (width <=? x) eqn:E1; [reflexivity|].
  destruct (height <=? y) eqn:E2; [reflexivity|]. lia.
Qed.

(** On a buffer of the right size [DrawPixelColor] never faults, and its
    effect is [set_pixel]. *)
Lemma DrawPixelColor_Done (x y color : Z) (buf : list Z) :
  well_sized width height buf -> 0 <= x -> 0 <= y ->
  DrawPixelColor width height x y color buf
  = Done (set_pixel width height color buf (x, y)).
Proof.
  intros Hb Hx Hy. unfold DrawPixelColor, set_pixel.
  destruct (width <=? x) eqn:E1; [reflexivity|].
  destruct (height <=? y) eqn:E2; [reflexivity|]. simpl.
  destruct (pixel_index_bounds x y) as [H0 H1]; [split; lia|].
  unfold well_sized in Hb.
  rewrite store_Done by lia. simpl.
  rewrite store_Done by (rewrite length_insert; lia).
  reflexivity.
Qed.

Lemma read_pixel_set_pixel_same (color : Z) (buf : list Z) (x y : Z) :
  well_sized width height buf -> on_panel width height x y -> 0 <= color < 65536 ->
  read_pixel width (set_pixel width height color buf (x, y)) x y = Some color.
Proof.
  intros Hb Hp Hc. pose proof Hp as [Hx Hy].
  destruct (pixel_index_bounds x y Hp) as [H0 H1].
  unfold well_sized in Hb.
  unfold set_pixel, read_pixel, read16.
  destruct (width <=? x) eqn:E1; [lia|].
  destruct (height <=? y) eqn:E2; [lia|]. simpl.
  rewrite (list_lookup_insert_ne _ (Z.to_nat (pixel_index width x y + 1))
             (Z.to_nat (pixel_index width x y))) by lia.
  rewrite (list_lookup_insert_eq buf (Z.to_nat (pixel_index width x y))) by lia.
  simpl.
  rewrite list_lookup_insert_eq by (rewrite length_insert; lia). simpl.
  rewrite color_hi, color_lo by exact Hc.
  f_equal. pose proof (Z.div_mod color 256). lia.
Qed.

Lemma read_pixel_set_pixel_other (color : Z) (buf : list Z) (p : Z * Z) (x y : Z) :
  0 <= fst p -> 0 <= snd p -> on_panel width height x y -> p <> (x, y) ->
  read_pixel width (set_pixel width height color buf p) x y
  = read_pixel width buf x y.
Proof.
  destruct p as [a b]. simpl. intros Ha Hb Hp Hne.
  unfold set_pixel.
  destruct (width <=? a) eqn:E1; [reflexivity|].
  destruct (height <=? b) eqn:E2; [reflexivity|]. simpl.
  assert (Hq : on_panel width height a b) by (split; lia).
  destruct (pixel_index_bounds x y Hp) as [H0 H1].
  destruct (pixel_index_bounds a b Hq) as [H2 H3].
  assert (Hi : pixel_index width a b <> pixel_index width x y).
  { intros Heq. apply (pixel_index_inj a b x y Hq Hp) in Heq as [-> ->].
    now apply Hne. }
  assert (He : exists k, pixel_index width a b = 2 * k)
    by (exists (b * width + a); unfold pixel_index; lia).
  assert (He' : exists k, pixel_index width x y = 2 * k)
    by (exists (y * width + x); unfold pixel_index; lia).
  destruct He as [k Hk]. destruct He' as [k' Hk'].
  unfold read_pixel, read16.
  rewrite !list_lookup_insert_ne by lia.
  reflexivity.
Qed.

(** What a sequence of plots leaves in a pixel of the panel. *)
Lemma read_pixel_plot_all_in (color : Z) (pts : list (Z * Z)) (buf : list Z) (x y : Z) :
  well_sized width height buf -> 0 <= color < 65536 ->
  Forall (fun p => 0 <= fst p /\ 0 <= snd p) pts ->
  on_panel width height x y -> In (x, y) pts ->
  read_pixel width (plot_all width height color pts buf) x y = Some color.
Proof.
  intros Hb Hc Hpos Hp. revert buf Hb.
  induction pts as [|p pts IH] using rev_ind; intros buf Hb Hin; [destruct Hin|].
  unfold plot_all. rewrite fold_left_app. simpl.
  fold (plot_all width height color pts buf).
  apply Forall_app in Hpos as [Hpos Hlast].
  apply Forall_cons in Hlast as [[Hp1 Hp2] _].
  destruct (decide (p = (x, y))) as [->|Hne].
  - apply read_pixel_set_pixel_same; [now apply plot_all_well_sized|exact Hp|exact Hc].
  - rewrite read_pixel_set_pixel_other by assumption.
    apply IH; [exact Hpos|exact Hb|].
    apply in_app_or in Hin as [Hin|[Heq|[]]]; [exact Hin|contradiction].
Qed.

Lemma read_pixel_plot_all_out (color : Z) (pts : list (Z * Z)) (buf : list Z) (x y : Z) :
  Forall (fun p => 0 <= fst p /\ 0 <= snd p) pts ->
  on_panel width height x y -> ~ In (x, y) pts ->
  read_pixel width (plot_all width height color pts buf) x y
  = read_pixel width buf x y.
Proof.
  intros Hpos Hp. revert buf.
  induction pts as [|p pts IH]; intros buf Hnin; [reflexivity|].
  simpl. apply Forall_cons in Hpos as [[Hp1 Hp2] Hpos].
  fold (plot_all width height color pts (set_pixel width height color buf p)).
  rewrite IH; [|exact Hpos|intros Hin; apply Hnin; now right].
  apply read_pixel_set_pixel_other; try assumption.
  intros ->. apply Hnin. now left.
Qed.

End Framebuffer.

Section Pixel.

Variables width height : Z.

(** C3.  On the panel, [DrawPixelColor] stores the colour at byte offset
    [(y*width+x)*2], high byte first, so that reading the two bytes back
    yields the colour, and touches no other byte; at or beyond either
    bound it returns the framebuffer unchanged. *)
Theorem DrawPixelColor_spec (x y color : Z) (buf : list Z) :
  well_sized width height buf -> 0 <= x -> 0 <= y -> 0 <= color < 65536 ->
  (x < width -> y < height ->
     exists buf',
       DrawPixelColor width height x y color buf = Done buf'
       /\ length buf' = length buf
       /\ buf' !! Z.to_nat ((y * width + x) * 2) = Some (color / 256)
       /\ buf' !! Z.to_nat ((y * width + x) * 2 + 1) = Some (color mod 256)
       /\ read16 buf' ((y * width + x) * 2) = Some color
       /\ forall i : nat,
            i <> Z.to_nat ((y * width + x) * 2) ->
            i <> Z.to_nat ((y * width + x) * 2 + 1) ->
            buf' !! i = buf !! i)
  /\ (width <= x \/ height <= y ->
        DrawPixelColor width height x y color buf = Done buf).
Proof.
  intros Hb Hx Hy Hc. split.
  - intros Hxw Hyh.
    assert (Hp : on_panel width height x y) by (split; lia).
    exists (set_pixel width height color buf (x, y)).
    rewrite DrawPixelColor_Done by assumption.
    split; [reflexivity|].
    split; [apply set_pixel_length|].
    pose proof (read_pixel_set_pixel_same width height color buf x y Hb Hp Hc) as Hr.
    destruct (pixel_index_bounds width height x y Hp) as [H0 H1].
    unfold well_sized in Hb.
    unfold read_pixel, pixel_index in Hr.
    unfold set_pixel, pixel_index in *.
    destruct (width <=? x) eqn:E1; [lia|].
    destruct (height <=? y) eqn:E2; [lia|]. simpl in *.
    repeat split.
    + rewrite (list_lookup_insert_ne _ (Z.to_nat ((y * width + x) * 2 + 1))
                 (Z.to_nat ((y * width + x) * 2))) by lia.
      rewrite list_lookup_insert_eq by lia.
      now rewrite color_hi.
    + rewrite list_lookup_insert_eq by (rewrite length_insert; lia).
      now rewrite color_lo.
    + exact Hr.
    + intros i Hi1 Hi2.
      rewrite !list_lookup_insert_ne by congruence. reflexivity.
  - intros Hout.
    rewrite DrawPixelColor_Done by assumption.
    now rewrite set_pixel_clipped.
Qed.

End Pixel.

(** ** Rectangle outlines *)

Section Outline.

Variables width height : Z.
Variable r : fast8_rank.

(** The panel is addressable by the coordinate type. *)
Hypothesis width_fits : width < 2 ^ fast_bits r.
Hypothesis height_fits : height < 2 ^ fast_bits r.

Lemma plot_all_app (color : Z) (p q : list (Z * Z)) (buf : list Z) :
  plot_all width height color (p ++ q) buf
  = plot_all width height color q (plot_all width height color p buf).
Proof. unfold plot_all. apply fold_left_app. Qed.

(** A byte changed by a sequence of plots lies in one of the plotted
    pixels, and that pixel is on the panel. *)
Lemma plot_all_changed_byte (color : Z) (pts : list (Z * Z)) (buf : list Z) (n : nat) :
  Forall (fun p => 0 <= fst p /\ 0 <= snd p) pts ->
  plot_all width height color pts buf !! n <> buf !! n ->
  exists x y, In (x, y) pts /\ on_panel width height x y
              /\ (n = Z.to_nat (pixel_index width x y)
                  \/ n = Z.to_nat (pixel_index width x y + 1)).
Proof.
  revert buf. induction pts as [|[a b] pts IH]; intros buf Hpos Hne.
  - simpl in Hne. congruence.
  - apply Forall_cons in Hpos as [[Ha Hb] Hpos]. simpl in Ha, Hb.
    change (plot_all width height color pts
              (set_pixel width height color buf (a, b)) !! n <> buf !! n) in Hne.
    destruct (decide (plot_all width height color pts
                        (set_pixel width height color buf (a, b)) !! n
                      = set_pixel width height color buf (a, b) !! n))
      as [Heq|Hch].
    + rewrite Heq in Hne. exists a, b. split; [now left|].
      unfold set_pixel in Hne.
      destruct (width <=? a) eqn:E1; [simpl in Hne; congruence|].
      destruct (height <=? b) eqn:E2; [simpl in Hne; congruence|].
      simpl in Hne. split; [split; lia|].
      destruct (decide (n = Z.to_nat (pixel_index width a b))) as [->|N1];
        [now left|].
      destruct (decide (n = Z.to_nat (pixel_index width a b + 1))) as [->|N2];
        [now right|].
      rewrite !list_lookup_insert_ne in Hne by congruence. congruence.
    + destruct (IH _ Hpos Hch) as (x & y & Hin & Hp & Hn).
      exists x, y. split; [now right|]. now split.
Qed.

(** The horizontal span: the loop leaves through [i < width] at the
    latest, and every plot it makes is on row [y]. *)
Lemma DrawHLineColor_loop_plots (fuel : nat) (x y w color i : Z) (buf : list Z) :
  well_sized width height buf -> 0 <= i -> 0 <= y ->
  (Z.to_nat (width - i) < fuel)%nat ->
  exists pts,
    DrawHLineColor_loop width height r fuel x y w color i buf
    = Done (plot_all width height color pts buf)
    /\ Forall (fun p => 0 <= fst p /\ snd p = y) pts.
Proof.
  revert i buf. induction fuel as [|fuel IH]; intros i buf Hb Hi Hy Hfuel; [lia|].
  simpl.
  destruct ((i <? arith r (x + w)) && (i <? width)) eqn:Hc.
  - apply andb_prop in Hc as [_ Hiw]. apply Z.ltb_lt in Hiw.
    rewrite DrawPixelColor_Done by assumption. simpl.
    rewrite fast_small by lia.
    destruct (IH (i + 1) (set_pixel width height color buf (i, y)))
      as (pts & Hrun & Hpts);
      [now apply set_pixel_well_sized|lia|exact Hy|lia|].
    exists ((i, y) :: pts). split; [exact Hrun|].
    constructor; [simpl; lia|exact Hpts].
  - exists []. split; [reflexivity|constructor].
Qed.

(** The vertical span, on column [x]. *)
Lemma DrawVLineColor_loop_plots (fuel : nat) (x y h color j : Z) (buf : list Z) :
  well_sized width height buf -> 0 <= j -> 0 <= x ->
  (Z.to_nat (height - j) < fuel)%nat ->
  exists pts,
    DrawVLineColor_loop width height r fuel x y h color j buf
    = Done (plot_all width height color pts buf)
    /\ Forall (fun p => fst p = x /\ 0 <= snd p) pts.
Proof.
  revert j buf. induction fuel as [|fuel IH]; intros j buf Hb Hj Hx Hfuel; [lia|].
  simpl.
  destruct ((j <? arith r (y + h)) && (j <? height)) eqn:Hc.
  - apply andb_prop in Hc as [_ Hjh]. apply Z.ltb_lt in Hjh.
    rewrite DrawPixelColor_Done by assumption. simpl.
    rewrite fast_small by lia.
    destruct (IH (j + 1) (set_pixel width height color buf (x, j)))
      as (pts & Hrun & Hpts);
      [now apply set_pixel_well_sized|lia|exact Hx|lia|].
    exists ((x, j) :: pts). split; [exact Hrun|].
    constructor; [simpl; lia|exact Hpts].
  - exists []. split; [reflexivity|constructor].
Qed.

(** [DrawRectColor] on any four coordinates: it returns, without a
    store outside the array, the buffer obtained by plotting points of
    the two rows and the two columns. *)
Lemma DrawRectColor_plots (fuel : nat) (x1 y1 x2 y2 color : Z) (buf : list Z) :
  well_sized width height buf ->
  0 <= x1 -> 0 <= y1 -> 0 <= x2 -> 0 <= y2 ->
  (Z.to_nat (Z.max width height) < fuel)%nat ->
  exists pts,
    DrawRectColor width height r fuel x1 y1 x2 y2 color buf
    = Done (plot_all width height color pts buf)
    /\ Forall (fun p => 0 <= fst p /\ 0 <= snd p
                        /\ (fst p = x1 \/ fst p = x2
                            \/ snd p = y1 \/ snd p = y2)) pts.
Proof.
  intros Hb Hx1 Hy1 Hx2 Hy2 Hfuel. unfold DrawRectColor.
  set (w := fast r (arith r (arith r (x2 - x1) + 1))).
  set (h := fast r (arith r (arith r (y2 - y1) + 1))).
  unfold DrawHLineColor, DrawVLineColor.
  destruct (DrawHLineColor_loop_plots fuel x1 y1 w color x1 buf)
    as (p1 & -> & F1); [assumption|lia|lia|lia|]. simpl.
  destruct (DrawHLineColor_loop_plots fuel x1 y2 w color x1
              (plot_all width height color p1 buf))
    as (p2 & -> & F2); [now apply plot_all_well_sized|lia|lia|lia|]. simpl.
  rewrite <- plot_all_app.
  destruct (DrawVLineColor_loop_plots fuel x1 y1 h color y1
              (plot_all width height color (p1 ++ p2) buf))
    as (p3 & -> & F3); [now apply plot_all_well_sized|lia|lia|lia|]. simpl.
  rewrite <- plot_all_app.
  destruct (DrawVLineColor_loop_plots fuel x2 y1 h color y1
              (plot_all width height color ((p1 ++ p2) ++ p3) buf))
    as (p4 & -> & F4); [now apply plot_all_well_sized|lia|lia|lia|].
  rewrite <- plot_all_app.
  exists (((p1 ++ p2) ++ p3) ++ p4). split; [reflexivity|].
  repeat rewrite Forall_app. repeat split.
  - eapply Forall_impl; [exact F1|]. simpl. intros p [? ?]. lia.
  - eapply Forall_impl; [exact F2|]. simpl. intros p [? ?]. lia.
  - eapply Forall_impl; [exact F3|]. simpl. intros p [? ?]. lia.
  - eapply Forall_impl; [exact F4|]. simpl. intros p [? ?]. lia.
Qed.

(** C5.  With reversed coordinates ([x1 > x2] or [y1 > y2])
    [DrawRectColor] returns normally: no store falls outside the array,
    the buffer keeps its size, and every byte whose value changes is one
    of the two bytes of a pixel that is on the panel and on one of the
    rows [y1], [y2] or columns [x1], [x2]. *)
Theorem DrawRectColor_reversed_safe
    (fuel : nat) (x1 y1 x2 y2 color : Z) (buf : list Z) :
  well_sized width height buf ->
  0 <= x1 -> 0 <= y1 -> 0 <= x2 -> 0 <= y2 ->
  x2 < x1 \/ y2 < y1 ->
  (Z.to_nat (Z.max width height) < fuel)%nat ->
  exists buf',
    DrawRectColor width height r fuel x1 y1 x2 y2 color buf = Done buf'
    /\ length buf' = length buf
    /\ forall n : nat,
         buf' !! n <> buf !! n ->
         exists x y,
           on_panel width height x y
           /\ (x = x1 \/ x = x2 \/ y = y1 \/ y = y2)
           /\ (n = Z.to_nat (pixel_index width x y)
               \/ n = Z.to_nat (pixel_index width x y + 1)).
Proof.
  intros Hb Hx1 Hy1 Hx2 Hy2 _ Hfuel.
  destruct (DrawRectColor_plots fuel x1 y1 x2 y2 color buf)
    as (pts & Hrun & Hpts); try assumption.
  exists (plot_all width height color pts buf).
  split; [exact Hrun|].
  split.
  { pose proof (plot_all_well_sized width height color pts buf Hb) as Hb'.
    unfold well_sized in *. lia. }
  intros n Hn.
  destruct (plot_all_changed_byte color pts buf n) as (x & y & Hin & Hp & Hidx).
  - eapply Forall_impl; [exact Hpts|]. simpl. intros p (? & ? & _). now split.
  - exact Hn.
  - exists x, y. split; [exact Hp|]. split; [|exact Hidx].
    rewrite Forall_forall in Hpts.
    destruct (Hpts (x, y)) as (_ & _ & Hout); [now apply list_elem_of_In|].
    exact Hout.
Qed.

End Outline.

(** ** Fill and the presenter *)

Section Presenter.

Variables width height : Z.

(** The loop of [FillColor] started at an even offset [2*k]: it leaves
    the bytes below the offset alone and writes the pair [hi], [lo] into
    every pixel from [k] on. *)
Lemma FillColor_loop_Done (hi lo : Z) (fuel : nat) (k : Z) (buf : list Z) :
  well_sized width height buf -> 0 <= k ->
  (Z.to_nat (width * height - k) < fuel)%nat ->
  exists buf',
    FillColor_loop width height fuel hi lo (2 * k) buf = Done buf'
    /\ length buf' = length buf
    /\ (forall n : nat, (n < Z.to_nat (2 * k))%nat -> buf' !! n = buf !! n)
    /\ (forall m, k <= m < width * height ->
          buf' !! Z.to_nat (2 * m) = Some hi
          /\ buf' !! Z.to_nat (2 * m + 1) = Some lo).
Proof.
  revert k buf. induction fuel as [|fuel IH]; intros k buf Hb Hk Hfuel; [lia|].
  simpl. unfold well_sized, sizeof_buffer in *.
  destruct (2 * k <? width * height * 2) eqn:Hc.
  - apply Z.ltb_lt in Hc.
    rewrite store_Done by lia. simpl.
    rewrite store_Done by (rewrite length_insert; lia). simpl.
    replace (2 * k + 2) with (2 * (k + 1)) by lia.
    destruct (IH (k + 1)
                (<[Z.to_nat (2 * k + 1) := lo]> (<[Z.to_nat (2 * k) := hi]> buf)))
      as (buf' & Hrun & Hlen & Hlow & Hhigh);
      [rewrite !length_insert; lia|lia|lia|].
    exists buf'. split; [exact Hrun|].
    split; [rewrite Hlen, !length_insert; reflexivity|].
    split.
    + intros n Hn. rewrite Hlow by lia.
      rewrite !list_lookup_insert_ne by lia. reflexivity.
    + intros m Hm.
      destruct (Z.eq_dec m k) as [->|Hne]; [|apply Hhigh; lia].
      rewrite !Hlow by lia. split.
      * rewrite (list_lookup_insert_ne _ (Z.to_nat (2 * k + 1)) (Z.to_nat (2 * k)))
          by lia.
        apply list_lookup_insert_eq. lia.
      * apply list_lookup_insert_eq. rewrite length_insert. lia.
  - apply Z.ltb_ge in Hc. exists buf.
    split; [reflexivity|]. split; [reflexivity|].
    split; [reflexivity|]. intros m Hm. lia.
Qed.

(** A framebuffer holding the pair [hi], [lo] in every pixel is unique. *)
Lemma filled_unique (hi lo : Z) (b1 b2 : list Z) :
  well_sized width height b1 -> well_sized width height b2 ->
  (forall m, 0 <= m < width * height ->
     b1 !! Z.to_nat (2 * m) = Some hi /\ b1 !! Z.to_nat (2 * m + 1) = Some lo) ->
  (forall m, 0 <= m < width * height ->
     b2 !! Z.to_nat (2 * m) = Some hi /\ b2 !! Z.to_nat (2 * m + 1) = Some lo) ->
  b1 = b2.
Proof.
  unfold well_sized, sizeof_buffer. intros L1 L2 H1 H2.
  apply list_eq. intros n.
  destruct (decide (n < length b1)%nat) as [Hlt|Hge].
  - set (m := Z.of_nat n / 2).
    assert (Hm : 0 <= m < width * height).
    { subst m. split; [apply Z.div_pos; lia|].
      apply Z.div_lt_upper_bound; lia. }
    destruct (H1 m Hm) as [A1 B1]. destruct (H2 m Hm) as [A2 B2].
    pose proof (Z.div_mod (Z.of_nat n) 2 ltac:(lia)) as Hdm.
    pose proof (Z.mod_pos_bound (Z.of_nat n) 2 ltac:(lia)) as Hmod.
    fold m in Hdm.
    destruct (Z.eq_dec (Z.of_nat n mod 2) 0) as [E|E].
    + replace n with (Z.to_nat (2 * m)) by lia. congruence.
    + replace n with (Z.to_nat (2 * m + 1)) by lia. congruence.
  - rewrite !(proj2 (lookup_ge_None _ _)) by lia. reflexivity.
Qed.

Lemma FillColor_Done (fuel : nat) (color : Z) (buf : list Z) :
  well_sized width height buf ->
  (Z.to_nat (width * height) < fuel)%nat ->
  exists buf',
    FillColor width height fuel color buf = Done buf'
    /\ well_sized width height buf'
    /\ (forall m, 0 <= m < width * height ->
          buf' !! Z.to_nat (2 * m) = Some (u8 (Z.shiftr color 8))
          /\ buf' !! Z.to_nat (2 * m + 1) = Some (u8 (Z.land color 0xFF))).
Proof.
  intros Hb Hfuel. unfold FillColor.
  destruct (FillColor_loop_Done (u8 (Z.shiftr color 8)) (u8 (Z.land color 0xFF))
              fuel 0 buf) as (buf' & Hrun & Hlen & _ & Hall);
    [exact Hb|lia|lia|].
  exists buf'. split; [exact Hrun|].
  split; [unfold well_sized in *; lia|exact Hall].
Qed.

(** Every pixel of a filled framebuffer reads as the colour. *)
Lemma FillColor_read (fuel : nat) (color : Z) (buf buf' : list Z) (x y : Z) :
  well_sized width height buf ->
  (Z.to_nat (width * height) < fuel)%nat ->
  0 <= color < 65536 ->
  FillColor width height fuel color buf = Done buf' ->
  on_panel width height x y ->
  read_pixel width buf' x y = Some color.
Proof.
  intros Hb Hfuel Hc Hrun Hp.
  destruct (FillColor_Done fuel color buf Hb Hfuel) as (b & Hrun' & _ & Hall).
  rewrite Hrun in Hrun'. injection Hrun' as <-.
  unfold read_pixel, read16, pixel_index.
  destruct Hp as [Hx Hy].
  assert (Hm : 0 <= y * width + x < width * height) by nia.
  destruct (Hall _ Hm) as [A B].
  replace ((y * width + x) * 2) with (2 * (y * width + x)) by lia.
  rewrite A, B. simpl.
  rewrite color_hi, color_lo by exact Hc.
  f_equal. pose proof (Z.div_mod color 256). lia.
Qed.

(** What one [Update] appends to the bus history. *)
Lemma Update_emitted (d : driver) :
  emitted d (Update width height d)
  = [ GpioWrite DC false; GpioWrite CS false; SpiTransmit [0x2A];
      GpioWrite CS true;
      GpioWrite DC true; GpioWrite CS false;
      SpiTransmit [0; 0; 0; u8 (width - 1)]; GpioWrite CS true;
      GpioWrite DC false; GpioWrite CS false; SpiTransmit [0x2B];
      GpioWrite CS true;
      GpioWrite DC true; GpioWrite CS false;
      SpiTransmit [0; 0; 0; u8 (height - 1)]; GpioWrite CS true;
      GpioWrite DC false; GpioWrite CS false; SpiTransmit [0x2C];
      GpioWrite CS true;
      GpioWrite DC true; GpioWrite CS false;
      SpiTransmit (take (Z.to_nat (sizeof_buffer width height)) (buffer_ d));
      GpioWrite CS true ].
Proof.
  unfold emitted, Update, SendCommand, SendData. simpl.
  rewrite <- !app_assoc. rewrite drop_app_length. reflexivity.
Qed.

Lemma Update_buffer (d : driver) : buffer_ (Update width height d) = buffer_ d.
Proof. reflexivity. Qed.

Lemma Update_history (d : driver) :
  transport_ (Update width height d)
  = transport_ d ++ emitted d (Update width height d).
Proof.
  rewrite Update_emitted.
  unfold Update, SendCommand, SendData. simpl.
  rewrite <- !app_assoc. reflexivity.
Qed.

(** C6.  On a panel of at most 256 columns and rows, [Update] puts on
    the bus, in order and whatever the levels of the lines before the
    call: the column-address-set command with the parameter bytes
    [0, 0, 0, width-1]; the row-address-set command with
    [0, 0, 0, height-1]; the memory-write command; then the framebuffer
    as it is at the call, all [width*height*2] bytes in one burst; and
    nothing else.  The framebuffer itself is not modified. *)
Theorem Update_wire (d : driver) (dc0 cs0 : bool) :
  0 < width <= 256 -> 0 < height <= 256 ->
  well_sized width height (buffer_ d) ->
  decode_from dc0 cs0 (emitted d (Update width height d))
  = [ Command CASET; Parameters [0; 0; 0; width - 1];
      Command RASET; Parameters [0; 0; 0; height - 1];
      Command RAMWR; Parameters (buffer_ d) ]
  /\ Z.of_nat (length (buffer_ d)) = width * height * 2
  /\ buffer_ (Update width height d) = buffer_ d
  /\ transport_ (Update width height d)
     = transport_ d ++ emitted d (Update width height d).
Proof.
  intros Hw Hh Hb.
  split; [|split; [exact Hb|split; [reflexivity|apply Update_history]]].
  rewrite Update_emitted.
  rewrite take_ge by (unfold well_sized in Hb; lia).
  unfold u8. rewrite !Z.mod_small by lia.
  reflexivity.
Qed.

End Presenter.

Section Startup.

Variables width height : Z.

(** C7.  [FillColor(color); Update();] run twice in a row: both runs
    return, the framebuffer after the second run is the framebuffer
    after the first, and the second [Update] puts on the bus exactly the
    events, hence the bytes, that the first one did. *)
Theorem fill_update_idempotent (fuel : nat) (color : Z) (d : driver) :
  well_sized width height (buffer_ d) ->
  (Z.to_nat (width * height) < fuel)%nat ->
  exists d1 d2,
    fill_then_update width height fuel color d = Done d1
    /\ fill_then_update width height fuel color d1 = Done d2
    /\ buffer_ d2 = buffer_ d1
    /\ emitted d1 d2 = emitted d d1
    /\ wire_bytes (emitted d1 d2) = wire_bytes (emitted d d1)
    /\ decode (emitted d1 d2) = decode (emitted d d1).
Proof.
  intros Hb Hfuel. unfold fill_then_update.
  destruct (FillColor_Done width height fuel color (buffer_ d) Hb Hfuel)
    as (b1 & Hrun1 & Hb1 & Hall1).
  rewrite Hrun1. simpl.
  set (d1 := Update width height (with_buffer b1 d)).
  assert (Hbuf1 : buffer_ d1 = b1) by reflexivity.
  destruct (FillColor_Done width height fuel color b1 Hb1 Hfuel)
    as (b2 & Hrun2 & Hb2 & Hall2).
  exists d1, (Update width height (with_buffer b2 d1)).
  split; [reflexivity|].
  rewrite Hbuf1, Hrun2. simpl.
  split; [reflexivity|].
  assert (Heq : b2 = b1)
    by (eapply filled_unique; [exact Hb2|exact Hb1|exact Hall2|exact Hall1]).
  subst b2.
  split; [reflexivity|].
  assert (Hem : emitted d1 (Update width height (with_buffer b1 d1))
                = emitted d d1).
  { change (emitted d d1)
      with (emitted (with_buffer b1 d) (Update width height (with_buffer b1 d))).
    rewrite !Update_emitted. reflexivity. }
  split; [exact Hem|]. now rewrite Hem.
Qed.

(** C8.  [Init] returns; between the transport's reset pulse and the
    end of the call the panel receives the initialization script, each
    command once and in the order of [init_script], followed by one
    full-frame write and nothing else; and the framebuffer then holds
    the background colour, black, in every pixel. *)
Theorem Init_script (fuel : nat) (config : pin_config) (d : driver) :
  well_sized width height (buffer_ d) ->
  (Z.to_nat (width * height) < fuel)%nat ->
  exists d',
    Init width height fuel config d = Done d'
    /\ decode (emitted d d')
       = init_script
         ++ frame_write (u8 (width - 1)) (u8 (height - 1)) (buffer_ d')
    /\ commands_of (decode (emitted d d'))
       = [ SWRESET; SLPOUT; FRMCTR1; FRMCTR2; FRMCTR3; INVCTR;
           PWCTR1; PWCTR2; PWCTR3; PWCTR4; PWCTR5; VMCTR1;
           INVOFF; MADCTL; COLMOD; GMCTRP1; GMCTRN1; NORON; DISPON;
           CASET; RASET; RAMWR ]
    /\ NoDup (commands_of (decode (emitted d d')))
    /\ background_color_ d' = COLOR_BLACK
    /\ well_sized width height (buffer_ d')
    /\ forall x y, on_panel width height x y ->
         read_pixel width (buffer_ d') x y = Some (background_color_ d').
Proof.
  intros Hb Hfuel.
  destruct (FillColor_Done width height fuel COLOR_BLACK (buffer_ d) Hb Hfuel)
    as (b & Hrun & Hb' & Hall).
  cbv beta zeta delta [Init Fill theme_color with_transport].
  cbn [buffer_ background_color_ transport_].
  rewrite Hrun. cbn [mbind outcome_bind].
  eexists. split; [reflexivity|].
  match goal with
  | |- context [decode ?ev] =>
      assert (Hdec : decode ev
                     = init_script
                       ++ frame_write (u8 (width - 1)) (u8 (height - 1)) b)
  end.
  { unfold emitted, Update, SendCommand, SendData, System_Delay, transport_Init.
    cbn [transport_ buffer_ with_transport with_buffer].
    rewrite <- !app_assoc. rewrite drop_app_length.
    rewrite (take_ge b) by (unfold well_sized in Hb'; lia).
    reflexivity. }
  rewrite Hdec.
  cbn [transport_ buffer_ Update with_transport with_buffer
       background_color_ foreground_color_ accent_color_].
  split; [reflexivity|].
  split; [reflexivity|].
  split.
  { apply NoDup_ListNoDup. unfold init_script, frame_write. simpl.
    repeat (constructor; [simpl; intuition discriminate|]). constructor. }
  split; [reflexivity|].
  split; [exact Hb'|].
  intros x y Hp.
  eapply FillColor_read; [exact Hb|exact Hfuel| |exact Hrun|exact Hp].
  unfold COLOR_BLACK. lia.
Qed.

End Startup.

(** ** Lines *)

(** *** The walk in step counts *)

Section Walk.

Variables dx dy : Z.

Lemma x_step_room (i j err : Z) :
  on_walk dx dy i j err -> (i =? dx) && (j =? dy) = false ->
  2 * err > - dy -> i < dx.
Proof.
  intros (Hi & Hj & Herr & _) Hend He.
  destruct (Z.eq_dec i dx) as [->|Hne]; [|lia].
  rewrite Z.eqb_refl in Hend. simpl in Hend. apply Z.eqb_neq in Hend.
  assert (0 <= dx * (dy - j - 1)) by (apply Z.mul_nonneg_nonneg; lia).
  nia.
Qed.

Lemma y_step_room (i j err : Z) :
  on_walk dx dy i j err -> (i =? dx) && (j =? dy) = false ->
  2 * err < dx -> j < dy.
Proof.
  intros (Hi & Hj & Herr & _) Hend He.
  destruct (Z.eq_dec j dy) as [->|Hne]; [|lia].
  rewrite Z.eqb_refl, andb_true_r in Hend. apply Z.eqb_neq in Hend.
  assert (0 <= dy * (dx - i - 1)) by (apply Z.mul_nonneg_nonneg; lia).
  nia.
Qed.

Lemma step_progress (i j err : Z) :
  on_walk dx dy i j err -> (i =? dx) && (j =? dy) = false ->
  2 * err > - dy \/ 2 * err < dx.
Proof.
  intros (Hi & Hj & Herr & _) Hend.
  destruct (Z_gt_dec (2 * err) (- dy)) as [|H1]; [now left|].
  destruct (Z_lt_dec (2 * err) dx) as [|H2]; [now right|].
  assert (dx = 0 /\ dy = 0) as [-> ->] by lia.
  assert (i = 0 /\ j = 0) as [-> ->] by lia.
  discriminate Hend.
Qed.

Lemma on_walk_start : 0 <= dx -> 0 <= dy -> on_walk dx dy 0 0 (dx - dy).
Proof. intros Hx Hy. unfold on_walk. lia. Qed.

Lemma on_walk_x (i j err : Z) :
  on_walk dx dy i j err -> i < dx -> 2 * err > - dy -> ~ 2 * err < dx ->
  on_walk dx dy (i + 1) j (err - dy).
Proof. unfold on_walk. intros (Hi & Hj & Herr & Hb) Hr H1 H2. nia. Qed.

Lemma on_walk_y (i j err : Z) :
  on_walk dx dy i j err -> j < dy -> ~ 2 * err > - dy -> 2 * err < dx ->
  on_walk dx dy i (j + 1) (err + dx).
Proof. unfold on_walk. intros (Hi & Hj & Herr & Hb) Hr H1 H2. nia. Qed.

Lemma on_walk_xy (i j err : Z) :
  on_walk dx dy i j err -> i < dx -> j < dy ->
  2 * err > - dy -> 2 * err < dx ->
  on_walk dx dy (i + 1) (j + 1) (err - dy + dx).
Proof. unfold on_walk. intros (Hi & Hj & Herr & Hb) Hr Hr' H1 H2. nia. Qed.

(** The walk reaches [(dx, dy)]: with more fuel than the steps that
    remain it returns its points, at most one per remaining step plus
    one, all inside the box, the first being the start and the last the
    target. *)
Lemma bresenham_total (fuel : nat) (i j err : Z) :
  on_walk dx dy i j err ->
  (Z.to_nat ((dx - i) + (dy - j)) < fuel)%nat ->
  exists pts,
    bresenham fuel dx dy i j err = Done pts
    /\ Z.of_nat (length pts) <= (dx - i) + (dy - j) + 1
    /\ Forall (fun p => 0 <= fst p <= dx /\ 0 <= snd p <= dy) pts
    /\ head pts = Some (i, j)
    /\ last pts = Some (dx, dy).
Proof.
  revert i j err. induction fuel as [|fuel IH]; intros i j err Hw Hfuel; [lia|].
  simpl. destruct ((i =? dx) && (j =? dy)) eqn:Hend.
  - apply andb_prop in Hend as [->%Z.eqb_eq ->%Z.eqb_eq].
    exists [(dx, dy)]. simpl.
    destruct Hw as (Hi & Hj & _).
    repeat split; try reflexivity; try lia.
    constructor; [simpl; lia|constructor].
  - pose proof (x_step_room i j err Hw Hend) as Rx.
    pose proof (y_step_room i j err Hw Hend) as Ry.
    pose proof (step_progress i j err Hw Hend) as Pr.
    pose proof Hw as (Hi & Hj & _).
    destruct (2 * err >? - dy) eqn:C1; destruct (2 * err <? dx) eqn:C2;
      try apply Z.gtb_lt in C1; try apply Z.ltb_lt in C2;
      try (apply Z.ltb_ge in C2); try (rewrite Z.gtb_ltb in C1; apply Z.ltb_ge in C1).
    + destruct (IH (i + 1) (j + 1) (err - dy + dx)) as (pts & -> & Hl & Hf & Hh & Hla);
        [apply on_walk_xy; auto; lia|lia|].
      exists ((i, j) :: pts). simpl.
      repeat split; try lia; try reflexivity.
      * constructor; [simpl; lia|exact Hf].
      * destruct pts; [discriminate Hh|exact Hla].
    + destruct (IH (i + 1) j (err - dy)) as (pts & -> & Hl & Hf & Hh & Hla);
        [apply on_walk_x; auto; lia|lia|].
      exists ((i, j) :: pts). simpl.
      repeat split; try lia; try reflexivity.
      * constructor; [simpl; lia|exact Hf].
      * destruct pts; [discriminate Hh|exact Hla].
    + destruct (IH i (j + 1) (err + dx)) as (pts & -> & Hl & Hf & Hh & Hla);
        [apply on_walk_y; auto; lia|lia|].
      exists ((i, j) :: pts). simpl.
      repeat split; try lia; try reflexivity.
      * constructor; [simpl; lia|exact Hf].
      * destruct pts; [discriminate Hh|exact Hla].
    + lia.
Qed.

(** The walk advances by at most one along each axis per step, so it
    visits every column and every row between its position and the
    target. *)
Lemma bresenham_covers_x (fuel : nat) (i j err : Z) (pts : list (Z * Z)) :
  on_walk dx dy i j err ->
  bresenham fuel dx dy i j err = Done pts ->
  forall k, i <= k <= dx -> exists l, In (k, l) pts.
Proof.
  revert i j err pts. induction fuel as [|fuel IH]; intros i j err pts Hw Hrun k Hk;
    [discriminate Hrun|].
  simpl in Hrun. destruct ((i =? dx) && (j =? dy)) eqn:Hend.
  - injection Hrun as <-. apply andb_prop in Hend as [->%Z.eqb_eq _].
    exists j. left. f_equal. lia.
  - pose proof (x_step_room i j err Hw Hend) as Rx.
    pose proof (y_step_room i j err Hw Hend) as Ry.
    destruct (Z.eq_dec k i) as [->|Hne].
    { destruct (2 * err >? - dy); destruct (2 * err <? dx);
        cbv beta iota zeta in Hrun;
        match type of Hrun with
        | context [bresenham ?a ?b ?c ?d ?e ?f] =>
            destruct (bresenham a b c d e f); try discriminate Hrun
        end; injection Hrun as <-; exists j; now left. }
    destruct (2 * err >? - dy) eqn:C1; destruct (2 * err <? dx) eqn:C2;
      try apply Z.gtb_lt in C1; try apply Z.ltb_lt in C2;
      try (apply Z.ltb_ge in C2); try (rewrite Z.gtb_ltb in C1; apply Z.ltb_ge in C1);
      cbv beta iota zeta in Hrun;
      match type of Hrun with
      | context [bresenham ?a ?b ?c ?d ?e ?f] =>
          destruct (bresenham a b c d e f) as [ps| |] eqn:Hrec; try discriminate Hrun
      end; injection Hrun as <-.
    + destruct (IH _ _ _ _ (on_walk_xy i j err Hw ltac:(lia) ltac:(lia) ltac:(lia) ltac:(lia))
                  Hrec k ltac:(lia)) as [l Hl].
      exists l. now right.
    + destruct (IH _ _ _ _ (on_walk_x i j err Hw ltac:(lia) ltac:(lia) ltac:(lia))
                  Hrec k ltac:(lia)) as [l Hl].
      exists l. now right.
    + destruct (IH _ _ _ _ (on_walk_y i j err Hw ltac:(lia) ltac:(lia) ltac:(lia))
                  Hrec k ltac:(lia)) as [l Hl].
      exists l. now right.
    + pose proof (step_progress i j err Hw Hend). lia.
Qed.

Lemma bresenham_covers_y (fuel : nat) (i j err : Z) (pts : list (Z * Z)) :
  on_walk dx dy i j err ->
  bresenham fuel dx dy i j err = Done pts ->
  forall l, j <= l <= dy -> exists k, In (k, l) pts.
Proof.
  revert i j err pts. induction fuel as [|fuel IH]; intros i j err pts Hw Hrun l Hl;
    [discriminate Hrun|].
  simpl in Hrun. destruct ((i =? dx) && (j =? dy)) eqn:Hend.
  - injection Hrun as <-. apply andb_prop in Hend as [_ ->%Z.eqb_eq].
    exists i. left. f_equal. lia.
  - pose proof (x_step_room i j err Hw Hend) as Rx.
    pose proof (y_step_room i j err Hw Hend) as Ry.
    destruct (Z.eq_dec l j) as [->|Hne].
    { destruct (2 * err >? - dy); destruct (2 * err <? dx);
        cbv beta iota zeta in Hrun;
        match type of Hrun with
        | context [bresenham ?a ?b ?c ?d ?e ?f] =>
            destruct (bresenham a b c d e f); try discriminate Hrun
        end; injection Hrun as <-; exists i; now left. }
    destruct (2 * err >? - dy) eqn:C1; destruct (2 * err <? dx) eqn:C2;
      try apply Z.gtb_lt in C1; try apply Z.ltb_lt in C2;
      try (apply Z.ltb_ge in C2); try (rewrite Z.gtb_ltb in C1; apply Z.ltb_ge in C1);
      cbv beta iota zeta in Hrun;
      match type of Hrun with
      | context [bresenham ?a ?b ?c ?d ?e ?f] =>
          destruct (bresenham a b c d e f) as [ps| |] eqn:Hrec; try discriminate Hrun
      end; injection Hrun as <-.
    + destruct (IH _ _ _ _ (on_walk_xy i j err Hw ltac:(lia) ltac:(lia) ltac:(lia) ltac:(lia))
                  Hrec l ltac:(lia)) as [k Hk].
      exists k. now right.
    + destruct (IH _ _ _ _ (on_walk_x i j err Hw ltac:(lia) ltac:(lia) ltac:(lia))
                  Hrec l ltac:(lia)) as [k Hk].
      exists k. now right.
    + destruct (IH _ _ _ _ (on_walk_y i j err Hw ltac:(lia) ltac:(lia) ltac:(lia))
                  Hrec l ltac:(lia)) as [k Hk].
      exists k. now right.
    + pose proof (step_progress i j err Hw Hend). lia.
Qed.

(** On a diagonal ([dx = dy]) the error term stays at zero and both
    coordinates step together. *)
Lemma bresenham_diagonal (fuel : nat) (i : Z) (pts : list (Z * Z)) :
  dx = dy -> on_walk dx dy i i 0 ->
  bresenham fuel dx dy i i 0 = Done pts ->
  Forall (fun p => fst p = snd p) pts.
Proof.
  intros Hd. revert i pts. induction fuel as [|fuel IH]; intros i pts Hw Hrun;
    [discriminate Hrun|].
  simpl in Hrun. destruct ((i =? dx) && (i =? dy)) eqn:Hend.
  - injection Hrun as <-. constructor; [reflexivity|constructor].
  - pose proof (x_step_room i i 0 Hw Hend) as Rx.
    pose proof (y_step_room i i 0 Hw Hend) as Ry.
    pose proof Hw as (Hi & _).
    assert (Hlt : i < dx).
    { destruct (Z.eq_dec i dx) as [->|]; [|lia].
      rewrite <- Hd in Hend. rewrite Z.eqb_refl in Hend. discriminate Hend. }
    change (2 * 0) with 0 in Hrun.
    destruct (0 >? - dy) eqn:C1; [|rewrite Z.gtb_ltb in C1; apply Z.ltb_ge in C1; lia].
    destruct (0 <? dx) eqn:C2; [|apply Z.ltb_ge in C2; lia].
    cbv beta iota zeta in Hrun.
    replace (0 - dy + dx) with 0 in Hrun by lia.
    destruct (bresenham fuel dx dy (i + 1) (i + 1) 0) as [ps| |] eqn:Hrec;
      try discriminate Hrun.
    injection Hrun as <-. constructor; [reflexivity|].
    apply (IH (i + 1) ps); [|exact Hrec].
    unfold on_walk in *. lia.
Qed.

(** Horizontal, vertical and diagonal walks visit a set of positions
    that is its own image under [(i, j) |-> (dx - i, dy - j)]. *)
Lemma bresenham_symmetric (fuel : nat) (steps : list (Z * Z)) :
  0 <= dx -> 0 <= dy -> dx = 0 \/ dy = 0 \/ dx = dy ->
  bresenham fuel dx dy 0 0 (dx - dy) = Done steps ->
  Forall (fun p => 0 <= fst p <= dx /\ 0 <= snd p <= dy) steps ->
  forall i j, In (i, j) steps -> In (dx - i, dy - j) steps.
Proof.
  intros Hx Hy Hcase Hrun Hbox i j Hin.
  pose proof (on_walk_start Hx Hy) as Hw.
  rewrite Forall_forall in Hbox.
  destruct (Hbox (i, j)) as [Hi Hj]; [now apply list_elem_of_In|].
  simpl in Hi, Hj.
  destruct Hcase as [Hz|[Hz|Hd]].
  - destruct (bresenham_covers_y fuel 0 0 _ steps Hw Hrun (dy - j)) as [k Hk]; [lia|].
    destruct (Hbox (k, dy - j)) as [Hk' _]; [now apply list_elem_of_In|].
    simpl in Hk'. replace (dx - i) with k by lia. exact Hk.
  - destruct (bresenham_covers_x fuel 0 0 _ steps Hw Hrun (dx - i)) as [l Hl]; [lia|].
    destruct (Hbox (dx - i, l)) as [_ Hl']; [now apply list_elem_of_In|].
    simpl in Hl'. replace (dy - j) with l by lia. exact Hl.
  - replace (dx - dy) with 0 in Hrun, Hw by lia.
    pose proof (bresenham_diagonal fuel 0 steps Hd Hw Hrun) as Hdiag.
    rewrite Forall_forall in Hdiag.
    pose proof (Hdiag (i, j) ltac:(now apply list_elem_of_In)) as Hij. simpl in Hij.
    destruct (bresenham_covers_x fuel 0 0 _ steps Hw Hrun (dx - i)) as [l Hl]; [lia|].
    pose proof (Hdiag (dx - i, l) ltac:(now apply list_elem_of_In)) as Hl'.
    simpl in Hl'. replace (dy - j) with l by lia. exact Hl.
Qed.

End Walk.

(** *** The loop of [DrawLineColor] follows the walk *)

Section Loop.

Variable r : fast8_rank.
Variables x1 y1 x2 y2 dx dy sx sy : Z.

Hypothesis x1_coord : plain_coord r x1.
Hypothesis y1_coord : plain_coord r y1.
Hypothesis x2_coord : plain_coord r x2.
Hypothesis y2_coord : plain_coord r y2.
Hypothesis sx_unit : sx = 1 \/ sx = -1.
Hypothesis sy_unit : sy = 1 \/ sy = -1.
Hypothesis dx_nonneg : 0 <= dx.
Hypothesis dy_nonneg : 0 <= dy.
Hypothesis x2_reached : x2 = x1 + sx * dx.
Hypothesis y2_reached : y2 = y1 + sy * dy.

Lemma dx_small : dx < 2 ^ 29.
Proof. destruct x1_coord, x2_coord. nia. Qed.

Lemma dy_small : dy < 2 ^ 29.
Proof. destruct y1_coord, y2_coord. nia. Qed.

Lemma at_end_iff (i j : Z) :
  (x1 + sx * i =? x2) && (y1 + sy * j =? y2) = (i =? dx) && (j =? dy).
Proof.
  f_equal; apply Bool.eq_true_iff_eq; rewrite !Z.eqb_eq; nia.
Qed.

Lemma x_in_box (i : Z) : 0 <= i <= dx -> plain_coord r (x1 + sx * i).
Proof. intros Hi. destruct x1_coord, x2_coord. unfold plain_coord. nia. Qed.

Lemma y_in_box (j : Z) : 0 <= j <= dy -> plain_coord r (y1 + sy * j).
Proof. intros Hj. destruct y1_coord, y2_coord. unfold plain_coord. nia. Qed.

(** In the range of [plain_coord] no conversion changes a value, and the
    loop visits the points of the walk. *)
Lemma line_points_loop_walk (fuel : nat) (i j err : Z) (pts : list (Z * Z)) :
  on_walk dx dy i j err ->
  bresenham fuel dx dy i j err = Done pts ->
  line_points_loop r fuel x2 y2 dx dy sx sy (x1 + sx * i) (y1 + sy * j) err
  = Done (map (place x1 y1 sx sy) pts).
Proof.
  pose proof dx_small as Hdx. pose proof dy_small as Hdy.
  revert i j err pts. induction fuel as [|fuel IH]; intros i j err pts Hw Hrun;
    [discriminate Hrun|].
  simpl in Hrun |- *. rewrite at_end_iff.
  destruct ((i =? dx) && (j =? dy)) eqn:Hend.
  - injection Hrun as <-. reflexivity.
  - pose proof (x_step_room dx dy i j err Hw Hend) as Rx.
    pose proof (y_step_room dx dy i j err Hw Hend) as Ry.
    pose proof Hw as (Hi & Hj & _ & Hband).
    rewrite (to_int_small (2 * err)) by lia.
    rewrite (to_int_small (- dy)) by lia.
    destruct (2 * err >? - dy) eqn:C1; destruct (2 * err <? dx) eqn:C2;
      try apply Z.gtb_lt in C1; try apply Z.ltb_lt in C2;
      try (apply Z.ltb_ge in C2); try (rewrite Z.gtb_ltb in C1; apply Z.ltb_ge in C1).
    + destruct (bresenham fuel dx dy (i + 1) (j + 1) (err - dy + dx)) as [ps| |] eqn:Hrec;
        try discriminate Hrun.
      injection Hrun as <-.
      rewrite (to_int_small (err - dy)) by lia.
      rewrite (to_int_small (err - dy + dx)) by lia.
      destruct (x_in_box (i + 1)) as [? _]; [lia|].
      destruct (y_in_box (j + 1)) as [? _]; [lia|].
      replace (fast r (x1 + sx * i + sx)) with (x1 + sx * (i + 1))
        by (rewrite fast_small; lia).
      replace (fast r (y1 + sy * j + sy)) with (y1 + sy * (j + 1))
        by (rewrite fast_small; lia).
      rewrite (IH _ _ _ ps); [reflexivity| |exact Hrec].
      apply on_walk_xy; auto; lia.
    + destruct (bresenham fuel dx dy (i + 1) j (err - dy)) as [ps| |] eqn:Hrec;
        try discriminate Hrun.
      injection Hrun as <-.
      rewrite (to_int_small (err - dy)) by lia.
      destruct (x_in_box (i + 1)) as [? _]; [lia|].
      replace (fast r (x1 + sx * i + sx)) with (x1 + sx * (i + 1))
        by (rewrite fast_small; lia).
      rewrite (IH _ _ _ ps); [reflexivity| |exact Hrec].
      apply on_walk_x; auto; lia.
    + destruct (bresenham fuel dx dy i (j + 1) (err + dx)) as [ps| |] eqn:Hrec;
        try discriminate Hrun.
      injection Hrun as <-.
      rewrite (to_int_small (err + dx)) by lia.
      destruct (y_in_box (j + 1)) as [? _]; [lia|].
      replace (fast r (y1 + sy * j + sy)) with (y1 + sy * (j + 1))
        by (rewrite fast_small; lia).
      rewrite (IH _ _ _ ps); [reflexivity| |exact Hrec].
      apply on_walk_y; auto; lia.
    + pose proof (step_progress dx dy i j err Hw Hend). lia.
Qed.

End Loop.

(** *** [DrawLineColor] *)

Section Line.

Variables width height : Z.
Variable r : fast8_rank.

Lemma plain_coord_int (z : Z) : plain_coord r z -> to_int z = z.
Proof. intros [H0 H1]. apply to_int_small. lia. Qed.

(** Where [uint_fast8_t] is narrower than [int], every value of the type
    is a plain coordinate; so is, at every width, every coordinate on a
    panel of fewer than [2^29] columns and rows. *)
Lemma plain_coord_narrow (z : Z) :
  promotes r = true -> 0 <= z < 2 ^ fast_bits r -> plain_coord r z.
Proof.
  intros Hp Hz. unfold plain_coord. split; [exact Hz|].
  destruct r; try discriminate Hp; simpl in Hz; lia.
Qed.

Lemma plain_coord_on_panel (x y : Z) :
  width < 2 ^ fast_bits r -> height < 2 ^ fast_bits r ->
  width < 2 ^ 29 -> height < 2 ^ 29 ->
  on_panel width height x y -> plain_coord r x /\ plain_coord r y.
Proof.
  intros Hw Hh Hw' Hh' [Hx Hy]. unfold plain_coord. lia.
Qed.

(** The framebuffer after the loop is the framebuffer after plotting
    the points of [line_points_loop], in order. *)
Lemma DrawLineColor_loop_plots (fuel : nat) (x2 y2 dx dy sx sy color : Z)
    (x1 y1 err : Z) (buf : list Z) :
  well_sized width height buf -> 0 <= x1 -> 0 <= y1 ->
  DrawLineColor_loop width height r fuel x2 y2 dx dy sx sy color x1 y1 err buf
  = pts ← line_points_loop r fuel x2 y2 dx dy sx sy x1 y1 err;
    Done (plot_all width height color pts buf).
Proof.
  revert x1 y1 err buf.
  induction fuel as [|fuel IH]; intros x1 y1 err buf Hb Hx Hy; [reflexivity|].
  simpl. rewrite DrawPixelColor_Done by assumption. simpl.
  pose proof (set_pixel_well_sized width height color buf (x1, y1) Hb) as Hb1.
  pose proof (fast_range r (x1 + sx)) as [Fx _].
  pose proof (fast_range r (y1 + sy)) as [Fy _].
  destruct ((x1 =? x2) && (y1 =? y2)); [reflexivity|].
  destruct (to_int (2 * err) >? to_int (- dy));
    destruct (to_int (2 * err) <? dx);
    rewrite IH by assumption;
    match goal with
    | |- context [line_points_loop ?a ?b ?c ?d ?e ?f ?g ?h ?i ?j ?k] =>
        destruct (line_points_loop a b c d e f g h i j k)
    end; reflexivity.
Qed.

Lemma DrawLineColor_plots (fuel : nat) (x1 y1 x2 y2 color : Z) (buf : list Z) :
  well_sized width height buf -> 0 <= x1 -> 0 <= y1 ->
  DrawLineColor width height r fuel x1 y1 x2 y2 color buf
  = pts ← line_points r fuel x1 y1 x2 y2;
    Done (plot_all width height color pts buf).
Proof.
  intros Hb Hx Hy. unfold DrawLineColor, line_points.
  now apply DrawLineColor_loop_plots.
Qed.

Lemma line_points_loop_nonneg (fuel : nat) (x2 y2 dx dy sx sy x1 y1 err : Z)
    (pts : list (Z * Z)) :
  0 <= x1 -> 0 <= y1 ->
  line_points_loop r fuel x2 y2 dx dy sx sy x1 y1 err = Done pts ->
  Forall (fun p => 0 <= fst p /\ 0 <= snd p) pts.
Proof.
  revert x1 y1 err pts.
  induction fuel as [|fuel IH]; intros x1 y1 err pts Hx Hy Hrun;
    [discriminate Hrun|].
  simpl in Hrun.
  pose proof (fast_range r (x1 + sx)) as [Fx _].
  pose proof (fast_range r (y1 + sy)) as [Fy _].
  destruct ((x1 =? x2) && (y1 =? y2)).
  - injection Hrun as <-. constructor; [simpl; lia|constructor].
  - destruct (to_int (2 * err) >? to_int (- dy));
      destruct (to_int (2 * err) <? dx);
      cbv beta iota zeta in Hrun;
      match type of Hrun with
      | context [line_points_loop ?a ?b ?c ?d ?e ?f ?g ?h ?i ?j ?k] =>
          destruct (line_points_loop a b c d e f g h i j k) as [ps| |] eqn:Hrec
      end; try discriminate Hrun;
      injection Hrun as <-;
      (constructor; [simpl; lia|]);
      (eapply IH in Hrec; [exact Hrec| | ]).
    all: assumption.
Qed.

Lemma line_points_nonneg (fuel : nat) (x1 y1 x2 y2 : Z) (pts : list (Z * Z)) :
  0 <= x1 -> 0 <= y1 ->
  line_points r fuel x1 y1 x2 y2 = Done pts ->
  Forall (fun p => 0 <= fst p /\ 0 <= snd p) pts.
Proof. unfold line_points. apply line_points_loop_nonneg. Qed.

(** For plain coordinates the points of the line are the points of the
    walk over [|x2-x1|] and [|y2-y1|], placed from [(x1, y1)] in the
    direction of [(x2, y2)]. *)
Lemma line_points_walk (fuel : nat) (x1 y1 x2 y2 : Z) (steps : list (Z * Z)) :
  plain_coord r x1 -> plain_coord r y1 ->
  plain_coord r x2 -> plain_coord r y2 ->
  bresenham fuel (Z.abs (x2 - x1)) (Z.abs (y2 - y1)) 0 0
    (Z.abs (x2 - x1) - Z.abs (y2 - y1)) = Done steps ->
  line_points r fuel x1 y1 x2 y2
  = Done (map (place x1 y1 (if x1 <? x2 then 1 else -1)
                           (if y1 <? y2 then 1 else -1)) steps).
Proof.
  intros Hx1 Hy1 Hx2 Hy2 Hrun. unfold line_points.
  rewrite (plain_coord_int x1), (plain_coord_int y1),
    (plain_coord_int x2), (plain_coord_int y2) by assumption.
  pose proof Hx1 as [? ?]. pose proof Hy1 as [? ?].
  pose proof Hx2 as [? ?]. pose proof Hy2 as [? ?].
  rewrite (to_int_small (x2 - x1)), (to_int_small (y2 - y1)) by lia.
  rewrite (to_int_small (Z.abs (x2 - x1))), (to_int_small (Z.abs (y2 - y1))) by lia.
  rewrite (to_int_small (Z.abs (x2 - x1) - Z.abs (y2 - y1))) by lia.
  set (sx := if x1 <? x2 then 1 else -1).
  set (sy := if y1 <? y2 then 1 else -1).
  assert (Hsx : (sx = 1 \/ sx = -1) /\ x2 = x1 + sx * Z.abs (x2 - x1))
    by (subst sx; destruct (x1 <? x2) eqn:E;
        [apply Z.ltb_lt in E|apply Z.ltb_ge in E]; lia).
  assert (Hsy : (sy = 1 \/ sy = -1) /\ y2 = y1 + sy * Z.abs (y2 - y1))
    by (subst sy; destruct (y1 <? y2) eqn:E;
        [apply Z.ltb_lt in E|apply Z.ltb_ge in E]; lia).
  destruct Hsx as [Usx Rx]. destruct Hsy as [Usy Ry].
  pose proof (line_points_loop_walk r x1 y1 x2 y2
                (Z.abs (x2 - x1)) (Z.abs (y2 - y1)) sx sy
                Hx1 Hy1 Hx2 Hy2 Usx Usy (Z.abs_nonneg _) (Z.abs_nonneg _) Rx Ry
                fuel 0 0 _ steps
                (on_walk_start _ _ (Z.abs_nonneg _) (Z.abs_nonneg _)) Hrun) as Hl.
  rewrite !Z.mul_0_r, !Z.add_0_r in Hl. exact Hl.
Qed.

End Line.

Lemma head_map_place (x1 y1 sx sy : Z) (steps : list (Z * Z)) (p : Z * Z) :
  head steps = Some p ->
  head (map (place x1 y1 sx sy) steps) = Some (place x1 y1 sx sy p).
Proof. destruct steps as [|q steps]; simpl; [discriminate|]. now intros [= ->]. Qed.

Lemma last_map_place (x1 y1 sx sy : Z) (steps : list (Z * Z)) (p : Z * Z) :
  last steps = Some p ->
  last (map (place x1 y1 sx sy) steps) = Some (place x1 y1 sx sy p).
Proof.
  induction steps as [|q steps IH]; [discriminate|].
  destruct steps as [|q' steps].
  - simpl. now intros [= ->].
  - intros H. apply IH in H. exact H.
Qed.

Lemma well_sized_blank (width height : Z) :
  0 <= width -> 0 <= height -> well_sized width height (blank width height).
Proof.
  intros Hw Hh. unfold well_sized, blank.
  rewrite length_replicate. apply Z2Nat.id. unfold sizeof_buffer. nia.
Qed.

Section LineProperties.

Variables width height : Z.
Variable r : fast8_rank.

(** The line between two plain endpoints: the loop ends, having made
    at most [dx + dy + 1] plots, the first at [(x1, y1)] and the last at
    [(x2, y2)]; the framebuffer returned is the one obtained by plotting
    these points in order. *)
Lemma DrawLineColor_total (fuel : nat) (x1 y1 x2 y2 color : Z) (buf : list Z) :
  well_sized width height buf ->
  plain_coord r x1 -> plain_coord r y1 ->
  plain_coord r x2 -> plain_coord r y2 ->
  (Z.to_nat (Z.abs (x2 - x1) + Z.abs (y2 - y1)) < fuel)%nat ->
  exists steps,
    bresenham fuel (Z.abs (x2 - x1)) (Z.abs (y2 - y1)) 0 0
      (Z.abs (x2 - x1) - Z.abs (y2 - y1)) = Done steps
    /\ Forall (fun p => 0 <= fst p <= Z.abs (x2 - x1)
                        /\ 0 <= snd p <= Z.abs (y2 - y1)) steps
    /\ Z.of_nat (length steps) <= Z.abs (x2 - x1) + Z.abs (y2 - y1) + 1
    /\ head steps = Some (0, 0)
    /\ last steps = Some (Z.abs (x2 - x1), Z.abs (y2 - y1))
    /\ line_points r fuel x1 y1 x2 y2
       = Done (map (place x1 y1 (if x1 <? x2 then 1 else -1)
                                (if y1 <? y2 then 1 else -1)) steps)
    /\ DrawLineColor width height r fuel x1 y1 x2 y2 color buf
       = Done (plot_all width height color
                 (map (place x1 y1 (if x1 <? x2 then 1 else -1)
                                   (if y1 <? y2 then 1 else -1)) steps) buf).
Proof.
  intros Hb Hx1 Hy1 Hx2 Hy2 Hfuel.
  destruct (bresenham_total (Z.abs (x2 - x1)) (Z.abs (y2 - y1)) fuel 0 0
              (Z.abs (x2 - x1) - Z.abs (y2 - y1)))
    as (steps & Hrun & Hlen & Hbox & Hhead & Hlast);
    [apply on_walk_start; apply Z.abs_nonneg|lia|].
  exists steps.
  pose proof (line_points_walk r fuel x1 y1 x2 y2 steps Hx1 Hy1 Hx2 Hy2 Hrun) as Hl.
  repeat split; try assumption; try lia.
  rewrite DrawLineColor_plots; [|exact Hb|destruct Hx1; lia|destruct Hy1; lia].
  rewrite Hl. reflexivity.
Qed.

(** C10, amended.  For endpoints whose coordinates are below [2^29]
    (every value of an 8- or 16-bit [uint_fast8_t], and every coordinate
    on a panel), [DrawLineColor] terminates: with fuel for
    [dx + dy + 1] iterations the loop returns, it has made at most
    [dx + dy + 1] plots, and its last plot is at [(x2, y2)]. *)
Theorem DrawLineColor_terminates
    (fuel : nat) (x1 y1 x2 y2 color : Z) (buf : list Z) :
  well_sized width height buf ->
  plain_coord r x1 -> plain_coord r y1 ->
  plain_coord r x2 -> plain_coord r y2 ->
  (Z.to_nat (Z.abs (x2 - x1) + Z.abs (y2 - y1)) < fuel)%nat ->
  exists pts,
    line_points r fuel x1 y1 x2 y2 = Done pts
    /\ DrawLineColor width height r fuel x1 y1 x2 y2 color buf
       = Done (plot_all width height color pts buf)
    /\ Z.of_nat (length pts) <= Z.abs (x2 - x1) + Z.abs (y2 - y1) + 1
    /\ head pts = Some (x1, y1)
    /\ last pts = Some (x2, y2).
Proof.
  intros Hb Hx1 Hy1 Hx2 Hy2 Hfuel.
  destruct (DrawLineColor_total fuel x1 y1 x2 y2 color buf)
    as (steps & _ & _ & Hlen & Hhead & Hlast & Hpts & Hdraw); try assumption.
  eexists. split; [exact Hpts|]. split; [exact Hdraw|].
  rewrite length_map. split; [exact Hlen|].
  split.
  - rewrite (head_map_place _ _ _ _ _ _ Hhead). unfold place. simpl.
    f_equal. f_equal; lia.
  - rewrite (last_map_place _ _ _ _ _ _ Hlast). unfold place. simpl.
    f_equal. f_equal.
    + destruct (x1 <? x2) eqn:E; [apply Z.ltb_lt in E|apply Z.ltb_ge in E]; lia.
    + destruct (y1 <? y2) eqn:E; [apply Z.ltb_lt in E|apply Z.ltb_ge in E]; lia.
Qed.

(** C1, amended.  For plain endpoints, drawing from [(x2, y2)] to
    [(x1, y1)] plots the images, under the point reflection through the
    midpoint [(x, y) |-> (x1+x2-x, y1+y2-y)], of the points plotted when
    drawing from [(x1, y1)] to [(x2, y2)], in the same order; both calls
    plot the same number of points and both plot the two endpoints.  When
    the segment is horizontal, vertical or diagonal the two calls plot
    the same set of points and leave the same colour in every pixel of
    the panel. *)
Theorem DrawLineColor_reflection
    (fuel : nat) (x1 y1 x2 y2 color : Z) (buf : list Z) :
  well_sized width height buf -> 0 <= color < 65536 ->
  plain_coord r x1 -> plain_coord r y1 ->
  plain_coord r x2 -> plain_coord r y2 ->
  (Z.to_nat (Z.abs (x2 - x1) + Z.abs (y2 - y1)) < fuel)%nat ->
  exists pts,
    line_points r fuel x1 y1 x2 y2 = Done pts
    /\ line_points r fuel x2 y2 x1 y1 = Done (map (reflect x1 y1 x2 y2) pts)
    /\ DrawLineColor width height r fuel x1 y1 x2 y2 color buf
       = Done (plot_all width height color pts buf)
    /\ DrawLineColor width height r fuel x2 y2 x1 y1 color buf
       = Done (plot_all width height color (map (reflect x1 y1 x2 y2) pts) buf)
    /\ head pts = Some (x1, y1) /\ last pts = Some (x2, y2)
    /\ head (map (reflect x1 y1 x2 y2) pts) = Some (x2, y2)
    /\ last (map (reflect x1 y1 x2 y2) pts) = Some (x1, y1)
    /\ (x1 = x2 \/ y1 = y2 \/ Z.abs (x2 - x1) = Z.abs (y2 - y1) ->
          (forall p, In p pts <-> In p (map (reflect x1 y1 x2 y2) pts))
          /\ (forall x y, on_panel width height x y ->
                read_pixel width (plot_all width height color pts buf) x y
                = read_pixel width
                    (plot_all width height color
                       (map (reflect x1 y1 x2 y2) pts) buf) x y)).
Proof.
  intros Hb Hc Hx1 Hy1 Hx2 Hy2 Hfuel.
  destruct (DrawLineColor_total fuel x1 y1 x2 y2 color buf)
    as (steps & Hrun & Hbox & _ & Hhead & Hlast & Hpts & Hdraw); try assumption.
  destruct (DrawLineColor_total fuel x2 y2 x1 y1 color buf)
    as (steps' & Hrun' & _ & _ & _ & _ & Hpts' & Hdraw'); try assumption.
  { replace (Z.abs (x1 - x2)) with (Z.abs (x2 - x1)) by lia.
    replace (Z.abs (y1 - y2)) with (Z.abs (y2 - y1)) by lia. exact Hfuel. }
  replace (Z.abs (x1 - x2)) with (Z.abs (x2 - x1)) in Hrun' by lia.
  replace (Z.abs (y1 - y2)) with (Z.abs (y2 - y1)) in Hrun' by lia.
  rewrite Hrun in Hrun'. injection Hrun' as <-.
  set (sx := if x1 <? x2 then 1 else -1) in *.
  set (sy := if y1 <? y2 then 1 else -1) in *.
  set (dx := Z.abs (x2 - x1)) in *.
  set (dy := Z.abs (y2 - y1)) in *.
  assert (Hsx : x2 = x1 + sx * dx)
    by (subst sx dx; destruct (x1 <? x2) eqn:E;
        [apply Z.ltb_lt in E|apply Z.ltb_ge in E]; lia).
  assert (Hsy : y2 = y1 + sy * dy)
    by (subst sy dy; destruct (y1 <? y2) eqn:E;
        [apply Z.ltb_lt in E|apply Z.ltb_ge in E]; lia).
  (* the reflected point of a step is the point of the opposite step *)
  assert (Hflip : forall i j,
             reflect x1 y1 x2 y2 (place x1 y1 sx sy (i, j))
             = place x1 y1 sx sy (dx - i, dy - j)).
  { intros i j. unfold reflect, place. simpl. f_equal; nia. }
  assert (Hmap : map (place x2 y2 (if x2 <? x1 then 1 else -1)
                                  (if y2 <? y1 then 1 else -1)) steps
                 = map (reflect x1 y1 x2 y2) (map (place x1 y1 sx sy) steps)).
  { rewrite map_map. apply map_ext_in. intros [i j] Hin.
    rewrite Forall_forall in Hbox.
    destruct (Hbox (i, j)) as [Hi Hj]; [now apply list_elem_of_In|].
    simpl in Hi, Hj. unfold reflect, place. simpl.
    f_equal.
    - subst sx dx. destruct (x1 <? x2) eqn:E1; destruct (x2 <? x1) eqn:E2;
        try apply Z.ltb_lt in E1; try apply Z.ltb_lt in E2;
        try apply Z.ltb_ge in E1; try apply Z.ltb_ge in E2; lia.
    - subst sy dy. destruct (y1 <? y2) eqn:E1; destruct (y2 <? y1) eqn:E2;
        try apply Z.ltb_lt in E1; try apply Z.ltb_lt in E2;
        try apply Z.ltb_ge in E1; try apply Z.ltb_ge in E2; lia. }
  rewrite Hmap in Hpts', Hdraw'.
  set (pts := map (place x1 y1 sx sy) steps) in *.
  assert (Hh : head pts = Some (x1, y1)).
  { subst pts. rewrite (head_map_place _ _ _ _ _ _ Hhead). unfold place. simpl.
    f_equal. f_equal; lia. }
  assert (Hl : last pts = Some (x2, y2)).
  { subst pts. rewrite (last_map_place _ _ _ _ _ _ Hlast). unfold place. simpl.
    f_equal. f_equal; lia. }
  assert (Hnn : Forall (fun p : Z * Z => 0 <= fst p /\ 0 <= snd p) pts).
  { apply (line_points_nonneg r fuel x1 y1 x2 y2);
      [destruct Hx1; lia|destruct Hy1; lia|exact Hpts]. }
  assert (Hnn' : Forall (fun p : Z * Z => 0 <= fst p /\ 0 <= snd p)
                   (map (reflect x1 y1 x2 y2) pts)).
  { apply (line_points_nonneg r fuel x2 y2 x1 y1);
      [destruct Hx2; lia|destruct Hy2; lia|exact Hpts']. }
  exists pts.
  split; [exact Hpts|]. split; [exact Hpts'|].
  split; [exact Hdraw|]. split; [exact Hdraw'|].
  split; [exact Hh|]. split; [exact Hl|].
  split.
  { destruct pts as [|p pts']; [discriminate Hh|].
    simpl in Hh |- *. injection Hh as ->. unfold reflect. simpl.
    f_equal. f_equal; lia. }
  split.
  { clear - Hl. induction pts as [|p pts' IH]; [discriminate Hl|].
    destruct pts' as [|q pts''].
    + simpl in Hl |- *. injection Hl as ->. unfold reflect. simpl.
      f_equal. f_equal; lia.
    + apply IH in Hl. exact Hl. }
  intros Hcase.
  assert (Hsym : forall i j, In (i, j) steps -> In (dx - i, dy - j) steps).
  { apply (bresenham_symmetric dx dy fuel steps);
      [subst dx; lia|subst dy; lia|subst dx dy; lia|exact Hrun|exact Hbox]. }
  assert (Hset : forall p, In p pts <-> In p (map (reflect x1 y1 x2 y2) pts)).
  { intros p. split.
    - intros Hin. subst pts. apply in_map_iff in Hin as ([i j] & <- & Hin).
      apply in_map_iff. exists (place x1 y1 sx sy (dx - i, dy - j)). split.
      + rewrite Hflip. f_equal. f_equal; lia.
      + apply in_map. now apply Hsym.
    - intros Hin. apply in_map_iff in Hin as (q & <- & Hin).
      subst pts. apply in_map_iff in Hin as ([i j] & <- & Hin).
      rewrite Hflip. apply in_map. now apply Hsym. }
  split; [exact Hset|].
  intros x y Hp.
  destruct (in_dec (fun a b : Z * Z => decide (a = b)) (x, y) pts) as [Hin|Hnin].
  - rewrite (read_pixel_plot_all_in width height color pts buf x y) by assumption.
    symmetry. apply read_pixel_plot_all_in with (height := height); try assumption.
    now apply Hset.
  - rewrite (read_pixel_plot_all_out width height color pts buf x y) by assumption.
    symmetry. apply read_pixel_plot_all_out with (height := height); try assumption.
    intros Hin. apply Hnin. now apply Hset.
Qed.

End LineProperties.

Section LineCases.

Variables width height : Z.
Variable r : fast8_rank.

(** C2.  [DrawLineColor(0, 0, 4, 2, color)] calls [DrawPixelColor] at
    [(0,0)], [(1,0)], [(2,1)], [(3,1)], [(4,2)], in this order, and
    nowhere else; on a panel that holds these five pixels each of them
    then reads as [color], and every other pixel of the panel is as it
    was. *)
Theorem DrawLineColor_golden (fuel : nat) (color : Z) (buf : list Z) :
  well_sized width height buf -> 0 <= color < 65536 ->
  4 < width -> 2 < height -> (5 <= fuel)%nat ->
  line_points r fuel 0 0 4 2 = Done [(0, 0); (1, 0); (2, 1); (3, 1); (4, 2)]
  /\ exists buf',
       DrawLineColor width height r fuel 0 0 4 2 color buf = Done buf'
       /\ (forall x y,
             In (x, y) [(0, 0); (1, 0); (2, 1); (3, 1); (4, 2)] ->
             read_pixel width buf' x y = Some color)
       /\ (forall x y,
             on_panel width height x y ->
             ~ In (x, y) [(0, 0); (1, 0); (2, 1); (3, 1); (4, 2)] ->
             read_pixel width buf' x y = read_pixel width buf x y).
Proof.
  intros Hb Hc Hw Hh Hfuel.
  assert (Hpts : line_points r fuel 0 0 4 2
                 = Done [(0, 0); (1, 0); (2, 1); (3, 1); (4, 2)]).
  { do 5 (destruct fuel as [|fuel]; [lia|]). clear. destruct r; reflexivity. }
  split; [exact Hpts|].
  eexists. split.
  { rewrite DrawLineColor_plots by (assumption || lia). rewrite Hpts. reflexivity. }
  assert (Hpos : Forall (fun p : Z * Z => 0 <= fst p /\ 0 <= snd p)
                   [(0, 0); (1, 0); (2, 1); (3, 1); (4, 2)])
    by (repeat constructor; simpl; lia).
  split.
  - intros x y Hin.
    apply read_pixel_plot_all_in with (height := height); try assumption.
    unfold on_panel. simpl in Hin.
    destruct Hin as [[= <- <-]|[[= <- <-]|[[= <- <-]|[[= <- <-]|[[= <- <-]|[]]]]]];
      lia.
  - intros x y Hp Hnin.
    now apply read_pixel_plot_all_out with (height := height).
Qed.

(** C9, amended.  [DrawLineColor(x, y, x, y, color)] makes exactly one
    plot, at [(x, y)], and does what [DrawPixelColor(x, y, color)] does:
    on the panel the pixel [(x, y)] then reads as [color]; off the panel
    the plot is clipped and the framebuffer is unchanged; every other
    pixel of the panel is as it was. *)
Theorem DrawLineColor_degenerate (fuel : nat) (x y color : Z) (buf : list Z) :
  well_sized width height buf -> 0 <= x -> 0 <= y -> 0 <= color < 65536 ->
  (1 <= fuel)%nat ->
  line_points r fuel x y x y = Done [(x, y)]
  /\ exists buf',
       DrawLineColor width height r fuel x y x y color buf = Done buf'
       /\ DrawPixelColor width height x y color buf = Done buf'
       /\ (on_panel width height x y -> read_pixel width buf' x y = Some color)
       /\ (width <= x \/ height <= y -> buf' = buf)
       /\ (forall x' y',
             on_panel width height x' y' -> (x', y') <> (x, y) ->
             read_pixel width buf' x' y' = read_pixel width buf x' y').
Proof.
  intros Hb Hx Hy Hc Hfuel.
  assert (Hpts : line_points r fuel x y x y = Done [(x, y)]).
  { destruct fuel as [|fuel]; [lia|].
    unfold line_points. cbn [line_points_loop]. now rewrite !Z.eqb_refl. }
  split; [exact Hpts|].
  exists (set_pixel width height color buf (x, y)).
  split.
  { rewrite DrawLineColor_plots by assumption. rewrite Hpts. reflexivity. }
  split; [now apply DrawPixelColor_Done|].
  split; [intros Hp; now apply read_pixel_set_pixel_same|].
  split; [apply set_pixel_clipped|].
  intros x' y' Hp Hne.
  apply read_pixel_set_pixel_other; simpl; try assumption. congruence.
Qed.

End LineCases.

(** *** Concrete lines on the 128x160 panel *)

(** C1, counterexample.  From [(0,0)] to [(2,1)] the line passes through
    [(1,0)]; from [(2,1)] to [(0,0)] it passes through [(1,1)].  After the
    first call the pixel [(1,0)] is painted and [(1,1)] is not; after the
    second it is the other way round. *)
Lemma DrawLineColor_not_symmetric :
  line_points UInt 3 0 0 2 1 = Done [(0, 0); (1, 0); (2, 1)]
  /\ line_points UInt 3 2 1 0 0 = Done [(2, 1); (1, 1); (0, 0)]
  /\ exists b1 b2,
       DrawLineColor 128 160 UInt 3 0 0 2 1 COLOR_WHITE (blank 128 160) = Done b1
       /\ DrawLineColor 128 160 UInt 3 2 1 0 0 COLOR_WHITE (blank 128 160) = Done b2
       /\ read_pixel 128 b1 1 0 = Some COLOR_WHITE
       /\ read_pixel 128 b2 1 0 = Some COLOR_BLACK
       /\ read_pixel 128 b1 1 1 = Some COLOR_BLACK
       /\ read_pixel 128 b2 1 1 = Some COLOR_WHITE
       /\ b1 <> b2.
Proof.
  split; [reflexivity|]. split; [reflexivity|].
  assert (Hb : well_sized 128 160 (blank 128 160)) by (apply well_sized_blank; lia).
  exists (plot_all 128 160 COLOR_WHITE [(0, 0); (1, 0); (2, 1)] (blank 128 160)).
  exists (plot_all 128 160 COLOR_WHITE [(2, 1); (1, 1); (0, 0)] (blank 128 160)).
  split; [rewrite DrawLineColor_plots by (assumption || lia); reflexivity|].
  split; [rewrite DrawLineColor_plots by (assumption || lia); reflexivity|].
  assert (R1 : read_pixel 128 (plot_all 128 160 COLOR_WHITE
                                 [(0, 0); (1, 0); (2, 1)] (blank 128 160)) 1 0
               = Some COLOR_WHITE) by (vm_compute; reflexivity).
  assert (R2 : read_pixel 128 (plot_all 128 160 COLOR_WHITE
                                 [(2, 1); (1, 1); (0, 0)] (blank 128 160)) 1 0
               = Some COLOR_BLACK) by (vm_compute; reflexivity).
  split; [exact R1|]. split; [exact R2|].
  split; [vm_compute; reflexivity|]. split; [vm_compute; reflexivity|].
  intros Heq. rewrite Heq in R1. rewrite R1 in R2. discriminate R2.
Qed.

(** C9, counterexample.  On the 128x160 panel the degenerate line at
    [(200, 0)] paints no pixel: the framebuffer is returned as it was. *)
Lemma DrawLineColor_degenerate_clipped :
  DrawLineColor 128 160 UInt 1 200 0 200 0 COLOR_WHITE (blank 128 160)
  = Done (blank 128 160).
Proof.
  rewrite DrawLineColor_plots by (try apply well_sized_blank; lia).
  reflexivity.
Qed.

(** With a 32-bit [uint_fast8_t], between [(0,0)] and [(4294967295, 1)]
    the conversion to [int] gives [dx = 1], the loop steps both
    coordinates together and never meets the test [x1 == x2 && y1 == y2]. *)
Lemma line_points_loop_diverges (fuel : nat) (k : Z) :
  line_points_loop UInt fuel 4294967295 1 1 1 1 1 k k 0 = OutOfFuel.
Proof.
  revert k. induction fuel as [|fuel IH]; intros k; [reflexivity|].
  cbn [line_points_loop].
  replace ((k =? 4294967295) && (k =? 1)) with false
    by (destruct (Z.eqb_spec k 4294967295), (Z.eqb_spec k 1); try reflexivity; lia).
  change (to_int (2 * 0)) with 0. change (to_int (- (1))) with (-1).
  change (0 >? -1) with true. change (0 <? 1) with true.
  cbv beta iota zeta.
  change (to_int (to_int (0 - 1) + 1)) with 0.
  rewrite IH. reflexivity.
Qed.

(** C10, counterexample.  On the Daisy Seed's 32-bit [uint_fast8_t],
    [DrawLineColor(0, 0, 4294967295, 1, color)] does not terminate: no
    amount of fuel lets the loop return. *)
Lemma DrawLineColor_wide_coordinate_diverges :
  ~ exists fuel buf',
      DrawLineColor 128 160 UInt fuel 0 0 4294967295 1 COLOR_WHITE (blank 128 160)
      = Done buf'.
Proof.
  intros (fuel & buf' & Hrun).
  rewrite DrawLineColor_plots in Hrun by (try apply well_sized_blank; lia).
  unfold line_points in Hrun.
  change (to_int (Z.abs (to_int (to_int 4294967295 - to_int 0)))) with 1 in Hrun.
  change (to_int (Z.abs (to_int (to_int 1 - to_int 0)))) with 1 in Hrun.
  change (0 <? 4294967295) with true in Hrun.
  change (0 <? 1) with true in Hrun.
  change (to_int (1 - 1)) with 0 in Hrun.
  cbv beta iota zeta in Hrun.
  rewrite line_points_loop_diverges in Hrun. discriminate Hrun.
Qed.

(** ** The theorems at concrete inputs: the 128x160 panel on the Daisy Seed *)

(** [RGB565(200, 100, 50)]. *)
Lemma RGB565_bit_exact_witness :
  (0 <= 200 < 256 /\ 0 <= 100 < 256 /\ 0 <= 50 < 256)
  /\ (RGB565 200 100 50 = R5G6B5_formula 200 100 50
      /\ RGB565 200 100 50 = (200 / 8) * 2048 + (100 / 4) * 32 + 50 / 8
      /\ red5 (RGB565 200 100 50) = Z.shiftr 200 3
      /\ green6 (RGB565 200 100 50) = Z.shiftr 100 2
      /\ blue5 (RGB565 200 100 50) = Z.shiftr 50 3
      /\ 0 <= RGB565 200 100 50 < 65536).
Proof.
  split; [lia|]. apply (RGB565_bit_exact 200 100 50); lia.
Defined.

(** A red pixel at [(10, 20)] of a blank framebuffer. *)
Lemma DrawPixelColor_spec_witness :
  well_sized 128 160 (blank 128 160)
  /\ (10 < 128 -> 20 < 160 ->
        exists buf',
          DrawPixelColor 128 160 10 20 COLOR_RED (blank 128 160) = Done buf'
          /\ length buf' = length (blank 128 160)
          /\ buf' !! Z.to_nat ((20 * 128 + 10) * 2) = Some (COLOR_RED / 256)
          /\ buf' !! Z.to_nat ((20 * 128 + 10) * 2 + 1) = Some (COLOR_RED mod 256)
          /\ read16 buf' ((20 * 128 + 10) * 2) = Some COLOR_RED
          /\ forall i : nat,
               i <> Z.to_nat ((20 * 128 + 10) * 2) ->
               i <> Z.to_nat ((20 * 128 + 10) * 2 + 1) ->
               buf' !! i = blank 128 160 !! i)
  /\ (128 <= 10 \/ 160 <= 20 ->
        DrawPixelColor 128 160 10 20 COLOR_RED (blank 128 160)
        = Done (blank 128 160)).
Proof.
  assert (Hb : well_sized 128 160 (blank 128 160)) by (vm_compute; reflexivity).
  split; [exact Hb|].
  apply (DrawPixelColor_spec 128 160 10 20 COLOR_RED (blank 128 160));
    [exact Hb|lia|lia|unfold COLOR_RED; lia].
Defined.

(** The reversed rectangle [(20,20)-(10,10)]. *)
Lemma DrawRectColor_reversed_safe_witness :
  (20 > 10) /\
  exists buf',
    DrawRectColor 128 160 UInt 161 20 20 10 10 COLOR_RED (blank 128 160) = Done buf'
    /\ length buf' = length (blank 128 160)
    /\ forall n : nat,
         buf' !! n <> blank 128 160 !! n ->
         exists x y,
           on_panel 128 160 x y
           /\ (x = 20 \/ x = 10 \/ y = 20 \/ y = 10)
           /\ (n = Z.to_nat (pixel_index 128 x y)
               \/ n = Z.to_nat (pixel_index 128 x y + 1)).
Proof.
  split; [lia|].
  apply (DrawRectColor_reversed_safe 128 160 UInt);
    [simpl; lia|simpl; lia|vm_compute; reflexivity|lia|lia|lia|lia|lia|
     vm_compute; lia].
Defined.

(** [Update] on a driver that has not been initialized yet. *)
Lemma Update_wire_witness :
  well_sized 128 160 (buffer_ (fresh_driver 128 160))
  /\ decode_from true true
       (emitted (fresh_driver 128 160) (Update 128 160 (fresh_driver 128 160)))
     = [ Command CASET; Parameters [0; 0; 0; 128 - 1];
         Command RASET; Parameters [0; 0; 0; 160 - 1];
         Command RAMWR; Parameters (buffer_ (fresh_driver 128 160)) ]
  /\ Z.of_nat (length (buffer_ (fresh_driver 128 160))) = 128 * 160 * 2
  /\ buffer_ (Update 128 160 (fresh_driver 128 160)) = buffer_ (fresh_driver 128 160)
  /\ transport_ (Update 128 160 (fresh_driver 128 160))
     = transport_ (fresh_driver 128 160)
       ++ emitted (fresh_driver 128 160) (Update 128 160 (fresh_driver 128 160)).
Proof.
  assert (Hb : well_sized 128 160 (buffer_ (fresh_driver 128 160)))
    by (vm_compute; reflexivity).
  split; [exact Hb|].
  apply (Update_wire 128 160 (fresh_driver 128 160) true true); [lia|lia|exact Hb].
Defined.

(** Filling with red and presenting, twice. *)
Lemma fill_update_idempotent_witness :
  well_sized 128 160 (buffer_ (fresh_driver 128 160))
  /\ exists d1 d2,
       fill_then_update 128 160 (Z.to_nat 20481) COLOR_RED (fresh_driver 128 160) = Done d1
       /\ fill_then_update 128 160 (Z.to_nat 20481) COLOR_RED d1 = Done d2
       /\ buffer_ d2 = buffer_ d1
       /\ emitted d1 d2 = emitted (fresh_driver 128 160) d1
       /\ wire_bytes (emitted d1 d2) = wire_bytes (emitted (fresh_driver 128 160) d1)
       /\ decode (emitted d1 d2) = decode (emitted (fresh_driver 128 160) d1).
Proof.
  assert (Hb : well_sized 128 160 (buffer_ (fresh_driver 128 160)))
    by (vm_compute; reflexivity).
  split; [exact Hb|].
  apply (fill_update_idempotent 128 160 (Z.to_nat 20481) COLOR_RED (fresh_driver 128 160));
    [exact Hb|lia].
Defined.

(** [Init] with the default pins. *)
Lemma Init_script_witness :
  well_sized 128 160 (buffer_ (fresh_driver 128 160))
  /\ exists d',
       Init 128 160 (Z.to_nat 20481) Defaults (fresh_driver 128 160) = Done d'
       /\ decode (emitted (fresh_driver 128 160) d')
          = init_script ++ frame_write (u8 (128 - 1)) (u8 (160 - 1)) (buffer_ d')
       /\ commands_of (decode (emitted (fresh_driver 128 160) d'))
          = [ SWRESET; SLPOUT; FRMCTR1; FRMCTR2; FRMCTR3; INVCTR;
              PWCTR1; PWCTR2; PWCTR3; PWCTR4; PWCTR5; VMCTR1;
              INVOFF; MADCTL; COLMOD; GMCTRP1; GMCTRN1; NORON; DISPON;
              CASET; RASET; RAMWR ]
       /\ NoDup (commands_of (decode (emitted (fresh_driver 128 160) d')))
       /\ background_color_ d' = COLOR_BLACK
       /\ well_sized 128 160 (buffer_ d')
       /\ forall x y, on_panel 128 160 x y ->
            read_pixel 128 (buffer_ d') x y = Some (background_color_ d').
Proof.
  assert (Hb : well_sized 128 160 (buffer_ (fresh_driver 128 160)))
    by (vm_compute; reflexivity).
  split; [exact Hb|].
  apply (Init_script 128 160 (Z.to_nat 20481) Defaults (fresh_driver 128 160));
    [exact Hb|lia].
Defined.

(** The golden trace in red. *)
Lemma DrawLineColor_golden_witness :
  (4 < 128 /\ 2 < 160)
  /\ line_points UInt 5 0 0 4 2 = Done [(0, 0); (1, 0); (2, 1); (3, 1); (4, 2)]
  /\ exists buf',
       DrawLineColor 128 160 UInt 5 0 0 4 2 COLOR_RED (blank 128 160) = Done buf'
       /\ (forall x y,
             In (x, y) [(0, 0); (1, 0); (2, 1); (3, 1); (4, 2)] ->
             read_pixel 128 buf' x y = Some COLOR_RED)
       /\ (forall x y,
             on_panel 128 160 x y ->
             ~ In (x, y) [(0, 0); (1, 0); (2, 1); (3, 1); (4, 2)] ->
             read_pixel 128 buf' x y = read_pixel 128 (blank 128 160) x y).
Proof.
  split; [lia|].
  apply (DrawLineColor_golden 128 160 UInt 5 COLOR_RED (blank 128 160));
    [vm_compute; reflexivity|unfold COLOR_RED; lia|lia|lia|lia].
Defined.

(** The degenerate line at [(10, 20)]. *)
Lemma DrawLineColor_degenerate_witness :
  well_sized 128 160 (blank 128 160)
  /\ line_points UInt 1 10 20 10 20 = Done [(10, 20)]
  /\ exists buf',
       DrawLineColor 128 160 UInt 1 10 20 10 20 COLOR_RED (blank 128 160) = Done buf'
       /\ DrawPixelColor 128 160 10 20 COLOR_RED (blank 128 160) = Done buf'
       /\ (on_panel 128 160 10 20 -> read_pixel 128 buf' 10 20 = Some COLOR_RED)
       /\ (128 <= 10 \/ 160 <= 20 -> buf' = blank 128 160)
       /\ (forall x' y',
             on_panel 128 160 x' y' -> (x', y') <> (10, 20) ->
             read_pixel 128 buf' x' y' = read_pixel 128 (blank 128 160) x' y').
Proof.
  assert (Hb : well_sized 128 160 (blank 128 160)) by (vm_compute; reflexivity).
  split; [exact Hb|].
  apply (DrawLineColor_degenerate 128 160 UInt 1 10 20 COLOR_RED (blank 128 160));
    [exact Hb|lia|lia|unfold COLOR_RED; lia|lia].
Defined.

(** The line from [(0,0)] to [(4,2)] ends within seven iterations. *)
Lemma DrawLineColor_terminates_witness :
  (plain_coord UInt 0 /\ plain_coord UInt 4 /\ plain_coord UInt 2)
  /\ exists pts,
       line_points UInt 7 0 0 4 2 = Done pts
       /\ DrawLineColor 128 160 UInt 7 0 0 4 2 COLOR_RED (blank 128 160)
          = Done (plot_all 128 160 COLOR_RED pts (blank 128 160))
       /\ Z.of_nat (length pts) <= Z.abs (4 - 0) + Z.abs (2 - 0) + 1
       /\ head pts = Some (0, 0)
       /\ last pts = Some (4, 2).
Proof.
  assert (H0 : plain_coord UInt 0) by (unfold plain_coord; simpl; lia).
  assert (H4 : plain_coord UInt 4) by (unfold plain_coord; simpl; lia).
  assert (H2 : plain_coord UInt 2) by (unfold plain_coord; simpl; lia).
  split; [exact (conj H0 (conj H4 H2))|].
  apply (DrawLineColor_terminates 128 160 UInt 7 0 0 4 2 COLOR_RED (blank 128 160));
    [vm_compute; reflexivity|exact H0|exact H0|exact H4|exact H2|vm_compute; lia].
Defined.

(** The two directions of the segment [(0,0)-(2,1)]. *)
Lemma DrawLineColor_reflection_witness :
  (plain_coord UInt 0 /\ plain_coord UInt 2 /\ plain_coord UInt 1)
  /\ exists pts,
       line_points UInt 4 0 0 2 1 = Done pts
       /\ line_points UInt 4 2 1 0 0 = Done (map (reflect 0 0 2 1) pts)
       /\ DrawLineColor 128 160 UInt 4 0 0 2 1 COLOR_RED (blank 128 160)
          = Done (plot_all 128 160 COLOR_RED pts (blank 128 160))
       /\ DrawLineColor 128 160 UInt 4 2 1 0 0 COLOR_RED (blank 128 160)
          = Done (plot_all 128 160 COLOR_RED (map (reflect 0 0 2 1) pts)
                    (blank 128 160))
       /\ head pts = Some (0, 0) /\ last pts = Some (2, 1)
       /\ head (map (reflect 0 0 2 1) pts) = Some (2, 1)
       /\ last (map (reflect 0 0 2 1) pts) = Some (0, 0)
       /\ (0 = 2 \/ 0 = 1 \/ Z.abs (2 - 0) = Z.abs (1 - 0) ->
             (forall p, In p pts <-> In p (map (reflect 0 0 2 1) pts))
             /\ (forall x y, on_panel 128 160 x y ->
                   read_pixel 128 (plot_all 128 160 COLOR_RED pts (blank 128 160)) x y
                   = read_pixel 128
                       (plot_all 128 160 COLOR_RED
                          (map (reflect 0 0 2 1) pts) (blank 128 160)) x y)).
Proof.
  assert (H0 : plain_coord UInt 0) by (unfold plain_coord; simpl; lia).
  assert (H2 : plain_coord UInt 2) by (unfold plain_coord; simpl; lia).
  assert (H1 : plain_coord UInt 1) by (unfold plain_coord; simpl; lia).
  split; [exact (conj H0 (conj H2 H1))|].
  apply (DrawLineColor_reflection 128 160 UInt 4 0 0 2 1 COLOR_RED (blank 128 160));
    [vm_compute; reflexivity|unfold COLOR_RED; lia
    |exact H0|exact H0|exact H2|exact H1|vm_compute; lia].
Defined.

(** * Further properties of the driver *)

(** ** Colour quantization *)

Lemma RGB565_sum (r g b : Z) :
  0 <= r < 256 -> 0 <= g < 256 -> 0 <= b < 256 ->
  RGB565 r g b = (r / 8) * 2048 + (g / 4) * 32 + b / 8
  /\ red5 (RGB565 r g b) = r / 8
  /\ green6 (RGB565 r g b) = g / 4
  /\ blue5 (RGB565 r g b) = b / 8.
Proof.
  intros Hr Hg Hb.
  assert (Hr5 : 0 <= r / 8 < 32)
    by (split; [apply Z.div_pos; lia | apply Z.div_lt_upper_bound; lia]).
  assert (Hg6 : 0 <= g / 4 < 64)
    by (split; [apply Z.div_pos; lia | apply Z.div_lt_upper_bound; lia]).
  assert (Hb5 : 0 <= b / 8 < 32)
    by (split; [apply Z.div_pos; lia | apply Z.div_lt_upper_bound; lia]).
  pose proof (pack_fields _ _ _ Hr5 Hg6 Hb5) as Hp. unfold pack_ok in Hp.
  apply andb_prop in Hp as [Hp Hbl]. apply andb_prop in Hp as [Hp Hgr].
  apply andb_prop in Hp as [Hp Hre].
  apply Z.eqb_eq in Hp, Hbl, Hgr, Hre.
  assert (Hu : RGB565 r g b
               = Z.lor (Z.lor (Z.shiftl (8 * (r / 8)) 8) (Z.shiftl (4 * (g / 4)) 3))
                       (b / 8)).
  { unfold RGB565. rewrite (mask_red r Hr), (mask_green g Hg).
    rewrite (Z.shiftr_div_pow2 b 3) by lia. change (2 ^ 3) with 8.
    unfold u16. apply Z.mod_small. rewrite Hp. lia. }
  rewrite Hu. repeat split; assumption.
Qed.

(** X1.  Two 8-bit triples are packed to the same colour exactly when
    they agree on the top five bits of red, the top six of green and the
    top five of blue: the low bits are dropped and nothing else is. *)
Theorem RGB565_collision (r g b r' g' b' : Z) :
  0 <= r < 256 -> 0 <= g < 256 -> 0 <= b < 256 ->
  0 <= r' < 256 -> 0 <= g' < 256 -> 0 <= b' < 256 ->
  RGB565 r g b = RGB565 r' g' b'
  <-> r / 8 = r' / 8 /\ g / 4 = g' / 4 /\ b / 8 = b' / 8.
Proof.
  intros Hr Hg Hb Hr' Hg' Hb'.
  destruct (RGB565_sum r g b Hr Hg Hb) as (_ & R1 & G1 & B1).
  destruct (RGB565_sum r' g' b' Hr' Hg' Hb') as (_ & R2 & G2 & B2).
  split.
  - intros Heq. rewrite Heq in R1, G1, B1.
    rewrite <- R1, <- G1, <- B1, R2, G2, B2. auto.
  - intros (E1 & E2 & E3).
    destruct (RGB565_sum r g b Hr Hg Hb) as (-> & _).
    destruct (RGB565_sum r' g' b' Hr' Hg' Hb') as (-> & _).
    now rewrite E1, E2, E3.
Qed.

(** ** Single pixels *)

Section PixelAlgebra.

Variables width height : Z.

Lemma set_pixel_overwrite (c1 c2 : Z) (buf : list Z) (p : Z * Z) :
  set_pixel width height c2 (set_pixel width height c1 buf p) p
  = set_pixel width height c2 buf p.
Proof.
  destruct p as [x y]. unfold set_pixel.
  destruct ((width <=? x) || (height <=? y)); [reflexivity|].
  set (i := Z.to_nat (pixel_index width x y)).
  set (j := Z.to_nat (pixel_index width x y + 1)).
  destruct (decide (i = j)) as [E|N].
  - rewrite E. now rewrite !list_insert_insert_eq.
  - rewrite (list_insert_insert_ne _ i j (u8 (Z.shiftr c2 8)) (u8 (Z.land c1 255)) N).
    now rewrite !list_insert_insert_eq.
Qed.

Lemma set_pixel_commute (c1 c2 : Z) (buf : list Z) (p q : Z * Z) :
  0 <= fst p -> 0 <= snd p -> 0 <= fst q -> 0 <= snd q -> p <> q ->
  set_pixel width height c2 (set_pixel width height c1 buf p) q
  = set_pixel width height c1 (set_pixel width height c2 buf q) p.
Proof.
  destruct p as [x y], q as [x' y']. simpl. intros Hx Hy Hx' Hy' Hne.
  unfold set_pixel.
  destruct (width <=? x) eqn:E1; [reflexivity|].
  destruct (height <=? y) eqn:E2; [reflexivity|].
  destruct (width <=? x') eqn:E3; [reflexivity|].
  destruct (height <=? y') eqn:E4; [reflexivity|]. simpl.
  assert (Hp : on_panel width height x y) by (split; lia).
  assert (Hq : on_panel width height x' y') by (split; lia).
  destruct (pixel_index_bounds width height x y Hp) as [P0 _].
  destruct (pixel_index_bounds width height x' y' Hq) as [Q0 _].
  assert (Hi : pixel_index width x y <> pixel_index width x' y').
  { intros Heq. apply (pixel_index_inj width height x y x' y' Hp Hq) in Heq as [-> ->].
    now apply Hne. }
  assert (Hev : exists k, pixel_index width x y = 2 * k)
    by (exists (y * width + x); unfold pixel_index; lia).
  assert (Hev' : exists k, pixel_index width x' y' = 2 * k)
    by (exists (y' * width + x'); unfold pixel_index; lia).
  destruct Hev as [k Hk]. destruct Hev' as [k' Hk'].
  set (i := Z.to_nat (pixel_index width x y)).
  set (j := Z.to_nat (pixel_index width x y + 1)).
  set (m := Z.to_nat (pixel_index width x' y')).
  set (n := Z.to_nat (pixel_index width x' y' + 1)).
  assert (Nim : i <> m) by (subst i m; lia).
  assert (Nin : i <> n) by (subst i n; lia).
  assert (Njm : j <> m) by (subst j m; lia).
  assert (Njn : j <> n) by (subst j n; lia).
  rewrite (list_insert_insert_ne _ m j _ _ (not_eq_sym Njm)).
  rewrite (list_insert_insert_ne _ m i _ _ (not_eq_sym Nim)).
  rewrite (list_insert_insert_ne _ n j _ _ (not_eq_sym Njn)).
  rewrite (list_insert_insert_ne _ n i _ _ (not_eq_sym Nin)).
  reflexivity.
Qed.

(** X2.  The last write to a pixel wins: after two [DrawPixelColor] on
    the same coordinate the framebuffer is the one a single call with the
    second colour gives; in particular repeating a call changes nothing
    more. *)
Theorem DrawPixelColor_last_wins (x y c1 c2 : Z) (buf : list Z) :
  well_sized width height buf -> 0 <= x -> 0 <= y ->
  (buf1 ← DrawPixelColor width height x y c1 buf;
   DrawPixelColor width height x y c2 buf1)
  = DrawPixelColor width height x y c2 buf.
Proof.
  intros Hb Hx Hy.
  rewrite (DrawPixelColor_Done width height x y c1 buf) by assumption.
  cbn [mbind outcome_bind].
  rewrite !DrawPixelColor_Done by (try apply set_pixel_well_sized; assumption).
  now rewrite set_pixel_overwrite.
Qed.

(** X3.  Writes to two different coordinates commute: the framebuffer
    does not depend on the order of the two calls. *)
Theorem DrawPixelColor_commute (x y c1 x' y' c2 : Z) (buf : list Z) :
  well_sized width height buf ->
  0 <= x -> 0 <= y -> 0 <= x' -> 0 <= y' -> (x, y) <> (x', y') ->
  (buf1 ← DrawPixelColor width height x y c1 buf;
   DrawPixelColor width height x' y' c2 buf1)
  = (buf1 ← DrawPixelColor width height x' y' c2 buf;
     DrawPixelColor width height x y c1 buf1).
Proof.
  intros Hb Hx Hy Hx' Hy' Hne.
  rewrite (DrawPixelColor_Done width height x y c1 buf) by assumption.
  rewrite (DrawPixelColor_Done width height x' y' c2 buf) by assumption.
  cbn [mbind outcome_bind].
  rewrite !DrawPixelColor_Done by (try apply set_pixel_well_sized; assumption).
  f_equal. now apply set_pixel_commute.
Qed.

(** X4.  [DrawPixelRGB] on the panel stores the quantized colour: the
    pixel reads back as a colour whose red, green and blue fields are
    [r >> 3], [g >> 2] and [b >> 3]; off the panel it changes nothing. *)
Theorem DrawPixelRGB_read (x y r g b : Z) (buf : list Z) :
  well_sized width height buf -> 0 <= x -> 0 <= y ->
  0 <= r < 256 -> 0 <= g < 256 -> 0 <= b < 256 ->
  exists buf',
    DrawPixelRGB width height x y r g b buf = Done buf'
    /\ (on_panel width height x y ->
          exists c,
            read_pixel width buf' x y = Some c
            /\ red5 c = Z.shiftr r 3
            /\ green6 c = Z.shiftr g 2
            /\ blue5 c = Z.shiftr b 3)
    /\ (width <= x \/ height <= y -> buf' = buf)
    /\ (forall x' y', on_panel width height x' y' -> (x', y') <> (x, y) ->
          read_pixel width buf' x' y' = read_pixel width buf x' y').
Proof.
  intros Hb Hx Hy Hr Hg Hbl. unfold DrawPixelRGB.
  rewrite DrawPixelColor_Done by assumption.
  eexists. split; [reflexivity|].
  destruct (RGB565_sum r g b Hr Hg Hbl) as (Hs & R & G & B).
  split; [|split].
  - intros Hp. exists (RGB565 r g b). split.
    + apply read_pixel_set_pixel_same; try assumption.
      rewrite Hs.
      assert (0 <= r / 8 < 32)
        by (split; [apply Z.div_pos; lia | apply Z.div_lt_upper_bound; lia]).
      assert (0 <= g / 4 < 64)
        by (split; [apply Z.div_pos; lia | apply Z.div_lt_upper_bound; lia]).
      assert (0 <= b / 8 < 32)
        by (split; [apply Z.div_pos; lia | apply Z.div_lt_upper_bound; lia]).
      lia.
    + rewrite R, G, B.
      rewrite !(Z.shiftr_div_pow2 _ 3), (Z.shiftr_div_pow2 _ 2) by lia.
      repeat split; reflexivity.
  - apply set_pixel_clipped.
  - intros x' y' Hp Hne.
    apply read_pixel_set_pixel_other; simpl; try assumption. congruence.
Qed.

End PixelAlgebra.

(** ** Spans and rectangles *)

Lemma hspan_nil (y lo hi : Z) : hi <= lo -> hspan y lo hi = [].
Proof. intros H. unfold hspan. now rewrite seqZ_nil by lia. Qed.

Lemma hspan_cons (y lo hi : Z) :
  lo < hi -> hspan y lo hi = (lo, y) :: hspan y (lo + 1) hi.
Proof.
  intros H. unfold hspan. rewrite seqZ_cons by lia. simpl.
  do 2 f_equal. f_equal; lia.
Qed.

Lemma In_hspan (y lo hi a b : Z) :
  In (a, b) (hspan y lo hi) <-> b = y /\ lo <= a < hi.
Proof.
  unfold hspan. rewrite in_map_iff. split.
  - intros (k & [= <- <-] & Hin). apply list_elem_of_In, elem_of_seqZ in Hin. lia.
  - intros (-> & Ha). exists a. split; [reflexivity|].
    apply list_elem_of_In, elem_of_seqZ. lia.
Qed.

Lemma hspan_nonneg (y lo hi : Z) :
  0 <= y -> 0 <= lo ->
  Forall (fun p : Z * Z => 0 <= fst p /\ 0 <= snd p) (hspan y lo hi).
Proof.
  intros Hy Hlo. apply Forall_forall. intros [a b] Hin.
  apply list_elem_of_In, In_hspan in Hin. simpl. lia.
Qed.

Lemma vspan_nil (x lo hi : Z) : hi <= lo -> vspan x lo hi = [].
Proof. intros H. unfold vspan. now rewrite seqZ_nil by lia. Qed.

Lemma vspan_cons (x lo hi : Z) :
  lo < hi -> vspan x lo hi = (x, lo) :: vspan x (lo + 1) hi.
Proof.
  intros H. unfold vspan. rewrite seqZ_cons by lia. simpl.
  do 2 f_equal. f_equal; lia.
Qed.

Lemma In_vspan (x lo hi a b : Z) :
  In (a, b) (vspan x lo hi) <-> a = x /\ lo <= b < hi.
Proof.
  unfold vspan. rewrite in_map_iff. split.
  - intros (k & [= <- <-] & Hin). apply list_elem_of_In, elem_of_seqZ in Hin. lia.
  - intros (-> & Hb). exists b. split; [reflexivity|].
    apply list_elem_of_In, elem_of_seqZ. lia.
Qed.

Lemma vspan_nonneg (x lo hi : Z) :
  0 <= x -> 0 <= lo ->
  Forall (fun p : Z * Z => 0 <= fst p /\ 0 <= snd p) (vspan x lo hi).
Proof.
  intros Hx Hlo. apply Forall_forall. intros [a b] Hin.
  apply list_elem_of_In, In_vspan in Hin. simpl. lia.
Qed.

Lemma rows_nil (x xhi lo hi : Z) : hi <= lo -> rows x xhi lo hi = [].
Proof. intros H. unfold rows. now rewrite seqZ_nil by lia. Qed.

Lemma rows_cons (x xhi lo hi : Z) :
  lo < hi -> rows x xhi lo hi = hspan lo x xhi ++ rows x xhi (lo + 1) hi.
Proof.
  intros H. unfold rows. rewrite seqZ_cons by lia. simpl.
  do 2 f_equal. f_equal; lia.
Qed.

Lemma In_rows (x xhi lo hi a b : Z) :
  In (a, b) (rows x xhi lo hi) <-> lo <= b < hi /\ x <= a < xhi.
Proof.
  unfold rows. rewrite in_flat_map. split.
  - intros (k & Hk & Hin). apply list_elem_of_In, elem_of_seqZ in Hk.
    apply In_hspan in Hin. lia.
  - intros (Hb & Ha). exists b. split.
    + apply list_elem_of_In, elem_of_seqZ. lia.
    + apply In_hspan. lia.
Qed.

Lemma rows_nonneg (x xhi lo hi : Z) :
  0 <= x -> 0 <= lo ->
  Forall (fun p : Z * Z => 0 <= fst p /\ 0 <= snd p) (rows x xhi lo hi).
Proof.
  intros Hx Hlo. apply Forall_forall. intros [a b] Hin.
  apply list_elem_of_In, In_rows in Hin. simpl. lia.
Qed.

(** The arithmetic of a span that stays in range is exact. *)
Lemma span_end_exact (r : fast8_rank) (x w : Z) :
  0 <= x < 2 ^ fast_bits r -> 0 <= w < 2 ^ fast_bits r ->
  promotes r = true \/ x + w < 2 ^ fast_bits r ->
  span_end r x w = x + w.
Proof.
  intros Hx Hw Hcase. unfold span_end, arith.
  destruct (promotes r) eqn:Hp.
  - apply to_int_small. destruct r; try discriminate Hp; simpl in Hx, Hw; lia.
  - destruct Hcase as [?|Hs]; [discriminate|]. apply fast_small. lia.
Qed.

Lemma extent_ordered (r : fast8_rank) (a b : Z) :
  0 <= a <= b -> b + 1 < 2 ^ fast_bits r ->
  extent r a b = b - a + 1 /\ span_end r a (extent r a b) = b + 1.
Proof.
  intros Hab Hb.
  assert (He : extent r a b = b - a + 1).
  { unfold extent, arith. destruct (promotes r) eqn:Hp.
    - assert (2 ^ fast_bits r <= 2 ^ 16)
        by (destruct r; try discriminate Hp; simpl; lia).
      rewrite (to_int_small (b - a)) by lia.
      rewrite (to_int_small (b - a + 1)) by lia.
      apply fast_small. lia.
    - rewrite (fast_small r (b - a)) by lia.
      rewrite (fast_small r (b - a + 1)) by lia.
      apply fast_small. lia. }
  split; [exact He|]. rewrite He.
  unfold span_end, arith. replace (a + (b - a + 1)) with (b + 1) by lia.
  destruct (promotes r) eqn:Hp.
  - apply to_int_small. destruct r; try discriminate Hp; simpl in Hb; lia.
  - apply fast_small. lia.
Qed.

(** Reversed bounds, [uint_fast8_t] as wide as [int] or wider: the
    unsigned difference wraps, and so does the end of the span, which
    falls at or before its start. *)
Lemma extent_reversed_wide (r : fast8_rank) (a b : Z) :
  promotes r = false -> 0 <= b < a -> a < 2 ^ fast_bits r ->
  span_end r a (extent r a b) <= a.
Proof.
  intros Hp Hba Ha. unfold span_end, extent, arith. rewrite Hp.
  pose proof (fast_modulus_ge r) as HM.
  unfold fast. set (M := 2 ^ fast_bits r) in *.
  replace ((b - a) mod M) with (b - a + M)
    by (apply Z.mod_unique with (-1); lia).
  destruct (Z.eq_dec (b + 1) a) as [E|N].
  - replace (b - a + M + 1) with M by lia.
    rewrite Z.mod_same by lia. rewrite (Z.mod_0_l M) by lia.
    rewrite Z.add_0_r. rewrite Z.mod_small; lia.
  - rewrite (Z.mod_small (b - a + M + 1)) by lia.
    rewrite (Z.mod_small (b - a + M + 1)) by lia.
    replace (a + (b - a + M + 1)) with (b + 1 + 1 * M) by lia.
    rewrite Z.mod_add by lia. rewrite Z.mod_small; lia.
Qed.

(** Reversed by two or more, [uint_fast8_t] narrower than [int]: the
    difference is converted modulo the narrow type, but the end of the
    span is computed in [int] and lies beyond every value of the type. *)
Lemma extent_reversed_narrow (r : fast8_rank) (a b : Z) :
  promotes r = true -> 0 <= b -> b + 1 < a -> a < 2 ^ fast_bits r ->
  span_end r a (extent r a b) = b + 1 + 2 ^ fast_bits r.
Proof.
  intros Hp Hb Hba Ha. unfold span_end, extent, arith. rewrite Hp.
  assert (HM : 256 <= 2 ^ fast_bits r <= 2 ^ 16)
    by (destruct r; try discriminate Hp; simpl; lia).
  rewrite (to_int_small (b - a)) by lia.
  rewrite (to_int_small (b - a + 1)) by lia.
  unfold fast. set (M := 2 ^ fast_bits r) in *.
  replace ((b - a + 1) mod M) with (b - a + 1 + M)
    by (apply Z.mod_unique with (-1); lia).
  rewrite to_int_small by lia. lia.
Qed.

(** Reversed by exactly one: the extent is zero on every platform. *)
Lemma extent_reversed_by_one (r : fast8_rank) (a : Z) :
  0 < a < 2 ^ fast_bits r -> span_end r a (extent r a (a - 1)) = a.
Proof.
  intros Ha. unfold span_end, extent, arith.
  pose proof (fast_modulus_ge r) as HM.
  replace (a - 1 - a) with (-1) by lia.
  destruct (promotes r) eqn:Hp.
  - assert (2 ^ fast_bits r <= 2 ^ 16)
      by (destruct r; try discriminate Hp; simpl; lia).
    change (to_int (-1)) with (-1). change (-1 + 1) with 0.
    change (to_int 0) with 0. unfold fast. rewrite Z.mod_0_l by lia.
    rewrite Z.add_0_r. apply to_int_small. lia.
  - unfold fast. set (M := 2 ^ fast_bits r) in *.
    replace ((-1) mod M) with (M - 1)
      by (apply Z.mod_unique with (-1); lia).
    replace (M - 1 + 1) with M by lia.
    rewrite Z.mod_same by lia. rewrite (Z.mod_0_l M) by lia.
    rewrite Z.add_0_r. apply Z.mod_small. lia.
Qed.

Section Raster.

Variables width height : Z.
Variable r : fast8_rank.

(** The panel is addressable by the coordinate type. *)
Hypothesis width_fits : width < 2 ^ fast_bits r.
Hypothesis height_fits : height < 2 ^ fast_bits r.

Lemma plot_all_reads (color : Z) (pts : list (Z * Z)) (buf : list Z) (a b : Z) :
  well_sized width height buf -> 0 <= color < 65536 ->
  Forall (fun p => 0 <= fst p /\ 0 <= snd p) pts ->
  on_panel width height a b ->
  (In (a, b) pts ->
     read_pixel width (plot_all width height color pts buf) a b = Some color)
  /\ (~ In (a, b) pts ->
        read_pixel width (plot_all width height color pts buf) a b
        = read_pixel width buf a b).
Proof.
  intros Hb Hc Hpos Hp. split; intros Hin.
  - now apply read_pixel_plot_all_in.
  - now apply read_pixel_plot_all_out with (height := height).
Qed.

(** The loop of [DrawHLineColor] started at [i] plots the pixels of row
    [y] from [i] up to the end of the span or the right edge, whichever
    comes first. *)
Lemma DrawHLineColor_loop_span (fuel : nat) (x y w color i : Z) (buf : list Z) :
  well_sized width height buf -> 0 <= i -> 0 <= y ->
  (Z.to_nat (width - i) < fuel)%nat ->
  DrawHLineColor_loop width height r fuel x y w color i buf
  = Done (plot_all width height color
            (hspan y i (Z.min (span_end r x w) width)) buf).
Proof.
  revert i buf. induction fuel as [|fuel IH]; intros i buf Hb Hi Hy Hfuel; [lia|].
  cbn [DrawHLineColor_loop]. fold (span_end r x w).
  destruct ((i <? span_end r x w) && (i <? width)) eqn:Hc.
  - apply andb_prop in Hc as [H1 H2]. apply Z.ltb_lt in H1, H2.
    rewrite DrawPixelColor_Done by assumption. cbn [mbind outcome_bind].
    rewrite fast_small by lia.
    rewrite IH; [|now apply set_pixel_well_sized|lia|exact Hy|lia].
    rewrite (hspan_cons y i) by lia. reflexivity.
  - rewrite hspan_nil; [reflexivity|].
    apply andb_false_iff in Hc as [Hc|Hc]; apply Z.ltb_ge in Hc; lia.
Qed.

Lemma DrawVLineColor_loop_span (fuel : nat) (x y h color j : Z) (buf : list Z) :
  well_sized width height buf -> 0 <= j -> 0 <= x ->
  (Z.to_nat (height - j) < fuel)%nat ->
  DrawVLineColor_loop width height r fuel x y h color j buf
  = Done (plot_all width height color
            (vspan x j (Z.min (span_end r y h) height)) buf).
Proof.
  revert j buf. induction fuel as [|fuel IH]; intros j buf Hb Hj Hx Hfuel; [lia|].
  cbn [DrawVLineColor_loop]. fold (span_end r y h).
  destruct ((j <? span_end r y h) && (j <? height)) eqn:Hc.
  - apply andb_prop in Hc as [H1 H2]. apply Z.ltb_lt in H1, H2.
    rewrite DrawPixelColor_Done by assumption. cbn [mbind outcome_bind].
    rewrite fast_small by lia.
    rewrite IH; [|now apply set_pixel_well_sized|lia|exact Hx|lia].
    rewrite (vspan_cons x j) by lia. reflexivity.
  - rewrite vspan_nil; [reflexivity|].
    apply andb_false_iff in Hc as [Hc|Hc]; apply Z.ltb_ge in Hc; lia.
Qed.

(** X5.  [DrawHLineColor(x, y, w, color)], when [x + w] does not exceed
    the range of the type it is computed in, paints exactly the pixels
    [(a, y)] of the panel with [x <= a < x + w]: the span is clipped at
    the right edge, a row off the panel or a zero width paints nothing,
    and every other pixel keeps its colour. *)
Theorem DrawHLineColor_exact (fuel : nat) (x y w color : Z) (buf : list Z) :
  well_sized width height buf -> 0 <= color < 65536 ->
  0 <= x < 2 ^ fast_bits r -> 0 <= w < 2 ^ fast_bits r -> 0 <= y ->
  promotes r = true \/ x + w < 2 ^ fast_bits r ->
  (Z.to_nat width < fuel)%nat ->
  exists buf',
    DrawHLineColor width height r fuel x y w color buf = Done buf'
    /\ well_sized width height buf'
    /\ forall a b, on_panel width height a b ->
         (b = y /\ x <= a < x + w -> read_pixel width buf' a b = Some color)
         /\ (~ (b = y /\ x <= a < x + w) ->
               read_pixel width buf' a b = read_pixel width buf a b).
Proof.
  intros Hb Hc Hx Hw Hy Hcase Hfuel. unfold DrawHLineColor.
  rewrite DrawHLineColor_loop_span by (assumption || lia).
  rewrite span_end_exact by assumption.
  eexists. split; [reflexivity|]. split; [now apply plot_all_well_sized|].
  intros a b Hp. pose proof Hp as [Ha Hbb].
  destruct (plot_all_reads color (hspan y x (Z.min (x + w) width)) buf a b)
    as [Hin Hout]; try assumption; [apply hspan_nonneg; lia|].
  split.
  - intros Hs. apply Hin. apply In_hspan. lia.
  - intros Hs. apply Hout. rewrite In_hspan. lia.
Qed.

(** X6.  [DrawVLineColor(x, y, h, color)], when [y + h] does not exceed
    the range of the type it is computed in, paints exactly the pixels
    [(x, b)] of the panel with [y <= b < y + h], clipped at the bottom
    edge, and leaves every other pixel as it was. *)
Theorem DrawVLineColor_exact (fuel : nat) (x y h color : Z) (buf : list Z) :
  well_sized width height buf -> 0 <= color < 65536 ->
  0 <= y < 2 ^ fast_bits r -> 0 <= h < 2 ^ fast_bits r -> 0 <= x ->
  promotes r = true \/ y + h < 2 ^ fast_bits r ->
  (Z.to_nat height < fuel)%nat ->
  exists buf',
    DrawVLineColor width height r fuel x y h color buf = Done buf'
    /\ well_sized width height buf'
    /\ forall a b, on_panel width height a b ->
         (a = x /\ y <= b < y + h -> read_pixel width buf' a b = Some color)
         /\ (~ (a = x /\ y <= b < y + h) ->
               read_pixel width buf' a b = read_pixel width buf a b).
Proof.
  intros Hb Hc Hy Hh Hx Hcase Hfuel. unfold DrawVLineColor.
  rewrite DrawVLineColor_loop_span by (assumption || lia).
  rewrite span_end_exact by assumption.
  eexists. split; [reflexivity|]. split; [now apply plot_all_well_sized|].
  intros a b Hp. pose proof Hp as [Ha Hbb].
  destruct (plot_all_reads color (vspan x y (Z.min (y + h) height)) buf a b)
    as [Hin Hout]; try assumption; [apply vspan_nonneg; lia|].
  split.
  - intros Hs. apply Hin. apply In_vspan. lia.
  - intros Hs. apply Hout. rewrite In_vspan. lia.
Qed.

(** [DrawRectColor] as four spans: two rows from [x1], two columns from
    [y1], each ending where the converted extent puts it. *)
Lemma DrawRectColor_spans (fuel : nat) (x1 y1 x2 y2 color : Z) (buf : list Z) :
  well_sized width height buf ->
  0 <= x1 -> 0 <= y1 -> 0 <= x2 -> 0 <= y2 ->
  (Z.to_nat (Z.max width height) < fuel)%nat ->
  DrawRectColor width height r fuel x1 y1 x2 y2 color buf
  = Done (plot_all width height color
            (((hspan y1 x1 (Z.min (span_end r x1 (extent r x1 x2)) width)
               ++ hspan y2 x1 (Z.min (span_end r x1 (extent r x1 x2)) width))
              ++ vspan x1 y1 (Z.min (span_end r y1 (extent r y1 y2)) height))
             ++ vspan x2 y1 (Z.min (span_end r y1 (extent r y1 y2)) height))
            buf).
Proof.
  intros Hb Hx1 Hy1 Hx2 Hy2 Hfuel.
  unfold DrawRectColor, DrawHLineColor, DrawVLineColor.
  fold (extent r x1 x2). fold (extent r y1 y2).
  rewrite DrawHLineColor_loop_span by (assumption || lia).
  cbn [mbind outcome_bind].
  rewrite DrawHLineColor_loop_span
    by (try apply plot_all_well_sized; assumption || lia).
  cbn [mbind outcome_bind]. rewrite <- plot_all_app.
  rewrite DrawVLineColor_loop_span
    by (try apply plot_all_well_sized; assumption || lia).
  cbn [mbind outcome_bind]. rewrite <- plot_all_app.
  rewrite DrawVLineColor_loop_span
    by (try apply plot_all_well_sized; assumption || lia).
  rewrite <- plot_all_app. reflexivity.
Qed.

(** X7.  [DrawRectColor(x1, y1, x2, y2, color)] with [x1 <= x2],
    [y1 <= y2] and neither [x2] nor [y2] the largest value of the
    coordinate type paints exactly the outline: the pixels of the panel
    on rows [y1], [y2] between columns [x1] and [x2], and on columns
    [x1], [x2] between rows [y1] and [y2].  The interior and the exterior
    keep their colours; the part of the outline off the panel is
    clipped. *)
Theorem DrawRectColor_outline
    (fuel : nat) (x1 y1 x2 y2 color : Z) (buf : list Z) :
  well_sized width height buf -> 0 <= color < 65536 ->
  0 <= x1 <= x2 -> 0 <= y1 <= y2 ->
  x2 + 1 < 2 ^ fast_bits r -> y2 + 1 < 2 ^ fast_bits r ->
  (Z.to_nat (Z.max width height) < fuel)%nat ->
  exists buf',
    DrawRectColor width height r fuel x1 y1 x2 y2 color buf = Done buf'
    /\ well_sized width height buf'
    /\ forall a b, on_panel width height a b ->
         (((b = y1 \/ b = y2) /\ x1 <= a <= x2)
          \/ ((a = x1 \/ a = x2) /\ y1 <= b <= y2) ->
          read_pixel width buf' a b = Some color)
         /\ (~ (((b = y1 \/ b = y2) /\ x1 <= a <= x2)
                \/ ((a = x1 \/ a = x2) /\ y1 <= b <= y2)) ->
               read_pixel width buf' a b = read_pixel width buf a b).
Proof.
  intros Hb Hc Hx Hy Hx2 Hy2 Hfuel.
  rewrite DrawRectColor_spans by (assumption || lia).
  destruct (extent_ordered r x1 x2 Hx Hx2) as [_ ->].
  destruct (extent_ordered r y1 y2 Hy Hy2) as [_ ->].
  eexists. split; [reflexivity|]. split; [now apply plot_all_well_sized|].
  intros a b Hp. pose proof Hp as [Ha Hbb].
  match goal with
  | |- context [plot_all width height color ?pts buf] =>
      destruct (plot_all_reads color pts buf a b) as [Hin Hout];
        try assumption;
        [repeat apply Forall_app_2;
           first [apply hspan_nonneg | apply vspan_nonneg]; lia|]
  end.
  split.
  - intros Hs. apply Hin.
    rewrite !in_app_iff, !In_hspan, !In_vspan. lia.
  - intros Hs. apply Hout.
    rewrite !in_app_iff, !In_hspan, !In_vspan. lia.
Qed.

(** X8.  Where [uint_fast8_t] is as wide as [int] or wider (32 or 64
    bits), a rectangle reversed along both axes is empty:
    [DrawRectColor] with [x2 < x1] and [y2 < y1] returns the framebuffer
    unchanged. *)
Theorem DrawRectColor_reversed_wide
    (fuel : nat) (x1 y1 x2 y2 color : Z) (buf : list Z) :
  promotes r = false ->
  well_sized width height buf ->
  0 <= x2 < x1 -> x1 < 2 ^ fast_bits r ->
  0 <= y2 < y1 -> y1 < 2 ^ fast_bits r ->
  (Z.to_nat (Z.max width height) < fuel)%nat ->
  DrawRectColor width height r fuel x1 y1 x2 y2 color buf = Done buf.
Proof.
  intros Hp Hb Hx Hx1 Hy Hy1 Hfuel.
  rewrite DrawRectColor_spans by (assumption || lia).
  pose proof (extent_reversed_wide r x1 x2 Hp Hx Hx1) as Ex.
  pose proof (extent_reversed_wide r y1 y2 Hp Hy Hy1) as Ey.
  rewrite !hspan_nil, !vspan_nil by lia. reflexivity.
Qed.

(** X9.  Where [uint_fast8_t] is narrower than [int] (8 or 16 bits), a
    rectangle with [x2 + 1 < x1] and [y1 <= y2] is not empty: the width
    is reduced modulo the narrow type while the end of the span is
    computed in [int], so rows [y1] and [y2] are painted from [x1] to
    the right edge of the panel, next to the two columns [x1] and [x2]
    between [y1] and [y2]. *)
Theorem DrawRectColor_reversed_narrow
    (fuel : nat) (x1 y1 x2 y2 color : Z) (buf : list Z) :
  promotes r = true ->
  well_sized width height buf -> 0 <= color < 65536 ->
  0 <= x2 -> x2 + 1 < x1 -> x1 < 2 ^ fast_bits r ->
  0 <= y1 <= y2 -> y2 + 1 < 2 ^ fast_bits r ->
  (Z.to_nat (Z.max width height) < fuel)%nat ->
  exists buf',
    DrawRectColor width height r fuel x1 y1 x2 y2 color buf = Done buf'
    /\ forall a b, on_panel width height a b ->
         (((b = y1 \/ b = y2) /\ x1 <= a)
          \/ ((a = x1 \/ a = x2) /\ y1 <= b <= y2) ->
          read_pixel width buf' a b = Some color)
         /\ (~ (((b = y1 \/ b = y2) /\ x1 <= a)
                \/ ((a = x1 \/ a = x2) /\ y1 <= b <= y2)) ->
               read_pixel width buf' a b = read_pixel width buf a b).
Proof.
  intros Hp Hb Hc Hx2 Hx Hx1 Hy Hy2 Hfuel.
  rewrite DrawRectColor_spans by (assumption || lia).
  rewrite (extent_reversed_narrow r x1 x2 Hp Hx2 Hx Hx1).
  destruct (extent_ordered r y1 y2 Hy Hy2) as [_ ->].
  eexists. split; [reflexivity|].
  intros a b Hpn. pose proof Hpn as [Ha Hbb].
  match goal with
  | |- context [plot_all width height color ?pts buf] =>
      destruct (plot_all_reads color pts buf a b) as [Hin Hout];
        try assumption;
        [repeat apply Forall_app_2;
           first [apply hspan_nonneg | apply vspan_nonneg]; lia|]
  end.
  split.
  - intros Hs. apply Hin.
    rewrite !in_app_iff, !In_hspan, !In_vspan. lia.
  - intros Hs. apply Hout.
    rewrite !in_app_iff, !In_hspan, !In_vspan. lia.
Qed.

End Raster.

(** ** Filled rectangles and fill *)

Section Filled.

Variables width height : Z.
Variable r : fast8_rank.

Hypothesis width_fits : width < 2 ^ fast_bits r.
Hypothesis height_fits : height < 2 ^ fast_bits r.

(** The two bytes of a plotted pixel of the panel. *)
Lemma set_pixel_bytes_same (color : Z) (buf : list Z) (x y : Z) :
  well_sized width height buf -> on_panel width height x y ->
  set_pixel width height color buf (x, y) !! Z.to_nat (pixel_index width x y)
  = Some (u8 (Z.shiftr color 8))
  /\ set_pixel width height color buf (x, y) !! Z.to_nat (pixel_index width x y + 1)
     = Some (u8 (Z.land color 0xFF)).
Proof.
  intros Hb Hp. pose proof Hp as [Hx Hy].
  destruct (pixel_index_bounds width height x y Hp) as [H0 H1].
  unfold well_sized in Hb. unfold set_pixel.
  destruct (width <=? x) eqn:E1; [lia|].
  destruct (height <=? y) eqn:E2; [lia|]. simpl. split.
  - rewrite (list_lookup_insert_ne _ (Z.to_nat (pixel_index width x y + 1))
               (Z.to_nat (pixel_index width x y))) by lia.
    apply list_lookup_insert_eq. lia.
  - apply list_lookup_insert_eq. rewrite length_insert. lia.
Qed.

Lemma set_pixel_bytes_other (color : Z) (buf : list Z) (p : Z * Z) (x y : Z) :
  0 <= fst p -> 0 <= snd p -> on_panel width height x y -> p <> (x, y) ->
  set_pixel width height color buf p !! Z.to_nat (pixel_index width x y)
  = buf !! Z.to_nat (pixel_index width x y)
  /\ set_pixel width height color buf p !! Z.to_nat (pixel_index width x y + 1)
     = buf !! Z.to_nat (pixel_index width x y + 1).
Proof.
  destruct p as [a b]. simpl. intros Ha Hb Hp Hne. unfold set_pixel.
  destruct (width <=? a) eqn:E1; [split; reflexivity|].
  destruct (height <=? b) eqn:E2; [split; reflexivity|]. simpl.
  assert (Hq : on_panel width height a b) by (split; lia).
  destruct (pixel_index_bounds width height x y Hp) as [H0 H1].
  destruct (pixel_index_bounds width height a b Hq) as [H2 H3].
  assert (Hi : pixel_index width a b <> pixel_index width x y).
  { intros Heq. apply (pixel_index_inj width height a b x y Hq Hp) in Heq as [-> ->].
    now apply Hne. }
  assert (He : exists k, pixel_index width a b = 2 * k)
    by (exists (b * width + a); unfold pixel_index; lia).
  assert (He' : exists k, pixel_index width x y = 2 * k)
    by (exists (y * width + x); unfold pixel_index; lia).
  destruct He as [k Hk]. destruct He' as [k' Hk'].
  split; rewrite !list_lookup_insert_ne by lia; reflexivity.
Qed.

Lemma plot_all_bytes_in (color : Z) (pts : list (Z * Z)) (buf : list Z) (x y : Z) :
  well_sized width height buf ->
  Forall (fun p => 0 <= fst p /\ 0 <= snd p) pts ->
  on_panel width height x y -> In (x, y) pts ->
  plot_all width height color pts buf !! Z.to_nat (pixel_index width x y)
  = Some (u8 (Z.shiftr color 8))
  /\ plot_all width height color pts buf !! Z.to_nat (pixel_index width x y + 1)
     = Some (u8 (Z.land color 0xFF)).
Proof.
  intros Hb Hpos Hp. revert buf Hb.
  induction pts as [|p pts IH] using rev_ind; intros buf Hb Hin; [destruct Hin|].
  unfold plot_all. rewrite fold_left_app. simpl.
  fold (plot_all width height color pts buf).
  apply Forall_app in Hpos as [Hpos Hlast].
  apply Forall_cons in Hlast as [[Hp1 Hp2] _].
  destruct (decide (p = (x, y))) as [->|Hne].
  - apply set_pixel_bytes_same; [now apply plot_all_well_sized|exact Hp].
  - destruct (set_pixel_bytes_other color (plot_all width height color pts buf)
                p x y Hp1 Hp2 Hp Hne) as [-> ->].
    apply IH; [exact Hpos|exact Hb|].
    apply in_app_or in Hin as [Hin|[Heq|[]]]; [exact Hin|contradiction].
Qed.

(** The outer loop of [DrawRectFilled] started at row [j] plots, row by
    row, the pixels between [x] and the end of the horizontal span, down
    to the end of the vertical span or the bottom edge. *)
Lemma DrawRectFilled_loop_rows (inner fuel : nat) (x y w h color j : Z)
    (buf : list Z) :
  well_sized width height buf -> 0 <= x -> 0 <= j ->
  (Z.to_nat width < inner)%nat ->
  (Z.to_nat (height - j) < fuel)%nat ->
  DrawRectFilled_loop width height r inner fuel x y w h color j buf
  = Done (plot_all width height color
            (rows x (Z.min (span_end r x w) width)
                  j (Z.min (span_end r y h) height)) buf).
Proof.
  revert j buf. induction fuel as [|fuel IH]; intros j buf Hb Hx Hj Hin Hfuel; [lia|].
  cbn [DrawRectFilled_loop]. fold (span_end r y h).
  destruct ((j <? span_end r y h) && (j <? height)) eqn:Hc.
  - apply andb_prop in Hc as [H1 H2]. apply Z.ltb_lt in H1, H2.
    rewrite (DrawHLineColor_loop_span width height r width_fits)
      by (assumption || lia).
    cbn [mbind outcome_bind]. rewrite fast_small by lia.
    rewrite IH; [|now apply plot_all_well_sized|lia|lia|exact Hin|lia].
    rewrite <- plot_all_app. rewrite (rows_cons x _ j) by lia. reflexivity.
  - rewrite rows_nil; [reflexivity|].
    apply andb_false_iff in Hc as [Hc|Hc]; apply Z.ltb_ge in Hc; lia.
Qed.

(** X10.  [DrawRectFilled(x, y, w, h, color)], when [x + w] and [y + h]
    do not exceed the range of the type they are computed in, paints
    exactly the pixels of the panel with [x <= a < x + w] and
    [y <= b < y + h]: the rectangle is clipped edge by edge, a zero
    width or height paints nothing, and every other pixel keeps its
    colour. *)
Theorem DrawRectFilled_exact (fuel : nat) (x y w h color : Z) (buf : list Z) :
  well_sized width height buf -> 0 <= color < 65536 ->
  0 <= x < 2 ^ fast_bits r -> 0 <= w < 2 ^ fast_bits r ->
  0 <= y < 2 ^ fast_bits r -> 0 <= h < 2 ^ fast_bits r ->
  promotes r = true \/ (x + w < 2 ^ fast_bits r /\ y + h < 2 ^ fast_bits r) ->
  (Z.to_nat (Z.max width height) < fuel)%nat ->
  exists buf',
    DrawRectFilled width height r fuel x y w h color buf = Done buf'
    /\ well_sized width height buf'
    /\ forall a b, on_panel width height a b ->
         (x <= a < x + w /\ y <= b < y + h ->
          read_pixel width buf' a b = Some color)
         /\ (~ (x <= a < x + w /\ y <= b < y + h) ->
               read_pixel width buf' a b = read_pixel width buf a b).
Proof.
  intros Hb Hc Hx Hw Hy Hh Hcase Hfuel. unfold DrawRectFilled.
  rewrite DrawRectFilled_loop_rows by (assumption || lia).
  rewrite !span_end_exact by (assumption || tauto).
  eexists. split; [reflexivity|]. split; [now apply plot_all_well_sized|].
  intros a b Hp. pose proof Hp as [Ha Hbb].
  match goal with
  | |- context [plot_all width height color ?pts buf] =>
      destruct (plot_all_reads width height color pts buf a b) as [Hin Hout];
        try assumption; [apply rows_nonneg; lia|]
  end.
  split.
  - intros Hs. apply Hin. apply In_rows. lia.
  - intros Hs. apply Hout. rewrite In_rows. lia.
Qed.

(** X11.  A filled rectangle over the whole panel is a fill:
    [DrawRectFilled(0, 0, width, height, color)] and [FillColor(color)]
    return the same framebuffer. *)
Theorem DrawRectFilled_full_is_FillColor (fuel : nat) (color : Z) (buf : list Z) :
  well_sized width height buf -> 0 < width -> 0 < height ->
  (Z.to_nat (width * height) < fuel)%nat ->
  exists buf',
    DrawRectFilled width height r fuel 0 0 width height color buf = Done buf'
    /\ FillColor width height fuel color buf = Done buf'.
Proof.
  intros Hb Hw Hh Hfuel.
  assert (Hmax : (Z.to_nat (Z.max width height) < fuel)%nat) by nia.
  destruct (FillColor_Done width height fuel color buf Hb Hfuel)
    as (b2 & Hrun & Hb2 & Hall).
  unfold DrawRectFilled.
  rewrite DrawRectFilled_loop_rows by (assumption || lia).
  pose proof (fast_modulus_ge r) as HM.
  rewrite !span_end_exact by lia.
  rewrite !Z.add_0_l, !Z.min_id.
  eexists. split; [reflexivity|]. rewrite Hrun. f_equal. symmetry.
  apply (filled_unique width height (u8 (Z.shiftr color 8)) (u8 (Z.land color 0xFF)));
    [now apply plot_all_well_sized|exact Hb2| |exact Hall].
  intros m Hm.
  assert (Hp : on_panel width height (m mod width) (m / width)).
  { split; [apply Z.mod_pos_bound; lia|].
    split; [apply Z.div_pos; lia|apply Z.div_lt_upper_bound; lia]. }
  destruct (plot_all_bytes_in color (rows 0 width 0 height) buf
              (m mod width) (m / width) Hb) as [A B];
    [apply rows_nonneg; lia|exact Hp|apply In_rows; destruct Hp; lia|].
  assert (Hidx : pixel_index width (m mod width) (m / width) = 2 * m).
  { unfold pixel_index. pose proof (Z.div_mod m width ltac:(lia)). lia. }
  rewrite Hidx in A, B. split; assumption.
Qed.

(** X12.  [FillColor(color)] terminates after [width * height] rounds of
    its loop, leaves every pixel of the panel reading [color], and its
    result does not depend on what the framebuffer held: whatever was
    drawn before is erased. *)
Theorem FillColor_erases (fuel : nat) (color : Z) (buf other : list Z) :
  well_sized width height buf -> well_sized width height other ->
  0 <= color < 65536 ->
  (Z.to_nat (width * height) < fuel)%nat ->
  exists buf',
    FillColor width height fuel color buf = Done buf'
    /\ FillColor width height fuel color other = Done buf'
    /\ well_sized width height buf'
    /\ forall x y, on_panel width height x y ->
         read_pixel width buf' x y = Some color.
Proof.
  intros Hb Ho Hc Hfuel.
  destruct (FillColor_Done width height fuel color buf Hb Hfuel)
    as (b1 & Hrun1 & Hb1 & Hall1).
  destruct (FillColor_Done width height fuel color other Ho Hfuel)
    as (b2 & Hrun2 & Hb2 & Hall2).
  assert (b2 = b1)
    by (eapply filled_unique; [exact Hb2|exact Hb1|exact Hall2|exact Hall1]).
  subst b2. exists b1.
  split; [exact Hrun1|]. split; [exact Hrun2|]. split; [exact Hb1|].
  intros x y Hp.
  eapply FillColor_read; [exact Hb|exact Hfuel|exact Hc|exact Hrun1|exact Hp].
Qed.

End Filled.

(** ** The two-tone entry points and the theme *)

Section TwoTone.

Variables width height : Z.

(** X13.  The two-tone entry points draw with the theme: after
    [SetTheme(fg, bg, accent)], on a screen cleared by [Fill(false)],
    [DrawPixel(x, y, true)] leaves the foreground colour at [(x, y)] (when
    it is on the panel) and the background colour everywhere else, and
    [DrawPixel(x, y, false)] then restores the cleared screen exactly.
    The colours are the arguments of [SetTheme] reduced to 16 bits. *)
Theorem DrawPixel_on_off (fuel : nat) (fg bg accent x y : Z) (d0 : driver) :
  well_sized width height (buffer_ d0) -> 0 <= x -> 0 <= y ->
  (Z.to_nat (width * height) < fuel)%nat ->
  exists cleared lit,
    Fill width height fuel false (SetTheme fg bg accent d0) = Done cleared
    /\ DrawPixel width height x y true cleared = Done lit
    /\ DrawPixel width height x y false lit = Done cleared
    /\ (on_panel width height x y ->
          read_pixel width (buffer_ lit) x y = Some (u16 fg))
    /\ (forall a b, on_panel width height a b -> (a, b) <> (x, y) ->
          read_pixel width (buffer_ lit) a b = Some (u16 bg))
    /\ GetForegroundColor lit = u16 fg
    /\ GetBackgroundColor lit = u16 bg
    /\ GetAccentColor lit = u16 accent
    /\ transport_ lit = transport_ d0.
Proof.
  intros Hb Hx Hy Hfuel.
  assert (Hfg : 0 <= u16 fg < 65536) by (unfold u16; apply Z.mod_pos_bound; lia).
  assert (Hbg : 0 <= u16 bg < 65536) by (unfold u16; apply Z.mod_pos_bound; lia).
  destruct (FillColor_Done width height fuel (u16 bg) (buffer_ d0) Hb Hfuel)
    as (b1 & Hrun & Hb1 & Hall).
  unfold Fill, DrawPixel. cbn [theme_color SetTheme background_color_ buffer_].
  rewrite Hrun. cbn [mbind outcome_bind].
  eexists. eexists. split; [reflexivity|].
  cbn [theme_color with_buffer SetTheme foreground_color_ background_color_ buffer_].
  rewrite (DrawPixelColor_Done width height x y (u16 fg) b1) by assumption.
  cbn [mbind outcome_bind]. split; [reflexivity|].
  cbn [theme_color with_buffer SetTheme foreground_color_ background_color_ buffer_].
  rewrite DrawPixelColor_Done by (try apply set_pixel_well_sized; assumption).
  cbn [mbind outcome_bind].
  assert (Hread : forall a b, on_panel width height a b ->
                    read_pixel width b1 a b = Some (u16 bg)).
  { intros a b Hp.
    eapply FillColor_read; [exact Hb|exact Hfuel|exact Hbg|exact Hrun|exact Hp]. }
  assert (Hsame : set_pixel width height (u16 bg)
                    (set_pixel width height (u16 fg) b1 (x, y)) (x, y) = b1).
  { rewrite set_pixel_overwrite. unfold set_pixel.
    destruct (width <=? x) eqn:E1; [reflexivity|].
    destruct (height <=? y) eqn:E2; [reflexivity|]. cbn [orb].
    assert (Hm : 0 <= y * width + x < width * height) by nia.
    destruct (Hall _ Hm) as [A B].
    unfold pixel_index.
    replace ((y * width + x) * 2) with (2 * (y * width + x)) by lia.
    rewrite (list_insert_id b1 _ _ A).
    now rewrite (list_insert_id b1 _ _ B). }
  split.
  { unfold with_buffer.
    cbn [transport_ buffer_ foreground_color_ background_color_ accent_color_ SetTheme].
    now rewrite Hsame. }
  cbn [transport_ buffer_ foreground_color_ background_color_ accent_color_
       SetTheme with_buffer GetForegroundColor GetBackgroundColor GetAccentColor].
  split.
  { intros Hp. now apply read_pixel_set_pixel_same. }
  split.
  { intros a b Hp Hne.
    rewrite read_pixel_set_pixel_other by (simpl; assumption || congruence).
    now apply Hread. }
  repeat split; reflexivity.
Qed.

End TwoTone.

(** ** The bus *)

Lemma cs_discipline_app (cs0 lvl : bool) (t es : list bus_event) :
  cs_discipline cs0 t = Some lvl ->
  cs_discipline cs0 (t ++ es) = cs_discipline lvl es.
Proof.
  revert cs0. induction t as [|e t IH]; intros cs0 H.
  - simpl in H. now injection H as ->.
  - destruct e as [l pin|l v| |bytes|ms]; simpl in H |- *;
      try (now apply IH).
    + destruct l; now apply IH.
    + destruct cs0; [discriminate H|now apply IH].
Qed.

(** X14.  The transport keeps the chip-select discipline: if so far
    every byte was transmitted with chip-select low, then after
    [SendCommand], after [SendData] and after the transport's [Init] this
    is still so, and chip-select is left high, whatever its level
    before the call and whatever is sent. *)
Theorem transport_keeps_discipline
    (cs0 lvl : bool) (t : transport) (cmd : Z) (buff : list Z) (size : Z)
    (config : pin_config) :
  cs_discipline cs0 t = Some lvl ->
  cs_discipline cs0 (SendCommand cmd t) = Some true
  /\ cs_discipline cs0 (SendData buff size t) = Some true
  /\ cs_discipline cs0 (transport_Init config t) = Some true.
Proof.
  intros H. unfold SendCommand, SendData, transport_Init.
  rewrite !(cs_discipline_app cs0 lvl t _ H).
  repeat split; reflexivity.
Qed.

(** X15.  The panel reads what the transport was asked to send:
    whatever the levels of the two lines before the call, the events of
    one [SendCommand(cmd)] decode to the single command byte [cmd], and
    those of one [SendData(buff, size)] to one parameter block holding
    the first [size] bytes of [buff]. *)
Theorem transport_round_trip
    (dc0 cs0 : bool) (t : transport) (cmd : Z) (buff : list Z) (size : Z) :
  0 <= cmd < 256 -> 0 <= size <= Z.of_nat (length buff) ->
  decode_from dc0 cs0 (drop (length t) (SendCommand cmd t)) = [Command cmd]
  /\ decode_from dc0 cs0 (drop (length t) (SendData buff size t))
     = [Parameters (take (Z.to_nat size) buff)]
  /\ Z.of_nat (length (take (Z.to_nat size) buff)) = size.
Proof.
  intros Hc Hs. unfold SendCommand, SendData.
  rewrite !drop_app_length. simpl.
  unfold u8. rewrite Z.mod_small by lia.
  repeat split; try reflexivity.
  rewrite length_take. lia.
Qed.

Section Frame.

Variables width height : Z.

Lemma Update_discipline (d : driver) (cs0 lvl : bool) :
  cs_discipline cs0 (transport_ d) = Some lvl ->
  cs_discipline cs0 (transport_ (Update width height d)) = Some true.
Proof.
  intros H. rewrite Update_history, Update_emitted.
  rewrite (cs_discipline_app cs0 lvl _ _ H). reflexivity.
Qed.

(** X16.  [Update] is a pure presenter with a fixed cost: it changes
    neither the framebuffer nor the theme, it shifts out exactly
    [11 + width * height * 2] bytes (three command bytes, eight window
    parameters, the whole framebuffer) in six chip-select windows, and
    it keeps the chip-select discipline of the bus. *)
Theorem Update_cost (d : driver) (cs0 lvl : bool) :
  well_sized width height (buffer_ d) ->
  cs_discipline cs0 (transport_ d) = Some lvl ->
  Z.of_nat (length (wire_bytes (emitted d (Update width height d))))
  = 11 + width * height * 2
  /\ length (decode (emitted d (Update width height d))) = 6%nat
  /\ buffer_ (Update width height d) = buffer_ d
  /\ foreground_color_ (Update width height d) = foreground_color_ d
  /\ background_color_ (Update width height d) = background_color_ d
  /\ accent_color_ (Update width height d) = accent_color_ d
  /\ cs_discipline cs0 (transport_ (Update width height d)) = Some true.
Proof.
  intros Hb Hcs.
  split.
  { rewrite Update_emitted. cbn [wire_bytes flat_map app].
    rewrite take_ge by (unfold well_sized in Hb; lia).
    rewrite app_nil_r.
    cbn [length]. unfold well_sized, sizeof_buffer in Hb. lia. }
  split; [rewrite Update_emitted; reflexivity|].
  split; [reflexivity|]. split; [reflexivity|].
  split; [reflexivity|]. split; [reflexivity|].
  exact (Update_discipline d cs0 lvl Hcs).
Qed.

End Frame.

(** ** More on lines *)

Section WalkShape.

Variables dx dy : Z.

(** When [dx >= dy] every round steps along x, so the walk has one point
    per column. *)
Lemma bresenham_length_wide (fuel : nat) (i j err : Z) (pts : list (Z * Z)) :
  dy <= dx -> on_walk dx dy i j err ->
  (i = dx /\ j = dy) \/ (2 * err > - dy /\ (dx = dy -> err = 0)) ->
  bresenham fuel dx dy i j err = Done pts ->
  Z.of_nat (length pts) = dx - i + 1.
Proof.
  intros Hd. revert i j err pts.
  induction fuel as [|fuel IH]; intros i j err pts Hw Hinv Hrun;
    [discriminate Hrun|].
  simpl in Hrun. destruct ((i =? dx) && (j =? dy)) eqn:Hend.
  - injection Hrun as <-. apply andb_prop in Hend as [->%Z.eqb_eq _].
    simpl. lia.
  - pose proof (x_step_room dx dy i j err Hw Hend) as Rx.
    pose proof (y_step_room dx dy i j err Hw Hend) as Ry.
    pose proof Hw as (Hi & Hj & Herr & Hband).
    destruct Hinv as [[-> ->]|[Hpos Hdiag]];
      [rewrite !Z.eqb_refl in Hend; discriminate Hend|].
    destruct (2 * err >? - dy) eqn:C1;
      [apply Z.gtb_lt in C1|rewrite Z.gtb_ltb in C1; apply Z.ltb_ge in C1; lia].
    destruct (2 * err <? dx) eqn:C2;
      [apply Z.ltb_lt in C2|apply Z.ltb_ge in C2];
      cbv beta iota zeta in Hrun;
      match type of Hrun with
      | context [bresenham ?a ?b ?c ?d ?e ?f] =>
          destruct (bresenham a b c d e f) as [ps| |] eqn:Hrec; try discriminate Hrun
      end; injection Hrun as <-.
    + apply IH in Hrec.
      * simpl length. lia.
      * apply on_walk_xy; auto; lia.
      * right. split; [lia|]. intros E. specialize (Hdiag E). lia.
    + apply IH in Hrec.
      * simpl length. lia.
      * apply on_walk_x; auto; lia.
      * right. assert (dx <> dy).
        { intros E. specialize (Hdiag E). subst err.
          assert (dx = 0) by lia. assert (i = 0 /\ j = 0) as [-> ->] by lia.
          assert (dy = 0) by lia. subst dx dy. discriminate Hend. }
        split; [lia|]. intros E. contradiction.
Qed.

(** When [dy >= dx] every round steps along y. *)
Lemma bresenham_length_tall (fuel : nat) (i j err : Z) (pts : list (Z * Z)) :
  dx <= dy -> on_walk dx dy i j err ->
  (i = dx /\ j = dy) \/ (2 * err < dx /\ (dx = dy -> err = 0)) ->
  bresenham fuel dx dy i j err = Done pts ->
  Z.of_nat (length pts) = dy - j + 1.
Proof.
  intros Hd. revert i j err pts.
  induction fuel as [|fuel IH]; intros i j err pts Hw Hinv Hrun;
    [discriminate Hrun|].
  simpl in Hrun. destruct ((i =? dx) && (j =? dy)) eqn:Hend.
  - injection Hrun as <-. apply andb_prop in Hend as [_ ->%Z.eqb_eq].
    simpl. lia.
  - pose proof (x_step_room dx dy i j err Hw Hend) as Rx.
    pose proof (y_step_room dx dy i j err Hw Hend) as Ry.
    pose proof Hw as (Hi & Hj & Herr & Hband).
    destruct Hinv as [[-> ->]|[Hneg Hdiag]];
      [rewrite !Z.eqb_refl in Hend; discriminate Hend|].
    destruct (2 * err <? dx) eqn:C2;
      [apply Z.ltb_lt in C2|apply Z.ltb_ge in C2; lia].
    destruct (2 * err >? - dy) eqn:C1;
      [apply Z.gtb_lt in C1|rewrite Z.gtb_ltb in C1; apply Z.ltb_ge in C1];
      cbv beta iota zeta in Hrun;
      match type of Hrun with
      | context [bresenham ?a ?b ?c ?d ?e ?f] =>
          destruct (bresenham a b c d e f) as [ps| |] eqn:Hrec; try discriminate Hrun
      end; injection Hrun as <-.
    + apply IH in Hrec.
      * simpl length. lia.
      * apply on_walk_xy; auto; lia.
      * right. split; [lia|]. intros E. specialize (Hdiag E). lia.
    + apply IH in Hrec.
      * simpl length. lia.
      * apply on_walk_y; auto; lia.
      * right. assert (dx <> dy).
        { intros E. specialize (Hdiag E). subst err.
          assert (dy = 0) by lia. assert (i = 0 /\ j = 0) as [-> ->] by lia.
          assert (dx = 0) by lia. subst dx dy. discriminate Hend. }
        split; [lia|]. intros E. contradiction.
Qed.

Lemma bresenham_length (fuel : nat) (pts : list (Z * Z)) :
  0 <= dx -> 0 <= dy ->
  bresenham fuel dx dy 0 0 (dx - dy) = Done pts ->
  Z.of_nat (length pts) = Z.max dx dy + 1.
Proof.
  intros Hx Hy Hrun. pose proof (on_walk_start dx dy Hx Hy) as Hw.
  destruct (Z_le_gt_dec dy dx) as [Hd|Hd].
  - rewrite (bresenham_length_wide fuel 0 0 _ pts Hd Hw); [lia| |exact Hrun].
    destruct (Z.eq_dec dx 0) as [->|N]; [left; lia|right; lia].
  - rewrite (bresenham_length_tall fuel 0 0 _ pts ltac:(lia) Hw); [lia| |exact Hrun].
    right. lia.
Qed.

(** Each round moves by one along x, along y, or along both. *)
Lemma bresenham_chained (fuel : nat) (i j err : Z) (pts : list (Z * Z)) :
  on_walk dx dy i j err ->
  bresenham fuel dx dy i j err = Done pts ->
  head pts = Some (i, j) /\ chained pts.
Proof.
  revert i j err pts.
  induction fuel as [|fuel IH]; intros i j err pts Hw Hrun; [discriminate Hrun|].
  simpl in Hrun. destruct ((i =? dx) && (j =? dy)) eqn:Hend.
  - injection Hrun as <-. split; [reflexivity|exact I].
  - pose proof (x_step_room dx dy i j err Hw Hend) as Rx.
    pose proof (y_step_room dx dy i j err Hw Hend) as Ry.
    pose proof (step_progress dx dy i j err Hw Hend) as Pr.
    destruct (2 * err >? - dy) eqn:C1; destruct (2 * err <? dx) eqn:C2;
      try apply Z.gtb_lt in C1; try apply Z.ltb_lt in C2;
      try (apply Z.ltb_ge in C2); try (rewrite Z.gtb_ltb in C1; apply Z.ltb_ge in C1);
      try lia;
      cbv beta iota zeta in Hrun;
      match type of Hrun with
      | context [bresenham ?a ?b ?c ?d ?e ?f] =>
          destruct (bresenham a b c d e f) as [ps| |] eqn:Hrec; try discriminate Hrun
      end; injection Hrun as <-; (split; [reflexivity|]).
    + destruct (IH _ _ _ _ (on_walk_xy dx dy i j err Hw ltac:(lia) ltac:(lia)
                              ltac:(lia) ltac:(lia)) Hrec) as [Hh Hc].
      destruct ps as [|q ps]; [discriminate Hh|]. injection Hh as ->.
      split; [|exact Hc]. unfold neighbours. simpl.
      split; [intros [= ? ?]; lia|lia].
    + destruct (IH _ _ _ _ (on_walk_x dx dy i j err Hw ltac:(lia) ltac:(lia)
                              ltac:(lia)) Hrec) as [Hh Hc].
      destruct ps as [|q ps]; [discriminate Hh|]. injection Hh as ->.
      split; [|exact Hc]. unfold neighbours. simpl.
      split; [intros [= ?]; lia|lia].
    + destruct (IH _ _ _ _ (on_walk_y dx dy i j err Hw ltac:(lia) ltac:(lia)
                              ltac:(lia)) Hrec) as [Hh Hc].
      destruct ps as [|q ps]; [discriminate Hh|]. injection Hh as ->.
      split; [|exact Hc]. unfold neighbours. simpl.
      split; [intros [= ?]; lia|lia].
Qed.

End WalkShape.

Lemma chained_map_place (x1 y1 sx sy : Z) (pts : list (Z * Z)) :
  sx = 1 \/ sx = -1 -> sy = 1 \/ sy = -1 ->
  chained pts -> chained (map (place x1 y1 sx sy) pts).
Proof.
  intros Hsx Hsy. induction pts as [|p pts IH]; [intros; exact I|].
  destruct pts as [|q pts]; [intros; exact I|].
  intros [(Hne & Hx & Hy) Hc]. split; [|now apply IH].
  unfold neighbours, place. simpl. split.
  - intros [= E1 E2]. apply Hne. destruct p, q. simpl in *. f_equal; nia.
  - split; nia.
Qed.

(** A horizontal walk is the row of its columns, a vertical walk the
    column of its rows. *)
Lemma bresenham_flat (fuel : nat) (dx i : Z) :
  0 <= i <= dx -> (Z.to_nat (dx - i) < fuel)%nat ->
  bresenham fuel dx 0 i 0 dx = Done (hspan 0 i (dx + 1)).
Proof.
  revert i. induction fuel as [|fuel IH]; intros i Hi Hfuel; [lia|].
  cbn [bresenham]. rewrite (hspan_cons 0 i) by lia.
  change (0 =? 0) with true. rewrite andb_true_r.
  destruct (Z.eqb_spec i dx) as [->|Hne].
  - now rewrite hspan_nil by lia.
  - change (- 0) with 0.
    destruct (2 * dx >? 0) eqn:C1;
      [|rewrite Z.gtb_ltb in C1; apply Z.ltb_ge in C1; lia].
    destruct (2 * dx <? dx) eqn:C2; [apply Z.ltb_lt in C2; lia|].
    cbv beta iota zeta. rewrite Z.sub_0_r. rewrite IH by lia. reflexivity.
Qed.

Lemma bresenham_upright (fuel : nat) (dy j : Z) :
  0 <= j <= dy -> (Z.to_nat (dy - j) < fuel)%nat ->
  bresenham fuel 0 dy 0 j (- dy) = Done (vspan 0 j (dy + 1)).
Proof.
  revert j. induction fuel as [|fuel IH]; intros j Hj Hfuel; [lia|].
  cbn [bresenham]. rewrite (vspan_cons 0 j) by lia.
  change (0 =? 0) with true. rewrite andb_true_l.
  destruct (Z.eqb_spec j dy) as [->|Hne].
  - now rewrite vspan_nil by lia.
  - destruct (2 * - dy >? - dy) eqn:C1; [apply Z.gtb_lt in C1; lia|].
    destruct (2 * - dy <? 0) eqn:C2; [|apply Z.ltb_ge in C2; lia].
    cbv beta iota zeta. rewrite Z.add_0_r. rewrite IH by lia. reflexivity.
Qed.

Lemma hspan_app (y lo mid hi : Z) :
  lo <= mid <= hi -> hspan y lo hi = hspan y lo mid ++ hspan y mid hi.
Proof.
  intros H. unfold hspan. rewrite <- map_app. f_equal.
  replace (hi - lo) with ((mid - lo) + (hi - mid)) by lia.
  rewrite seqZ_app by lia. do 2 f_equal; lia.
Qed.

Lemma vspan_app (x lo mid hi : Z) :
  lo <= mid <= hi -> vspan x lo hi = vspan x lo mid ++ vspan x mid hi.
Proof.
  intros H. unfold vspan. rewrite <- map_app. f_equal.
  replace (hi - lo) with ((mid - lo) + (hi - mid)) by lia.
  rewrite seqZ_app by lia. do 2 f_equal; lia.
Qed.

Lemma map_place_hspan (x1 y sy : Z) (n : nat) (i hi : Z) :
  Z.of_nat n = hi - i ->
  map (place x1 y 1 sy) (hspan 0 i hi) = hspan y (x1 + i) (x1 + hi).
Proof.
  revert i. induction n as [|n IH]; intros i Hn.
  - now rewrite !hspan_nil by lia.
  - rewrite (hspan_cons 0 i), (hspan_cons y (x1 + i)) by lia. simpl.
    rewrite IH by lia. unfold place. simpl.
    f_equal; [f_equal; lia|]. f_equal. lia.
Qed.

Lemma map_place_vspan (x y1 sx : Z) (n : nat) (j hi : Z) :
  Z.of_nat n = hi - j ->
  map (place x y1 sx 1) (vspan 0 j hi) = vspan x (y1 + j) (y1 + hi).
Proof.
  revert j. induction n as [|n IH]; intros j Hn.
  - now rewrite !vspan_nil by lia.
  - rewrite (vspan_cons 0 j), (vspan_cons x (y1 + j)) by lia. simpl.
    rewrite IH by lia. unfold place. simpl.
    f_equal; [f_equal; lia|]. f_equal. lia.
Qed.

Section LineShape.

Variables width height : Z.
Variable r : fast8_rank.

Lemma plot_all_off_panel (color : Z) (pts : list (Z * Z)) (buf : list Z) :
  Forall (fun p => width <= fst p \/ height <= snd p) pts ->
  plot_all width height color pts buf = buf.
Proof.
  induction pts as [|[a b] pts IH]; intros H; [reflexivity|].
  apply Forall_cons in H as [Hp H]. simpl in Hp.
  change (plot_all width height color ((a, b) :: pts) buf)
    with (plot_all width height color pts (set_pixel width height color buf (a, b))).
  rewrite set_pixel_clipped by exact Hp. now apply IH.
Qed.

(** Plotting a row beyond the right edge, or a column beyond the bottom
    edge, is plotting its part on the panel. *)
Lemma plot_all_hspan_clip (color y lo hi : Z) (buf : list Z) :
  plot_all width height color (hspan y lo hi) buf
  = plot_all width height color (hspan y lo (Z.min hi width)) buf.
Proof.
  destruct (Z_le_gt_dec hi width) as [H|H]; [now rewrite Z.min_l by lia|].
  rewrite Z.min_r by lia.
  destruct (Z_le_gt_dec width lo) as [Hlo|Hlo].
  - rewrite (hspan_nil y lo width) by lia.
    apply plot_all_off_panel. apply Forall_forall. intros [a b] Hin.
    apply list_elem_of_In, In_hspan in Hin. simpl. lia.
  - rewrite (hspan_app y lo width hi) by lia. rewrite plot_all_app.
    apply plot_all_off_panel. apply Forall_forall. intros [a b] Hin.
    apply list_elem_of_In, In_hspan in Hin. simpl. lia.
Qed.

Lemma plot_all_vspan_clip (color x lo hi : Z) (buf : list Z) :
  plot_all width height color (vspan x lo hi) buf
  = plot_all width height color (vspan x lo (Z.min hi height)) buf.
Proof.
  destruct (Z_le_gt_dec hi height) as [H|H]; [now rewrite Z.min_l by lia|].
  rewrite Z.min_r by lia.
  destruct (Z_le_gt_dec height lo) as [Hlo|Hlo].
  - rewrite (vspan_nil x lo height) by lia.
    apply plot_all_off_panel. apply Forall_forall. intros [a b] Hin.
    apply list_elem_of_In, In_vspan in Hin. simpl. lia.
  - rewrite (vspan_app x lo height hi) by lia. rewrite plot_all_app.
    apply plot_all_off_panel. apply Forall_forall. intros [a b] Hin.
    apply list_elem_of_In, In_vspan in Hin. simpl. lia.
Qed.

(** X17.  A line never leaves the box spanned by its endpoints: every
    plot of [DrawLineColor] lies between the two endpoints along both
    axes.  Between two endpoints on the panel no plot is clipped, so
    every plotted pixel reads [color] afterwards, and every pixel that
    was not plotted keeps its colour. *)
Theorem DrawLineColor_inside
    (fuel : nat) (x1 y1 x2 y2 color : Z) (buf : list Z) :
  well_sized width height buf -> 0 <= color < 65536 ->
  plain_coord r x1 -> plain_coord r y1 ->
  plain_coord r x2 -> plain_coord r y2 ->
  (Z.to_nat (Z.abs (x2 - x1) + Z.abs (y2 - y1)) < fuel)%nat ->
  exists pts buf',
    line_points r fuel x1 y1 x2 y2 = Done pts
    /\ DrawLineColor width height r fuel x1 y1 x2 y2 color buf = Done buf'
    /\ Forall (fun p => Z.min x1 x2 <= fst p <= Z.max x1 x2
                        /\ Z.min y1 y2 <= snd p <= Z.max y1 y2) pts
    /\ (on_panel width height x1 y1 -> on_panel width height x2 y2 ->
        forall a b, In (a, b) pts ->
          on_panel width height a b /\ read_pixel width buf' a b = Some color)
    /\ (forall a b, on_panel width height a b -> ~ In (a, b) pts ->
          read_pixel width buf' a b = read_pixel width buf a b).
Proof.
  intros Hb Hc Hx1 Hy1 Hx2 Hy2 Hfuel.
  destruct (DrawLineColor_total width height r fuel x1 y1 x2 y2 color buf)
    as (steps & _ & Hbox & _ & _ & _ & Hpts & Hdraw); try assumption.
  set (sx := if x1 <? x2 then 1 else -1) in *.
  set (sy := if y1 <? y2 then 1 else -1) in *.
  assert (Hsx : (x1 < x2 /\ sx = 1) \/ (x2 <= x1 /\ sx = -1))
    by (subst sx; destruct (x1 <? x2) eqn:E;
        [apply Z.ltb_lt in E|apply Z.ltb_ge in E]; lia).
  assert (Hsy : (y1 < y2 /\ sy = 1) \/ (y2 <= y1 /\ sy = -1))
    by (subst sy; destruct (y1 <? y2) eqn:E;
        [apply Z.ltb_lt in E|apply Z.ltb_ge in E]; lia).
  assert (Hin_box : Forall (fun p => Z.min x1 x2 <= fst p <= Z.max x1 x2
                                     /\ Z.min y1 y2 <= snd p <= Z.max y1 y2)
                      (map (place x1 y1 sx sy) steps)).
  { apply Forall_forall. intros p Hin.
    apply list_elem_of_In, in_map_iff in Hin as ([i j] & <- & Hin).
    rewrite Forall_forall in Hbox.
    destruct (Hbox (i, j)) as [Hi Hj]; [now apply list_elem_of_In|].
    simpl in Hi, Hj. unfold place. simpl. nia. }
  assert (Hnn : Forall (fun p : Z * Z => 0 <= fst p /\ 0 <= snd p)
                  (map (place x1 y1 sx sy) steps)).
  { eapply Forall_impl; [exact Hin_box|]. simpl. intros p [? ?].
    destruct Hx1, Hy1, Hx2, Hy2. lia. }
  eexists. eexists. split; [exact Hpts|]. split; [exact Hdraw|].
  split; [exact Hin_box|]. split.
  - intros [Hp1 Hp1'] [Hp2 Hp2'] a b Hin.
    assert (Hp : on_panel width height a b).
    { rewrite Forall_forall in Hin_box.
      destruct (Hin_box (a, b)) as [Ha Hbb]; [now apply list_elem_of_In|].
      simpl in Ha, Hbb. split; lia. }
    split; [exact Hp|]. now apply read_pixel_plot_all_in.
  - intros a b Hp Hnin.
    now apply read_pixel_plot_all_out with (height := height).
Qed.

(** X18.  [DrawLineColor] makes exactly [max(dx, dy) + 1] plots, with
    [dx = |x2 - x1|] and [dy = |y2 - y1|]: one per column when the line
    is closer to horizontal, one per row otherwise. *)
Theorem DrawLineColor_count
    (fuel : nat) (x1 y1 x2 y2 color : Z) (buf : list Z) :
  well_sized width height buf ->
  plain_coord r x1 -> plain_coord r y1 ->
  plain_coord r x2 -> plain_coord r y2 ->
  (Z.to_nat (Z.abs (x2 - x1) + Z.abs (y2 - y1)) < fuel)%nat ->
  exists pts,
    line_points r fuel x1 y1 x2 y2 = Done pts
    /\ DrawLineColor width height r fuel x1 y1 x2 y2 color buf
       = Done (plot_all width height color pts buf)
    /\ Z.of_nat (length pts) = Z.max (Z.abs (x2 - x1)) (Z.abs (y2 - y1)) + 1.
Proof.
  intros Hb Hx1 Hy1 Hx2 Hy2 Hfuel.
  destruct (DrawLineColor_total width height r fuel x1 y1 x2 y2 color buf)
    as (steps & Hrun & _ & _ & _ & _ & Hpts & Hdraw); try assumption.
  eexists. split; [exact Hpts|]. split; [exact Hdraw|].
  rewrite length_map.
  apply (bresenham_length _ _ fuel steps); [lia|lia|exact Hrun].
Qed.

(** X19.  The plots of [DrawLineColor] form a connected path: each one
    is a neighbour of the next, one step away along x, along y or along
    both, and never the same point twice in a row. *)
Theorem DrawLineColor_connected
    (fuel : nat) (x1 y1 x2 y2 color : Z) (buf : list Z) :
  well_sized width height buf ->
  plain_coord r x1 -> plain_coord r y1 ->
  plain_coord r x2 -> plain_coord r y2 ->
  (Z.to_nat (Z.abs (x2 - x1) + Z.abs (y2 - y1)) < fuel)%nat ->
  exists pts,
    line_points r fuel x1 y1 x2 y2 = Done pts
    /\ DrawLineColor width height r fuel x1 y1 x2 y2 color buf
       = Done (plot_all width height color pts buf)
    /\ chained pts.
Proof.
  intros Hb Hx1 Hy1 Hx2 Hy2 Hfuel.
  destruct (DrawLineColor_total width height r fuel x1 y1 x2 y2 color buf)
    as (steps & Hrun & _ & _ & _ & _ & Hpts & Hdraw); try assumption.
  eexists. split; [exact Hpts|]. split; [exact Hdraw|].
  apply chained_map_place.
  - destruct (x1 <? x2); [now left|now right].
  - destruct (y1 <? y2); [now left|now right].
  - eapply (bresenham_chained _ _ fuel 0 0 _ steps);
      [apply on_walk_start; apply Z.abs_nonneg|exact Hrun].
Qed.

Hypothesis width_fits : width < 2 ^ fast_bits r.
Hypothesis height_fits : height < 2 ^ fast_bits r.

(** X20.  The line routine agrees with the span routines on
    axis-aligned segments: from left to right along a row,
    [DrawLineColor(x1, y, x2, y, color)] returns the framebuffer of
    [DrawHLineColor(x1, y, x2 - x1 + 1, color)]; from top to bottom along
    a column, [DrawLineColor(x, y1, x, y2, color)] returns that of
    [DrawVLineColor(x, y1, y2 - y1 + 1, color)]. *)
Theorem DrawLineColor_axis_aligned
    (fuel : nat) (x1 y1 x2 y2 color : Z) (buf : list Z) :
  well_sized width height buf ->
  plain_coord r x1 -> plain_coord r y1 ->
  plain_coord r x2 -> plain_coord r y2 ->
  x1 <= x2 -> y1 <= y2 ->
  x2 + 1 < 2 ^ fast_bits r -> y2 + 1 < 2 ^ fast_bits r ->
  (Z.to_nat (Z.max width height) < fuel)%nat ->
  (Z.to_nat ((x2 - x1) + (y2 - y1)) < fuel)%nat ->
  (y1 = y2 ->
     exists buf',
       DrawLineColor width height r fuel x1 y1 x2 y2 color buf = Done buf'
       /\ DrawHLineColor width height r fuel x1 y1 (x2 - x1 + 1) color buf
          = Done buf')
  /\ (x1 = x2 ->
        exists buf',
          DrawLineColor width height r fuel x1 y1 x2 y2 color buf = Done buf'
          /\ DrawVLineColor width height r fuel x1 y1 (y2 - y1 + 1) color buf
             = Done buf').
Proof.
  intros Hb Hx1 Hy1 Hx2 Hy2 Hx Hy Hx2' Hy2' Hfuel Hfuel'.
  pose proof Hx1 as [[? ?] ?]. pose proof Hy1 as [[? ?] ?].
  pose proof Hx2 as [[? ?] ?]. pose proof Hy2 as [[? ?] ?].
  split.
  - intros <-.
    assert (Hsteps : bresenham fuel (Z.abs (x2 - x1)) (Z.abs (y1 - y1)) 0 0
                       (Z.abs (x2 - x1) - Z.abs (y1 - y1))
                     = Done (hspan 0 0 (x2 - x1 + 1))).
    { rewrite Z.sub_diag. change (Z.abs 0) with 0. rewrite Z.sub_0_r.
      rewrite Z.abs_eq by lia. apply bresenham_flat; lia. }
    pose proof (line_points_walk r fuel x1 y1 x2 y1 _ Hx1 Hy1 Hx2 Hy1 Hsteps) as Hl.
    assert (Hmap : map (place x1 y1 (if x1 <? x2 then 1 else -1)
                                    (if y1 <? y1 then 1 else -1))
                       (hspan 0 0 (x2 - x1 + 1))
                   = hspan y1 x1 (x2 + 1)).
    { destruct (x1 <? x2) eqn:E.
      - rewrite (map_place_hspan x1 y1 _ (Z.to_nat (x2 - x1 + 1))) by lia.
        f_equal; lia.
      - apply Z.ltb_ge in E. assert (x2 = x1) by lia. subst x2.
        rewrite Z.sub_diag. rewrite (hspan_cons 0 0), (hspan_cons y1 x1) by lia.
        rewrite !hspan_nil by lia. unfold place. simpl. f_equal. f_equal; lia. }
    rewrite Hmap in Hl.
    eexists. split.
    + rewrite DrawLineColor_plots by (assumption || lia). rewrite Hl.
      cbn [mbind outcome_bind]. rewrite plot_all_hspan_clip. reflexivity.
    + unfold DrawHLineColor.
      rewrite (DrawHLineColor_loop_span width height r width_fits)
        by (assumption || lia).
      rewrite span_end_exact by lia.
      do 3 f_equal. lia.
  - intros <-.
    assert (Hsteps : bresenham fuel (Z.abs (x1 - x1)) (Z.abs (y2 - y1)) 0 0
                       (Z.abs (x1 - x1) - Z.abs (y2 - y1))
                     = Done (vspan 0 0 (y2 - y1 + 1))).
    { rewrite Z.sub_diag. change (Z.abs 0) with 0. rewrite Z.sub_0_l.
      rewrite Z.abs_eq by lia. apply bresenham_upright; lia. }
    pose proof (line_points_walk r fuel x1 y1 x1 y2 _ Hx1 Hy1 Hx1 Hy2 Hsteps) as Hl.
    assert (Hmap : map (place x1 y1 (if x1 <? x1 then 1 else -1)
                                    (if y1 <? y2 then 1 else -1))
                       (vspan 0 0 (y2 - y1 + 1))
                   = vspan x1 y1 (y2 + 1)).
    { destruct (y1 <? y2) eqn:E.
      - rewrite (map_place_vspan x1 y1 _ (Z.to_nat (y2 - y1 + 1))) by lia.
        f_equal; lia.
      - apply Z.ltb_ge in E. assert (y2 = y1) by lia. subst y2.
        rewrite Z.sub_diag. rewrite (vspan_cons 0 0), (vspan_cons x1 y1) by lia.
        rewrite !vspan_nil by lia. unfold place. simpl. f_equal. f_equal; lia. }
    rewrite Hmap in Hl.
    eexists. split.
    + rewrite DrawLineColor_plots by (assumption || lia). rewrite Hl.
      cbn [mbind outcome_bind]. rewrite plot_all_vspan_clip. reflexivity.
    + unfold DrawVLineColor.
      rewrite (DrawVLineColor_loop_span width height r height_fits)
        by (assumption || lia).
      rewrite span_end_exact by lia.
      do 3 f_equal. lia.
Qed.

End LineShape.

(** ** Initialization, again *)

Section Reinit.

Variables width height : Z.

(** X21.  [Init] can be repeated: whatever theme and framebuffer the
    driver held, [Init] leaves the default theme (white on black, cyan
    accent) and a black framebuffer, and a second [Init] from that state
    leaves the same theme and framebuffer and puts exactly the same
    events on the bus as the first. *)
Theorem Init_repeatable (fuel : nat) (config : pin_config) (d : driver) :
  well_sized width height (buffer_ d) ->
  (Z.to_nat (width * height) < fuel)%nat ->
  exists d1 d2,
    Init width height fuel config d = Done d1
    /\ Init width height fuel config d1 = Done d2
    /\ GetForegroundColor d1 = COLOR_WHITE
    /\ GetBackgroundColor d1 = COLOR_BLACK
    /\ GetAccentColor d1 = COLOR_CYAN
    /\ buffer_ d2 = buffer_ d1
    /\ GetForegroundColor d2 = GetForegroundColor d1
    /\ GetBackgroundColor d2 = GetBackgroundColor d1
    /\ GetAccentColor d2 = GetAccentColor d1
    /\ emitted d1 d2 = emitted d d1.
Proof.
  intros Hb Hfuel.
  destruct (FillColor_Done width height fuel COLOR_BLACK (buffer_ d) Hb Hfuel)
    as (b1 & Hrun1 & Hb1 & Hall1).
  destruct (FillColor_Done width height fuel COLOR_BLACK b1 Hb1 Hfuel)
    as (b2 & Hrun2 & Hb2 & Hall2).
  assert (b2 = b1)
    by (eapply filled_unique; [exact Hb2|exact Hb1|exact Hall2|exact Hall1]).
  subst b2.
  cbv beta zeta delta [Init Fill theme_color with_transport].
  cbn [buffer_ background_color_ transport_].
  rewrite Hrun1. cbn [mbind outcome_bind].
  eexists. eexists. split; [reflexivity|].
  cbn [buffer_ Update with_buffer with_transport background_color_ transport_].
  rewrite Hrun2. cbn [mbind outcome_bind].
  split; [reflexivity|].
  cbn [GetForegroundColor GetBackgroundColor GetAccentColor
       buffer_ Update with_buffer with_transport
       foreground_color_ background_color_ accent_color_ transport_].
  repeat (split; [reflexivity|]).
  unfold emitted.
  cbv beta zeta delta [Update with_buffer with_transport].
  cbn [transport_ buffer_].
  lazymatch goal with
  | |- drop (length ?T1) _ = _ => set (t1 := T1) at 1 2
  end.
  unfold SendCommand, SendData, System_Delay, transport_Init.
  rewrite <- !app_assoc. rewrite !drop_app_length. reflexivity.
Qed.

End Reinit.

(** ** Two-tone drawing on a cleared screen *)

Section Erase.

Variables width height : Z.
Variable r : fast8_rank.

Hypothesis width_fits : width < 2 ^ fast_bits r.
Hypothesis height_fits : height < 2 ^ fast_bits r.

(** Plotting a colour into a framebuffer that holds it everywhere
    changes nothing. *)
Lemma plot_all_filled_id (color : Z) (pts : list (Z * Z)) (buf : list Z) :
  (forall m, 0 <= m < width * height ->
     buf !! Z.to_nat (2 * m) = Some (u8 (Z.shiftr color 8))
     /\ buf !! Z.to_nat (2 * m + 1) = Some (u8 (Z.land color 0xFF))) ->
  Forall (fun p => 0 <= fst p /\ 0 <= snd p) pts ->
  plot_all width height color pts buf = buf.
Proof.
  intros Hall. induction pts as [|[a b] pts IH]; intros Hpos; [reflexivity|].
  apply Forall_cons in Hpos as [[Ha Hb] Hpos]. simpl in Ha, Hb.
  change (plot_all width height color ((a, b) :: pts) buf)
    with (plot_all width height color pts (set_pixel width height color buf (a, b))).
  assert (Hid : set_pixel width height color buf (a, b) = buf).
  { unfold set_pixel.
    destruct (width <=? a) eqn:E1; [reflexivity|].
    destruct (height <=? b) eqn:E2; [reflexivity|]. cbn [orb].
    assert (Hm : 0 <= b * width + a < width * height) by nia.
    destruct (Hall _ Hm) as [A B].
    unfold pixel_index.
    replace ((b * width + a) * 2) with (2 * (b * width + a)) by lia.
    rewrite (list_insert_id buf _ _ A).
    now rewrite (list_insert_id buf _ _ B). }
  rewrite Hid. now apply IH.
Qed.

(** X22.  On a screen cleared by [Fill(false)], drawing "off" is a no-op
    for every two-tone primitive: [DrawRect], [DrawHLine], [DrawVLine]
    and [DrawLine] with [on = false] each return the driver exactly as
    [Fill] left it, for all plain coordinates and every width and height
    argument. *)
Theorem two_tone_off_on_cleared
    (fuel : nat) (x1 y1 x2 y2 w h : Z) (d : driver) :
  well_sized width height (buffer_ d) ->
  plain_coord r x1 -> plain_coord r y1 ->
  plain_coord r x2 -> plain_coord r y2 ->
  (Z.to_nat (width * height) < fuel)%nat ->
  (Z.to_nat (Z.max width height) < fuel)%nat ->
  (Z.to_nat (Z.abs (x2 - x1) + Z.abs (y2 - y1)) < fuel)%nat ->
  exists cleared,
    Fill width height fuel false d = Done cleared
    /\ DrawRect width height r fuel x1 y1 x2 y2 false cleared = Done cleared
    /\ DrawHLine width height r fuel x1 y1 w false cleared = Done cleared
    /\ DrawVLine width height r fuel x1 y1 h false cleared = Done cleared
    /\ DrawLine width height r fuel x1 y1 x2 y2 false cleared = Done cleared.
Proof.
  intros Hb Hx1 Hy1 Hx2 Hy2 Hf1 Hf2 Hf3.
  pose proof Hx1 as [[? ?] ?]. pose proof Hy1 as [[? ?] ?].
  pose proof Hx2 as [[? ?] ?]. pose proof Hy2 as [[? ?] ?].
  destruct (FillColor_Done width height fuel (background_color_ d) (buffer_ d)
              Hb Hf1) as (b1 & Hrun & Hb1 & Hall).
  unfold Fill, DrawRect, DrawHLine, DrawVLine, DrawLine.
  cbn [theme_color]. rewrite Hrun. cbn [mbind outcome_bind].
  eexists. split; [reflexivity|].
  cbn [with_buffer buffer_ background_color_].
  split; [|split; [|split]].
  - rewrite (DrawRectColor_spans width height r width_fits height_fits)
      by (assumption || lia).
    cbn [mbind outcome_bind].
    rewrite plot_all_filled_id; [reflexivity|exact Hall|].
    repeat apply Forall_app_2;
      first [apply hspan_nonneg | apply vspan_nonneg]; lia.
  - unfold DrawHLineColor.
    rewrite (DrawHLineColor_loop_span width height r width_fits)
      by (assumption || lia).
    cbn [mbind outcome_bind].
    rewrite plot_all_filled_id; [reflexivity|exact Hall|].
    apply hspan_nonneg; lia.
  - unfold DrawVLineColor.
    rewrite (DrawVLineColor_loop_span width height r height_fits)
      by (assumption || lia).
    cbn [mbind outcome_bind].
    rewrite plot_all_filled_id; [reflexivity|exact Hall|].
    apply vspan_nonneg; lia.
  - destruct (DrawLineColor_total width height r fuel x1 y1 x2 y2
                (background_color_ d) b1)
      as (steps & _ & _ & _ & _ & _ & Hpts & Hdraw); try assumption.
    rewrite Hdraw. cbn [mbind outcome_bind].
    rewrite plot_all_filled_id; [reflexivity|exact Hall|].
    apply (line_points_nonneg r fuel x1 y1 x2 y2); [lia|lia|exact Hpts].
Qed.

End Erase.

(** ** The theme *)

Section Theme.

Variables width height : Z.

(** X23.  The theme has one slot per setter: the three single setters,
    in either order, amount to [SetTheme]; every slot then holds a 16-bit
    colour; and the theme [Init] leaves is the one [SetThemeDefault]
    sets, so that [SetThemeDefault] changes nothing after [Init] and
    undoes whatever theme was set since. *)
Theorem theme_setters_agree
    (fuel : nat) (config : pin_config) (fg bg accent : Z) (d : driver) :
  well_sized width height (buffer_ d) ->
  (Z.to_nat (width * height) < fuel)%nat ->
  SetAccentColor accent (SetBackgroundColor bg (SetForegroundColor fg d))
  = SetTheme fg bg accent d
  /\ SetForegroundColor fg (SetBackgroundColor bg (SetAccentColor accent d))
     = SetTheme fg bg accent d
  /\ theme_valid (SetTheme fg bg accent d)
  /\ exists d1,
       Init width height fuel config d = Done d1
       /\ theme_valid d1
       /\ SetThemeDefault d1 = d1
       /\ SetThemeDefault (SetTheme fg bg accent d1) = d1.
Proof.
  intros Hb Hfuel.
  split; [reflexivity|]. split; [reflexivity|].
  split.
  { unfold theme_valid, SetTheme, u16.
    cbn [foreground_color_ background_color_ accent_color_].
    pose proof (Z.mod_pos_bound fg 65536).
    pose proof (Z.mod_pos_bound bg 65536).
    pose proof (Z.mod_pos_bound accent 65536). lia. }
  destruct (FillColor_Done width height fuel COLOR_BLACK (buffer_ d) Hb Hfuel)
    as (b1 & Hrun1 & _ & _).
  cbv beta zeta delta [Init Fill theme_color with_transport].
  cbn [buffer_ background_color_ transport_].
  rewrite Hrun1. cbn [mbind outcome_bind].
  eexists. split; [reflexivity|].
  unfold theme_valid, SetThemeDefault, SetTheme.
  cbn [Update with_buffer with_transport
       foreground_color_ background_color_ accent_color_ transport_ buffer_].
  split; [unfold COLOR_WHITE, COLOR_BLACK, COLOR_CYAN; lia|].
  split; reflexivity.
Qed.

End Theme.

(** ** The further properties at concrete inputs *)

(** Two colours that differ only in the dropped low bits. *)
Lemma RGB565_collision_witness :
  (0 <= 200 < 256 /\ 0 <= 207 < 256)
  /\ (RGB565 200 100 50 = RGB565 207 103 55
      <-> 200 / 8 = 207 / 8 /\ 100 / 4 = 103 / 4 /\ 50 / 8 = 55 / 8).
Proof.
  split; [lia|].
  apply (RGB565_collision 200 100 50 207 103 55); lia.
Defined.

(** Red, then white, at [(10, 20)]. *)
Lemma DrawPixelColor_last_wins_witness :
  well_sized 128 160 (blank 128 160)
  /\ (buf1 ← DrawPixelColor 128 160 10 20 COLOR_RED (blank 128 160);
      DrawPixelColor 128 160 10 20 COLOR_WHITE buf1)
     = DrawPixelColor 128 160 10 20 COLOR_WHITE (blank 128 160).
Proof.
  assert (Hb : well_sized 128 160 (blank 128 160)) by (vm_compute; reflexivity).
  split; [exact Hb|].
  apply (DrawPixelColor_last_wins 128 160 10 20 COLOR_RED COLOR_WHITE
           (blank 128 160)); [exact Hb|lia|lia].
Defined.

(** Red at [(10, 20)] and white at [(11, 20)], in both orders. *)
Lemma DrawPixelColor_commute_witness :
  (10, 20) <> (11, 20)
  /\ (buf1 ← DrawPixelColor 128 160 10 20 COLOR_RED (blank 128 160);
      DrawPixelColor 128 160 11 20 COLOR_WHITE buf1)
     = (buf1 ← DrawPixelColor 128 160 11 20 COLOR_WHITE (blank 128 160);
        DrawPixelColor 128 160 10 20 COLOR_RED buf1).
Proof.
  assert (Hne : (10, 20) <> (11, 20)) by (intros [= ? ?]; lia).
  split; [exact Hne|].
  apply (DrawPixelColor_commute 128 160 10 20 COLOR_RED 11 20 COLOR_WHITE
           (blank 128 160));
    [vm_compute; reflexivity|lia|lia|lia|lia|exact Hne].
Defined.

(** The colour [(200, 100, 50)] at [(10, 20)]. *)
Lemma DrawPixelRGB_read_witness :
  well_sized 128 160 (blank 128 160)
  /\ exists buf',
       DrawPixelRGB 128 160 10 20 200 100 50 (blank 128 160) = Done buf'
       /\ (on_panel 128 160 10 20 ->
           exists c,
             read_pixel 128 buf' 10 20 = Some c
             /\ red5 c = Z.shiftr 200 3
             /\ green6 c = Z.shiftr 100 2
             /\ blue5 c = Z.shiftr 50 3)
       /\ (128 <= 10 \/ 160 <= 20 -> buf' = blank 128 160)
       /\ (forall x' y',
             on_panel 128 160 x' y' -> (x', y') <> (10, 20) ->
             read_pixel 128 buf' x' y' = read_pixel 128 (blank 128 160) x' y').
Proof.
  assert (Hb : well_sized 128 160 (blank 128 160)) by (vm_compute; reflexivity).
  split; [exact Hb|].
  apply (DrawPixelRGB_read 128 160 10 20 200 100 50 (blank 128 160));
    [exact Hb|lia|lia|lia|lia|lia].
Defined.

(** A horizontal line of 50 pixels from column 100, cut at the right edge. *)
Lemma DrawHLineColor_exact_witness :
  well_sized 128 160 (blank 128 160)
  /\ exists buf',
       DrawHLineColor 128 160 UInt (Z.to_nat 129) 100 20 50 COLOR_RED
         (blank 128 160) = Done buf'
       /\ well_sized 128 160 buf'
       /\ forall a b,
            on_panel 128 160 a b ->
            (b = 20 /\ 100 <= a < 100 + 50 ->
             read_pixel 128 buf' a b = Some COLOR_RED)
            /\ (~ (b = 20 /\ 100 <= a < 100 + 50) ->
                read_pixel 128 buf' a b = read_pixel 128 (blank 128 160) a b).
Proof.
  assert (Hb : well_sized 128 160 (blank 128 160)) by (vm_compute; reflexivity).
  split; [exact Hb|].
  apply (DrawHLineColor_exact 128 160 UInt);
    [simpl; lia|exact Hb|unfold COLOR_RED; lia|simpl; lia|simpl; lia|lia
    |simpl; lia|lia].
Defined.

(** A vertical line of 50 pixels from row 150, cut at the bottom edge. *)
Lemma DrawVLineColor_exact_witness :
  well_sized 128 160 (blank 128 160)
  /\ exists buf',
       DrawVLineColor 128 160 UInt (Z.to_nat 161) 10 150 50 COLOR_RED
         (blank 128 160) = Done buf'
       /\ well_sized 128 160 buf'
       /\ forall a b,
            on_panel 128 160 a b ->
            (a = 10 /\ 150 <= b < 150 + 50 ->
             read_pixel 128 buf' a b = Some COLOR_RED)
            /\ (~ (a = 10 /\ 150 <= b < 150 + 50) ->
                read_pixel 128 buf' a b = read_pixel 128 (blank 128 160) a b).
Proof.
  assert (Hb : well_sized 128 160 (blank 128 160)) by (vm_compute; reflexivity).
  split; [exact Hb|].
  apply (DrawVLineColor_exact 128 160 UInt);
    [simpl; lia|exact Hb|unfold COLOR_RED; lia|simpl; lia|simpl; lia|lia
    |simpl; lia|lia].
Defined.

(** The outline of the square [(10,10)-(20,20)]. *)
Lemma DrawRectColor_outline_witness :
  (0 <= 10 <= 20)
  /\ exists buf',
       DrawRectColor 128 160 UInt (Z.to_nat 161) 10 10 20 20 COLOR_RED
         (blank 128 160) = Done buf'
       /\ well_sized 128 160 buf'
       /\ forall a b,
            on_panel 128 160 a b ->
            ((b = 10 \/ b = 20) /\ 10 <= a <= 20
             \/ (a = 10 \/ a = 20) /\ 10 <= b <= 20 ->
             read_pixel 128 buf' a b = Some COLOR_RED)
            /\ (~ ((b = 10 \/ b = 20) /\ 10 <= a <= 20
                   \/ (a = 10 \/ a = 20) /\ 10 <= b <= 20) ->
                read_pixel 128 buf' a b = read_pixel 128 (blank 128 160) a b).
Proof.
  split; [lia|].
  apply (DrawRectColor_outline 128 160 UInt);
    [simpl; lia|simpl; lia|vm_compute; reflexivity|unfold COLOR_RED; lia
    |lia|lia|simpl; lia|simpl; lia|lia].
Defined.

(** The reversed square [(20,20)-(10,10)] where [uint_fast8_t] has 32
    bits. *)
Lemma DrawRectColor_reversed_wide_witness :
  (promotes UInt = false /\ 0 <= 10 < 20)
  /\ DrawRectColor 128 160 UInt (Z.to_nat 161) 20 20 10 10 COLOR_RED
       (blank 128 160) = Done (blank 128 160).
Proof.
  split; [split; [reflexivity|lia]|].
  apply (DrawRectColor_reversed_wide 128 160 UInt);
    [simpl; lia|simpl; lia|reflexivity|vm_compute; reflexivity|lia
    |simpl; lia|lia|simpl; lia|lia].
Defined.

(** The rectangle [(20,10)-(10,20)], columns reversed, where
    [uint_fast8_t] has 8 bits. *)
Lemma DrawRectColor_reversed_narrow_witness :
  (promotes UChar = true /\ 10 + 1 < 20)
  /\ exists buf',
       DrawRectColor 128 160 UChar (Z.to_nat 161) 20 10 10 20 COLOR_RED
         (blank 128 160) = Done buf'
       /\ forall a b,
            on_panel 128 160 a b ->
            ((b = 10 \/ b = 20) /\ 20 <= a
             \/ (a = 20 \/ a = 10) /\ 10 <= b <= 20 ->
             read_pixel 128 buf' a b = Some COLOR_RED)
            /\ (~ ((b = 10 \/ b = 20) /\ 20 <= a
                   \/ (a = 20 \/ a = 10) /\ 10 <= b <= 20) ->
                read_pixel 128 buf' a b = read_pixel 128 (blank 128 160) a b).
Proof.
  split; [split; [reflexivity|lia]|].
  apply (DrawRectColor_reversed_narrow 128 160 UChar);
    [simpl; lia|simpl; lia|reflexivity|vm_compute; reflexivity
    |unfold COLOR_RED; lia|lia|lia|simpl; lia|lia|simpl; lia|lia].
Defined.

(** A filled square of side 50 at [(100, 150)], cut at both edges. *)
Lemma DrawRectFilled_exact_witness :
  well_sized 128 160 (blank 128 160)
  /\ exists buf',
       DrawRectFilled 128 160 UInt (Z.to_nat 161) 100 150 50 50 COLOR_RED
         (blank 128 160) = Done buf'
       /\ well_sized 128 160 buf'
       /\ forall a b,
            on_panel 128 160 a b ->
            (100 <= a < 100 + 50 /\ 150 <= b < 150 + 50 ->
             read_pixel 128 buf' a b = Some COLOR_RED)
            /\ (~ (100 <= a < 100 + 50 /\ 150 <= b < 150 + 50) ->
                read_pixel 128 buf' a b = read_pixel 128 (blank 128 160) a b).
Proof.
  assert (Hb : well_sized 128 160 (blank 128 160)) by (vm_compute; reflexivity).
  split; [exact Hb|].
  apply (DrawRectFilled_exact 128 160 UInt);
    [simpl; lia|simpl; lia|exact Hb|unfold COLOR_RED; lia
    |simpl; lia|simpl; lia|simpl; lia|simpl; lia|simpl; lia|lia].
Defined.

(** The whole panel as a filled rectangle. *)
Lemma DrawRectFilled_full_is_FillColor_witness :
  (0 < 128 /\ 0 < 160)
  /\ exists buf',
       DrawRectFilled 128 160 UInt (Z.to_nat 20481) 0 0 128 160 COLOR_RED
         (blank 128 160) = Done buf'
       /\ FillColor 128 160 (Z.to_nat 20481) COLOR_RED (blank 128 160)
          = Done buf'.
Proof.
  split; [lia|].
  apply (DrawRectFilled_full_is_FillColor 128 160 UInt);
    [simpl; lia|simpl; lia|vm_compute; reflexivity|lia|lia|lia].
Defined.

(** Filling a blank framebuffer and one that holds [0xFF] everywhere. *)
Lemma FillColor_erases_witness :
  (well_sized 128 160 (blank 128 160)
   /\ well_sized 128 160 (replicate (Z.to_nat 40960) 255))
  /\ exists buf',
       FillColor 128 160 (Z.to_nat 20481) COLOR_RED (blank 128 160) = Done buf'
       /\ FillColor 128 160 (Z.to_nat 20481) COLOR_RED
            (replicate (Z.to_nat 40960) 255) = Done buf'
       /\ well_sized 128 160 buf'
       /\ forall x y,
            on_panel 128 160 x y -> read_pixel 128 buf' x y = Some COLOR_RED.
Proof.
  assert (Hb : well_sized 128 160 (blank 128 160)) by (vm_compute; reflexivity).
  assert (Ho : well_sized 128 160 (replicate (Z.to_nat 40960) 255))
    by (vm_compute; reflexivity).
  split; [exact (conj Hb Ho)|].
  apply (FillColor_erases 128 160 (Z.to_nat 20481) COLOR_RED (blank 128 160)
           (replicate (Z.to_nat 40960) 255));
    [exact Hb|exact Ho|unfold COLOR_RED; lia|lia].
Defined.

(** The pixel [(10, 20)] switched on and off under the default theme. *)
Lemma DrawPixel_on_off_witness :
  well_sized 128 160 (buffer_ (fresh_driver 128 160))
  /\ exists cleared lit,
       Fill 128 160 (Z.to_nat 20481) false
         (SetTheme COLOR_WHITE COLOR_BLACK COLOR_CYAN (fresh_driver 128 160))
       = Done cleared
       /\ DrawPixel 128 160 10 20 true cleared = Done lit
       /\ DrawPixel 128 160 10 20 false lit = Done cleared
       /\ (on_panel 128 160 10 20 ->
           read_pixel 128 (buffer_ lit) 10 20 = Some (u16 COLOR_WHITE))
       /\ (forall a b,
             on_panel 128 160 a b -> (a, b) <> (10, 20) ->
             read_pixel 128 (buffer_ lit) a b = Some (u16 COLOR_BLACK))
       /\ GetForegroundColor lit = u16 COLOR_WHITE
       /\ GetBackgroundColor lit = u16 COLOR_BLACK
       /\ GetAccentColor lit = u16 COLOR_CYAN
       /\ transport_ lit = transport_ (fresh_driver 128 160).
Proof.
  assert (Hb : well_sized 128 160 (buffer_ (fresh_driver 128 160)))
    by (vm_compute; reflexivity).
  split; [exact Hb|].
  apply (DrawPixel_on_off 128 160 (Z.to_nat 20481) COLOR_WHITE COLOR_BLACK
           COLOR_CYAN 10 20 (fresh_driver 128 160)); [exact Hb|lia|lia|lia].
Defined.

(** [RAMWR], three data bytes and [Init] on an idle bus. *)
Lemma transport_keeps_discipline_witness :
  cs_discipline true [] = Some true
  /\ cs_discipline true (SendCommand RAMWR []) = Some true
  /\ cs_discipline true (SendData [1; 2; 3] 3 []) = Some true
  /\ cs_discipline true (transport_Init Defaults []) = Some true.
Proof.
  split; [reflexivity|].
  apply (transport_keeps_discipline true true [] RAMWR [1; 2; 3] 3 Defaults);
    reflexivity.
Defined.

(** [RAMWR] and the first two of three data bytes on an idle bus. *)
Lemma transport_round_trip_witness :
  (0 <= RAMWR < 256 /\ 0 <= 2 <= Z.of_nat (length [1; 2; 3]))
  /\ decode_from true true
       (drop (length ([] : transport)) (SendCommand RAMWR []))
     = [Command RAMWR]
  /\ decode_from true true
       (drop (length ([] : transport)) (SendData [1; 2; 3] 2 []))
     = [Parameters (take (Z.to_nat 2) [1; 2; 3])]
  /\ Z.of_nat (length (take (Z.to_nat 2) [1; 2; 3])) = 2.
Proof.
  split; [unfold RAMWR; simpl; lia|].
  apply (transport_round_trip true true [] RAMWR [1; 2; 3] 2);
    [unfold RAMWR; lia|simpl; lia].
Defined.

(** One frame of the 128x160 panel. *)
Lemma Update_cost_witness :
  (well_sized 128 160 (buffer_ (fresh_driver 128 160))
   /\ cs_discipline true (transport_ (fresh_driver 128 160)) = Some true)
  /\ Z.of_nat
       (length
          (wire_bytes
             (emitted (fresh_driver 128 160)
                (Update 128 160 (fresh_driver 128 160)))))
     = 11 + 128 * 160 * 2
  /\ length
       (decode
          (emitted (fresh_driver 128 160)
             (Update 128 160 (fresh_driver 128 160))))
     = 6%nat
  /\ buffer_ (Update 128 160 (fresh_driver 128 160))
     = buffer_ (fresh_driver 128 160)
  /\ foreground_color_ (Update 128 160 (fresh_driver 128 160))
     = foreground_color_ (fresh_driver 128 160)
  /\ background_color_ (Update 128 160 (fresh_driver 128 160))
     = background_color_ (fresh_driver 128 160)
  /\ accent_color_ (Update 128 160 (fresh_driver 128 160))
     = accent_color_ (fresh_driver 128 160)
  /\ cs_discipline true (transport_ (Update 128 160 (fresh_driver 128 160)))
     = Some true.
Proof.
  assert (Hb : well_sized 128 160 (buffer_ (fresh_driver 128 160)))
    by (vm_compute; reflexivity).
  assert (Hcs : cs_discipline true (transport_ (fresh_driver 128 160))
                = Some true) by reflexivity.
  split; [exact (conj Hb Hcs)|].
  apply (Update_cost 128 160 (fresh_driver 128 160) true true);
    [exact Hb|exact Hcs].
Defined.

(** The line [(0,0)-(4,2)] stays in its bounding box. *)
Lemma DrawLineColor_inside_witness :
  (plain_coord UInt 0 /\ plain_coord UInt 4 /\ plain_coord UInt 2)
  /\ exists pts buf',
       line_points UInt (Z.to_nat 7) 0 0 4 2 = Done pts
       /\ DrawLineColor 128 160 UInt (Z.to_nat 7) 0 0 4 2 COLOR_RED
            (blank 128 160) = Done buf'
       /\ Forall
            (fun p : Z * Z =>
               Z.min 0 4 <= fst p <= Z.max 0 4
               /\ Z.min 0 2 <= snd p <= Z.max 0 2) pts
       /\ (on_panel 128 160 0 0 -> on_panel 128 160 4 2 ->
           forall a b,
             In (a, b) pts ->
             on_panel 128 160 a b
             /\ read_pixel 128 buf' a b = Some COLOR_RED)
       /\ (forall a b,
             on_panel 128 160 a b -> ~ In (a, b) pts ->
             read_pixel 128 buf' a b = read_pixel 128 (blank 128 160) a b).
Proof.
  assert (H0 : plain_coord UInt 0) by (unfold plain_coord; simpl; lia).
  assert (H4 : plain_coord UInt 4) by (unfold plain_coord; simpl; lia).
  assert (H2 : plain_coord UInt 2) by (unfold plain_coord; simpl; lia).
  split; [exact (conj H0 (conj H4 H2))|].
  apply (DrawLineColor_inside 128 160 UInt (Z.to_nat 7) 0 0 4 2 COLOR_RED
           (blank 128 160));
    [vm_compute; reflexivity|unfold COLOR_RED; lia
    |exact H0|exact H0|exact H4|exact H2|lia].
Defined.

(** The line [(0,0)-(4,2)] has five points. *)
Lemma DrawLineColor_count_witness :
  (plain_coord UInt 0 /\ plain_coord UInt 4 /\ plain_coord UInt 2)
  /\ exists pts,
       line_points UInt (Z.to_nat 7) 0 0 4 2 = Done pts
       /\ DrawLineColor 128 160 UInt (Z.to_nat 7) 0 0 4 2 COLOR_RED
            (blank 128 160)
          = Done (plot_all 128 160 COLOR_RED pts (blank 128 160))
       /\ Z.of_nat (length pts) = Z.max (Z.abs (4 - 0)) (Z.abs (2 - 0)) + 1.
Proof.
  assert (H0 : plain_coord UInt 0) by (unfold plain_coord; simpl; lia).
  assert (H4 : plain_coord UInt 4) by (unfold plain_coord; simpl; lia).
  assert (H2 : plain_coord UInt 2) by (unfold plain_coord; simpl; lia).
  split; [exact (conj H0 (conj H4 H2))|].
  apply (DrawLineColor_count 128 160 UInt (Z.to_nat 7) 0 0 4 2 COLOR_RED
           (blank 128 160));
    [vm_compute; reflexivity|exact H0|exact H0|exact H4|exact H2|lia].
Defined.

(** The line [(0,0)-(4,2)] has no gap. *)
Lemma DrawLineColor_connected_witness :
  (plain_coord UInt 0 /\ plain_coord UInt 4 /\ plain_coord UInt 2)
  /\ exists pts,
       line_points UInt (Z.to_nat 7) 0 0 4 2 = Done pts
       /\ DrawLineColor 128 160 UInt (Z.to_nat 7) 0 0 4 2 COLOR_RED
            (blank 128 160)
          = Done (plot_all 128 160 COLOR_RED pts (blank 128 160))
       /\ chained pts.
Proof.
  assert (H0 : plain_coord UInt 0) by (unfold plain_coord; simpl; lia).
  assert (H4 : plain_coord UInt 4) by (unfold plain_coord; simpl; lia).
  assert (H2 : plain_coord UInt 2) by (unfold plain_coord; simpl; lia).
  split; [exact (conj H0 (conj H4 H2))|].
  apply (DrawLineColor_connected 128 160 UInt (Z.to_nat 7) 0 0 4 2 COLOR_RED
           (blank 128 160));
    [vm_compute; reflexivity|exact H0|exact H0|exact H4|exact H2|lia].
Defined.

(** The horizontal segment [(10,20)-(30,20)]. *)
Lemma DrawLineColor_axis_aligned_witness :
  (10 <= 30 /\ 20 <= 20)
  /\ (20 = 20 ->
      exists buf',
        DrawLineColor 128 160 UInt (Z.to_nat 161) 10 20 30 20 COLOR_RED
          (blank 128 160) = Done buf'
        /\ DrawHLineColor 128 160 UInt (Z.to_nat 161) 10 20 (30 - 10 + 1)
             COLOR_RED (blank 128 160) = Done buf')
  /\ (10 = 30 ->
      exists buf',
        DrawLineColor 128 160 UInt (Z.to_nat 161) 10 20 30 20 COLOR_RED
          (blank 128 160) = Done buf'
        /\ DrawVLineColor 128 160 UInt (Z.to_nat 161) 10 20 (20 - 20 + 1)
             COLOR_RED (blank 128 160) = Done buf').
Proof.
  split; [lia|].
  apply (DrawLineColor_axis_aligned 128 160 UInt);
    [simpl; lia|simpl; lia|vm_compute; reflexivity
    |unfold plain_coord; simpl; lia|unfold plain_coord; simpl; lia
    |unfold plain_coord; simpl; lia|unfold plain_coord; simpl; lia
    |lia|lia|simpl; lia|simpl; lia|lia|lia].
Defined.

(** [Init] twice with the default pins. *)
Lemma Init_repeatable_witness :
  well_sized 128 160 (buffer_ (fresh_driver 128 160))
  /\ exists d1 d2,
       Init 128 160 (Z.to_nat 20481) Defaults (fresh_driver 128 160) = Done d1
       /\ Init 128 160 (Z.to_nat 20481) Defaults d1 = Done d2
       /\ GetForegroundColor d1 = COLOR_WHITE
       /\ GetBackgroundColor d1 = COLOR_BLACK
       /\ GetAccentColor d1 = COLOR_CYAN
       /\ buffer_ d2 = buffer_ d1
       /\ GetForegroundColor d2 = GetForegroundColor d1
       /\ GetBackgroundColor d2 = GetBackgroundColor d1
       /\ GetAccentColor d2 = GetAccentColor d1
       /\ emitted d1 d2 = emitted (fresh_driver 128 160) d1.
Proof.
  assert (Hb : well_sized 128 160 (buffer_ (fresh_driver 128 160)))
    by (vm_compute; reflexivity).
  split; [exact Hb|].
  apply (Init_repeatable 128 160 (Z.to_nat 20481) Defaults
           (fresh_driver 128 160)); [exact Hb|lia].
Defined.

(** Drawing with [on = false] on a cleared panel. *)
Lemma two_tone_off_on_cleared_witness :
  well_sized 128 160 (buffer_ (fresh_driver 128 160))
  /\ exists cleared,
       Fill 128 160 (Z.to_nat 20481) false (fresh_driver 128 160)
       = Done cleared
       /\ DrawRect 128 160 UInt (Z.to_nat 20481) 10 20 30 40 false cleared
          = Done cleared
       /\ DrawHLine 128 160 UInt (Z.to_nat 20481) 10 20 5 false cleared
          = Done cleared
       /\ DrawVLine 128 160 UInt (Z.to_nat 20481) 10 20 6 false cleared
          = Done cleared
       /\ DrawLine 128 160 UInt (Z.to_nat 20481) 10 20 30 40 false cleared
          = Done cleared.
Proof.
  assert (Hb : well_sized 128 160 (buffer_ (fresh_driver 128 160)))
    by (vm_compute; reflexivity).
  split; [exact Hb|].
  apply (two_tone_off_on_cleared 128 160 UInt);
    [simpl; lia|simpl; lia|exact Hb
    |unfold plain_coord; simpl; lia|unfold plain_coord; simpl; lia
    |unfold plain_coord; simpl; lia|unfold plain_coord; simpl; lia
    |lia|lia|lia].
Defined.

(** The theme [(red, black, white)] set before and after [Init]. *)
Lemma theme_setters_agree_witness :
  well_sized 128 160 (buffer_ (fresh_driver 128 160))
  /\ SetAccentColor COLOR_WHITE
       (SetBackgroundColor COLOR_BLACK
          (SetForegroundColor COLOR_RED (fresh_driver 128 160)))
     = SetTheme COLOR_RED COLOR_BLACK COLOR_WHITE (fresh_driver 128 160)
  /\ SetForegroundColor COLOR_RED
       (SetBackgroundColor COLOR_BLACK
          (SetAccentColor COLOR_WHITE (fresh_driver 128 160)))
     = SetTheme COLOR_RED COLOR_BLACK COLOR_WHITE (fresh_driver 128 160)
  /\ theme_valid
       (SetTheme COLOR_RED COLOR_BLACK COLOR_WHITE (fresh_driver 128 160))
  /\ exists d1,
       Init 128 160 (Z.to_nat 20481) Defaults (fresh_driver 128 160) = Done d1
       /\ theme_valid d1
       /\ SetThemeDefault d1 = d1
       /\ SetThemeDefault (SetTheme COLOR_RED COLOR_BLACK COLOR_WHITE d1) = d1.
Proof.
  assert (Hb : well_sized 128 160 (buffer_ (fresh_driver 128 160)))
    by (vm_compute; reflexivity).
  split; [exact Hb|].
  apply (theme_setters_agree 128 160 (Z.to_nat 20481) Defaults COLOR_RED
           COLOR_BLACK COLOR_WHITE (fresh_driver 128 160)); [exact Hb|lia].
Defined.
